(** * TinyLLM document client ([chatbot/documents.py]): chunker and
    retry-wrapped operations.

    Python values are modelled as follows.
    - A [str] is a list of Unicode code points ([pystr]); [len] is the
      length of that list, [+] is list append.
    - An [int] is a [Z].
    - [None]-able arguments and dictionary look-ups are [option]s.
    - Exceptions are an inductive type [exn]; an operation ends in
      [Ret v], in [Raise e], or runs out of fuel ([Diverge]) when a
      [while] loop has not finished after the given number of rounds. *)

From Stdlib Require Import List ZArith NArith Lia Bool String Ascii Arith.
From Stdlib Require Import DecimalString.
Import ListNotations.

Set Implicit Arguments.
Local Open Scope Z_scope.

(** ** Python strings *)

Module PyStr.

Definition pystr : Type := list N.

Definition len (s : pystr) : Z := Z.of_nat (List.length s).

Fixpoint of_string (s : string) : pystr :=
  match s with
  | EmptyString => []
  | String a rest => N_of_ascii a :: of_string rest
  end.

Definition LF : N := 10%N.
Definition CR : N := 13%N.

(** The line boundaries of [str.splitlines]: LF, VT, FF, CR, FS, GS, RS,
    NEL (U+0085), LINE SEPARATOR (U+2028) and PARAGRAPH SEPARATOR (U+2029);
    the pair CR LF counts as one boundary (see [splitlines_from]). *)
Definition is_linebreak (c : N) : bool :=
  match c with
  | 10 | 11 | 12 | 13 | 28 | 29 | 30 | 133 | 8232 | 8233 => true
  | _ => false
  end%N.

Definition eqb (a b : pystr) : bool :=
  if list_eq_dec N.eq_dec a b then true else false.

(** Truth value of a string: empty strings are false. *)
Definition truthy (s : pystr) : bool :=
  match s with [] => false | _ :: _ => true end.

(** Truth value of an optional string: [None] and [""] are false. *)
Definition otruthy (s : option pystr) : bool :=
  match s with None => false | Some t => truthy t end.

(** [str.splitlines()] with [keepends=False].  [cur] is the line being
    scanned, most recent character first. *)
Fixpoint splitlines_from (cur : pystr) (s : pystr) : list pystr :=
  match s with
  | [] => match cur with [] => [] | _ :: _ => [rev cur] end
  | c :: rest =>
      if is_linebreak c then
        if N.eqb c CR then
          match rest with
          | c' :: rest' =>
              if N.eqb c' LF then rev cur :: splitlines_from [] rest'
              else rev cur :: splitlines_from [] rest
          | [] => rev cur :: splitlines_from [] rest
          end
        else rev cur :: splitlines_from [] rest
      else splitlines_from (c :: cur) rest
  end.

Definition splitlines (s : pystr) : list pystr := splitlines_from [] s.

(** [str(n)] for a non-negative integer [n]. *)
Definition str_of_nat (n : nat) : pystr :=
  of_string (NilZero.string_of_uint (Nat.to_uint n)).

End PyStr.

Import PyStr.

Arguments of_string : simpl never.
Arguments str_of_nat : simpl never.

(** ** The chunker: [break_up_content] *)

(** One round of the [for line in lines] loop: the pair is
    [(result, current_chunk)]. *)
Definition chunk_step (max_size : Z) (st : list pystr * pystr) (line : pystr)
  : list pystr * pystr :=
  let '(result, current_chunk) := st in
  let '(result, current_chunk) :=
    if len current_chunk + len line >? max_size
    then (result ++ [current_chunk], [])
    else (result, current_chunk) in
  (result, current_chunk ++ line ++ [LF]).

Definition chunk_loop (max_size : Z) (lines : list pystr)
  (st : list pystr * pystr) : list pystr * pystr :=
  fold_left (chunk_step max_size) lines st.

Definition break_up_content (text : pystr) (max_size : Z) : list pystr :=
  if len text >? max_size then
    let lines := splitlines text in
    let '(result, current_chunk) := chunk_loop max_size lines ([], []) in
    result ++ [current_chunk]
  else [text].


(** *** Vocabulary for the chunker's properties *)

(** A string without line boundaries. *)
Definition no_break (l : pystr) : Prop :=
  forallb (fun c => negb (is_linebreak c)) l = true.

(** Lines, each followed by LF: what the chunker appends line by line. *)
Definition joined (g : list pystr) : pystr :=
  List.concat (map (fun l => l ++ [LF]) g).

(** The state of the loop after the lines [done]: the finished chunks
    hold the lines of the groups closed so far, the running buffer the
    lines of the open group [g]. *)
Definition chunk_inv (st : list pystr * pystr) (done : list pystr) : Prop :=
  exists g, snd st = joined g /\ Forall no_break g
            /\ List.concat (map splitlines (fst st)) ++ g = done.

(** ** Exceptions and outcomes *)

Inductive exn : Type :=
| WeaviateConnectionError (msg : pystr)
| ValueError (msg : pystr)
| IndexError (msg : pystr)
| AttributeError (msg : pystr)
| Exception (msg : pystr)
| LibraryError (name : pystr).   (* any other exception of the client library *)

(** [except WeaviateConnectionError] catches exactly these. *)
Definition is_connection_error (e : exn) : bool :=
  match e with WeaviateConnectionError _ => true | _ => false end.

(** The error kinds of the specification's taxonomy, and the exceptions of
    the code that carry them.  The code has no exception for [NotFound] or
    [PartialFailure]. *)
Inductive ErrorKind : Type :=
| ConnectionExhausted | InvalidArgument | NotFound | PartialFailure.

Definition error_kind (e : exn) : option ErrorKind :=
  match e with
  | WeaviateConnectionError _ => Some ConnectionExhausted
  | ValueError _ => Some InvalidArgument
  | _ => None
  end.

Inductive outcome (A : Type) : Type :=
| Ret (a : A)
| Raise (e : exn)
| Diverge.                       (* the loop budget of the model ran out *)

Arguments Raise {A} e.
Arguments Diverge {A}.

(** State and exceptions: a raised exception keeps the state reached. *)
Definition M (St A : Type) : Type := St -> outcome A * St.

Definition ret {St A} (a : A) : M St A := fun s => (Ret a, s).

Definition raise {St A} (e : exn) : M St A := fun s => (Raise e, s).

Definition bind {St A B} (m : M St A) (k : A -> M St B) : M St B :=
  fun s =>
    match m s with
    | (Ret a, s') => k a s'
    | (Raise e, s') => (Raise e, s')
    | (Diverge, s') => (Diverge, s')
    end.

Declare Scope py_scope.
Delimit Scope py_scope with py.
Notation "x <- m ;; k" := (bind m (fun x => k))
  (at level 61, m at next level, right associativity) : py_scope.
Notation "' pat <- m ;; k" := (bind m (fun x => let pat := x in k))
  (at level 61, pat pattern, m at next level, right associativity) : py_scope.
Notation "m ;;; k" := (bind m (fun _ => k))
  (at level 61, right associativity) : py_scope.
Local Open Scope py_scope.

(** Local variables of a method body, next to the world. *)
Definition lift {S W A} (m : M W A) : M (S * W) A :=
  fun st => let '(r, w') := m (snd st) in (r, (fst st, w')).

Definition get_local {S W} : M (S * W) S := fun st => (Ret (fst st), st).

Definition set_local {S W} (v : S) : M (S * W) unit :=
  fun st => (Ret tt, (v, snd st)).

Definition with_locals {S W A} (init : S) (m : M (S * W) A) : M W A :=
  fun w => let '(r, st) := m (init, w) in (r, snd st).

(** [for x in xs: <body>] *)
Fixpoint for_each {St A} (xs : list A) (body : A -> M St unit) : M St unit :=
  match xs with
  | [] => ret tt
  | x :: rest => body x ;;; for_each rest body
  end.

(** ** Dictionaries that keep insertion order *)

Section Dict.
Variables K V : Type.
Variable keqb : K -> K -> bool.

Definition dict : Type := list (K * V).

Fixpoint dict_get (d : dict) (k : K) : option V :=
  match d with
  | [] => None
  | (k', v) :: rest => if keqb k' k then Some v else dict_get rest k
  end.

(** [d[k] = v]: an existing key keeps its place. *)
Fixpoint dict_set (d : dict) (k : K) (v : V) : dict :=
  match d with
  | [] => [(k, v)]
  | (k', v') :: rest =>
      if keqb k' k then (k', v) :: rest else (k', v') :: dict_set rest k v
  end.

Definition dict_keys (d : dict) : list K := map fst d.
End Dict.

Definition oeqb (a b : option pystr) : bool :=
  match a, b with
  | None, None => true
  | Some x, Some y => PyStr.eqb x y
  | _, _ => false
  end.

(** ** The client library (weaviate) and the world around a [Documents]
    object *)

Inductive api : Type :=
| ApiConnect | ApiListAll | ApiCreate | ApiDelete | ApiGet | ApiIterator
| ApiFetchObjects | ApiNearText | ApiDeleteById | ApiInsertMany.

Inductive method : Type :=
| m_connect | m_all_collections | m_create | m_delete | m_list_documents
| m_get_document | m_get_documents | m_delete_document | m_add_document
| m_update_document.

(** What an execution leaves behind: every call into the client library,
    and every entry into the [try] block of a method's retry loop. *)
Inductive event : Type :=
| EvCall (a : api)
| EvTry (m : method).

Definition api_eqb (a b : api) : bool :=
  match a, b with
  | ApiConnect, ApiConnect | ApiListAll, ApiListAll | ApiCreate, ApiCreate
  | ApiDelete, ApiDelete | ApiGet, ApiGet | ApiIterator, ApiIterator
  | ApiFetchObjects, ApiFetchObjects | ApiNearText, ApiNearText
  | ApiDeleteById, ApiDeleteById | ApiInsertMany, ApiInsertMany => true
  | _, _ => false
  end.

Definition method_eqb (a b : method) : bool :=
  match a, b with
  | m_connect, m_connect | m_all_collections, m_all_collections
  | m_create, m_create | m_delete, m_delete
  | m_list_documents, m_list_documents | m_get_document, m_get_document
  | m_get_documents, m_get_documents
  | m_delete_document, m_delete_document
  | m_add_document, m_add_document
  | m_update_document, m_update_document => true
  | _, _ => false
  end.

Definition is_try (m : method) (ev : event) : bool :=
  match ev with EvTry m' => method_eqb m m' | EvCall _ => false end.

Definition is_call (a : api) (ev : event) : bool :=
  match ev with EvCall a' => api_eqb a a' | EvTry _ => false end.

Definition is_any_call (ev : event) : bool :=
  match ev with EvCall _ => true | EvTry _ => false end.

(** Number of passes through the [try] block of [m] recorded in a trace. *)
Definition tries (m : method) (tr : list event) : nat :=
  List.length (filter (is_try m) tr).

(** Number of calls of [a] recorded in a trace. *)
Definition calls (a : api) (tr : list event) : nat :=
  List.length (filter (is_call a) tr).

Definition MAX_CHUNK_SIZE : Z := 256 * 4.

Section Client.

(** Types owned by the library and the platform. *)
Variables timestamp Client Collection BatchReturn ext : Type.

(** Properties of a stored object, as read with [p.get(key)]. *)
Record Properties : Type := mkProperties {
  p_file : option pystr;
  p_title : option pystr;
  p_chunk : option pystr;
  p_doc_type : option pystr;
  p_content : option pystr;
  p_creation_time : option timestamp
}.

Record Object : Type := mkObject {
  o_uuid : pystr;                 (* [str(o.uuid)] *)
  o_properties : Properties
}.

(** The dictionary built by [get_document] and [get_documents]. *)
Record Document : Type := mkDocument {
  d_uuid : pystr;
  d_file : option pystr;
  d_title : option pystr;
  d_chunk : option pystr;
  d_doc_type : option pystr;
  d_content : option pystr;
  d_creation_time : option timestamp
}.

(** The dictionary built by [add_document] for [insert_many]. *)
Record DocRecord : Type := mkDocRecord {
  r_title : pystr;
  r_chunk : option pystr;
  r_doc_type : pystr;
  r_file : pystr;
  r_content : pystr;
  r_creation_time : timestamp
}.

(** The per-object summary of [list_documents]. *)
Record Summary : Type := mkSummary {
  s_title : option pystr;
  s_doc_type : option pystr;
  s_creation_time : option timestamp
}.

(** The value of the variable [collection] of [list_documents]: the
    argument ([None] by default), later the collection object. *)
Inductive collarg : Type :=
| ArgNone
| ArgName (name : pystr)
| ArgCollection (c : Collection).

(** The calls the module makes into its environment.  [ext] is the state
    of everything outside the [Documents] object (network, remote store,
    clock); each call may change it and may raise. *)
Record Weaviate : Type := mkWeaviate {
  time_time : ext -> timestamp * ext;
  time_sleep : Z -> ext -> ext;
  str_title : pystr -> pystr;                      (* [str.title()] *)
  connect_to_local : pystr -> Z -> Z -> ext -> (exn + Client) * ext;
  client_close : Client -> ext -> (exn + unit) * ext;
  collections_list_all : Client -> ext -> (exn + list pystr) * ext;
  collections_create : Client -> pystr -> ext -> (exn + unit) * ext;
  collections_delete : Client -> pystr -> ext -> (exn + unit) * ext;
  collections_get : Client -> collarg -> ext -> (exn + Collection) * ext;
  (* the objects yielded, then the exception that ended the iteration *)
  iterator : Collection -> ext -> (list Object * option exn) * ext;
  fetch_objects_by_id :
    Collection -> pystr -> ext -> (exn + list Object) * ext;
  near_text : Collection -> pystr -> Z -> ext -> (exn + list Object) * ext;
  delete_by_id : Collection -> pystr -> ext -> (exn + bool) * ext;
  insert_many :
    Collection -> list DocRecord -> ext -> (exn + BatchReturn) * ext
}.

(** The attributes of a [Documents] object. *)
Record Documents : Type := mkDocuments {
  host : pystr;
  filepath : pystr;
  port : Z;
  grpc_port : Z;
  client : option Client;
  retry : Z;
  max_chunk_size : Z
}.

Record World : Type := mkWorld {
  self : Documents;
  env : ext;
  trace : list event              (* most recent event first *)
}.

Variable lib : Weaviate.

Definition Documents_init (path_exists : bool)
  (host filepath : pystr) (port grpc_port retry : Z) : exn + Documents :=
  if negb path_exists
  then inl (Exception (of_string "File path does not exist"))
  else inr (mkDocuments host filepath port grpc_port None retry
              MAX_CHUNK_SIZE).

(** *** World access *)

Definition get_self : M World Documents := fun w => (Ret (self w), w).

Definition set_client (c : option Client) : M World unit :=
  fun w =>
    let d := self w in
    (Ret tt,
     mkWorld (mkDocuments (host d) (filepath d) (port d) (grpc_port d) c
                (retry d) (max_chunk_size d))
             (env w) (trace w)).

Definition set_max_chunk_size (size : Z) : M World unit :=
  fun w =>
    let d := self w in
    (Ret tt,
     mkWorld (mkDocuments (host d) (filepath d) (port d) (grpc_port d)
                (client d) (retry d) size)
             (env w) (trace w)).

Definition record (ev : event) : M World unit :=
  fun w => (Ret tt, mkWorld (self w) (env w) (ev :: trace w)).

(** A call into the client library: it is recorded, acts on [ext], and
    returns or raises. *)
Definition call {A} (a : api) (f : ext -> (exn + A) * ext) : M World A :=
  fun w =>
    let '(r, e') := f (env w) in
    let w' := mkWorld (self w) e' (EvCall a :: trace w) in
    match r with
    | inl e => (Raise e, w')
    | inr v => (Ret v, w')
    end.

Definition now : M World timestamp :=
  fun w =>
    let '(t, e') := time_time lib (env w) in
    (Ret t, mkWorld (self w) e' (trace w)).

Definition sleep (secs : Z) : M World unit :=
  fun w => (Ret tt, mkWorld (self w) (time_sleep lib secs (env w)) (trace w)).

(** [self.client.<...>]: attribute access on [None] raises. *)
Definition the_client : M World Client :=
  fun w =>
    match client (self w) with
    | Some c => (Ret c, w)
    | None =>
        (Raise (AttributeError
                  (of_string "'NoneType' object has no attribute")), w)
    end.

(** *** [connect] *)

(** The [while x] loop of [connect]; [n] bounds the rounds of the model. *)
Fixpoint connect_rounds (n : nat) (x : Z) : M World bool :=
  fun w =>
    if x =? 0 then
      (Raise (WeaviateConnectionError
                (of_string "Unable to connect to Weaviate at "
                   ++ host (self w))), w)
    else
      match n with
      | O => (Diverge, w)
      | S n' =>
          let d := self w in
          match (record (EvTry m_connect) ;;;
                 call ApiConnect
                   (connect_to_local lib (host d) (port d) (grpc_port d))) w
          with
          | (Ret c, w1) => (set_client (Some c) ;;; ret true) w1
          | (Raise e, w1) =>
              if is_connection_error e
              then (sleep 1 ;;; connect_rounds n' (x - 1)) w1
              else (Raise e, w1)
          | (Diverge, w1) => (Diverge, w1)
          end
      end.

Definition connect (fuel : nat) : M World bool :=
  d <- get_self ;; connect_rounds fuel (retry d).

Definition close : M World unit :=
  fun w =>
    match client (self w) with
    | Some c =>
        let '(r, e') := client_close lib c (env w) in
        let w' := mkWorld (self w) e' (trace w) in
        match r with
        | inl e => (Raise e, w')
        | inr _ => set_client None w'
        end
    | None => (Ret tt, w)
    end.

(** [if not self.client: self.connect()] *)
Definition ensure_connected (fuel : nat) : M World unit :=
  d <- get_self ;;
  match client d with
  | None => connect fuel ;;; ret tt
  | Some _ => ret tt
  end.

(** *** The retry loop of the public operations

    [while x: try: <body>; break
     except WeaviateConnectionError: self.connect(); x -= 1; time.sleep(1)]
    followed by [if not x: raise WeaviateConnectionError(...)].
    The body works on the local variables [S] of its method. *)
Fixpoint retry_rounds {S : Type} (who : method) (reconnect : M World bool)
  (n : nat) (x : Z) (body : M (S * World) unit) : M (S * World) unit :=
  fun st =>
    if x =? 0 then
      (Raise (WeaviateConnectionError
                (of_string "Unable to connect to Weaviate")), st)
    else
      match n with
      | O => (Diverge, st)
      | S n' =>
          match (lift (record (EvTry who)) ;;; body) st with
          | (Ret _, st1) => (Ret tt, st1)
          | (Raise e, st1) =>
              if is_connection_error e
              then (lift reconnect ;;; lift (sleep 1) ;;;
                    retry_rounds who reconnect n' (x - 1) body) st1
              else (Raise e, st1)
          | (Diverge, st1) => (Diverge, st1)
          end
      end.

Definition retry_loop {S : Type} (who : method) (fuel : nat) (x : Z)
  (body : M (S * World) unit) : M (S * World) unit :=
  retry_rounds who (connect fuel) fuel x body.

(** *** Collections *)

Definition all_collections (fuel : nat) : M World (list pystr) :=
  with_locals ([] : list pystr)
    (lift (ensure_connected fuel) ;;;
     d <- lift get_self ;;
     let x := retry d in
     retry_loop m_all_collections fuel x
       (set_local [] ;;;
        cl <- lift the_client ;;
        collections <- lift (call ApiListAll (collections_list_all lib cl)) ;;
        for_each collections
          (fun i => c <- get_local ;; set_local (c ++ [i]))) ;;;
     get_local).

Definition create (fuel : nat) (collection : pystr) : M World bool :=
  d <- get_self ;;
  let x := retry d in
  ensure_connected fuel ;;;
  collections <- all_collections fuel ;;
  if existsb (PyStr.eqb (str_title lib collection)) collections
  then ret false
  else
    with_locals tt
      (retry_loop m_create fuel x
         (cl <- lift the_client ;;
          lift (call ApiCreate (collections_create lib cl collection)))) ;;;
    ret true.

Definition delete (fuel : nat) (collection : pystr) : M World bool :=
  d <- get_self ;;
  let x := retry d in
  ensure_connected fuel ;;;
  collections <- all_collections fuel ;;
  if negb (existsb (PyStr.eqb (str_title lib collection)) collections)
  then ret false
  else
    with_locals tt
      (retry_loop m_delete fuel x
         (cl <- lift the_client ;;
          lift (call ApiDelete (collections_delete lib cl collection)))) ;;;
    ret true.

(** *** Reading documents *)

Definition listing : Type := dict (option pystr) (dict pystr Summary).

(** One round of [for o in collection.iterator()]. *)
Definition add_listing (documents : listing) (o : Object) : listing :=
  let p := o_properties o in
  let uuid := o_uuid o in
  let filename := p_file p in
  let documents :=
    match dict_get oeqb documents filename with
    | None => dict_set oeqb documents filename []
    | Some _ => documents
    end in
  let inner :=
    match dict_get oeqb documents filename with
    | Some i => i
    | None => []
    end in
  dict_set oeqb documents filename
    (dict_set PyStr.eqb inner uuid
       (mkSummary (p_title p) (p_doc_type p) (p_creation_time p))).

(** [collection.iterator()]: the objects it yields before it ends, and
    the exception that ended it, if any. *)
Definition iterate (c : Collection) : M World (list Object * option exn) :=
  fun w =>
    let '(r, e') := iterator lib c (env w) in
    (Ret r, mkWorld (self w) e' (EvCall ApiIterator :: trace w)).

Definition list_documents (fuel : nat) (collection : option pystr)
  : M World listing :=
  let arg := match collection with None => ArgNone | Some n => ArgName n end in
  with_locals (arg, ([] : listing))
    (d <- lift get_self ;;
     let x := retry d in
     lift (ensure_connected fuel) ;;;
     retry_loop m_list_documents fuel x
       (cl <- lift the_client ;;
        '(collection, documents) <- get_local ;;
        c <- lift (call ApiGet (collections_get lib cl collection)) ;;
        set_local (ArgCollection c, documents) ;;;
        '(objs, err) <- lift (iterate c) ;;
        for_each objs
          (fun o =>
             '(collection, documents) <- get_local ;;
             set_local (collection, add_listing documents o)) ;;;
        match err with
        | Some e => raise e
        | None => ret tt
        end) ;;;
     '(_, documents) <- get_local ;;
     ret documents).

Definition document_of (uuid : pystr) (p : Properties) : Document :=
  mkDocument uuid (p_file p) (p_title p) (p_chunk p) (p_doc_type p)
    (p_content p) (p_creation_time p).

Definition get_document (fuel : nat) (collection uuid : pystr)
  : M World (option Document) :=
  with_locals (None : option Document)
    (d <- lift get_self ;;
     let x := retry d in
     lift (ensure_connected fuel) ;;;
     retry_loop m_get_document fuel x
       (cl <- lift the_client ;;
        c <- lift (call ApiGet (collections_get lib cl (ArgName collection))) ;;
        udocs <- lift (call ApiFetchObjects (fetch_objects_by_id lib c uuid)) ;;
        match udocs with
        | [] => raise (IndexError (of_string "list index out of range"))
        | o :: _ => set_local (Some (document_of uuid (o_properties o)))
        end) ;;;
     get_local).

Definition get_documents (fuel : nat) (collection : pystr)
  (uuid query filename : option pystr) (num_results : Z)
  : M World (list (option Document)) :=
  with_locals ([] : list (option Document))
    (d <- lift get_self ;;
     let x := retry d in
     lift (ensure_connected fuel) ;;;
     (if otruthy uuid then
        doc <- lift (get_document fuel collection
                       (match uuid with Some u => u | None => [] end)) ;;
        set_local [doc]
      else ret tt) ;;;
     (if otruthy query then
        retry_loop m_get_documents fuel x
          (cl <- lift the_client ;;
           qdocs <- lift (call ApiGet
                            (collections_get lib cl (ArgName collection))) ;;
           r <- lift (call ApiNearText
                        (near_text lib qdocs
                           (match query with Some q => q | None => [] end)
                           num_results)) ;;
           for_each r
             (fun i =>
                dd <- get_local ;;
                set_local
                  (dd ++ [Some (document_of (o_uuid i) (o_properties i))])))
      else ret tt) ;;;
     (if otruthy filename then
        r <- lift (list_documents fuel (Some collection)) ;;
        for_each r
          (fun fn_docs =>
             if oeqb (fst fn_docs) filename then
               for_each (dict_keys (snd fn_docs))
                 (fun uuid =>
                    doc <- lift (get_document fuel collection uuid) ;;
                    dd <- get_local ;;
                    set_local (dd ++ [doc]))
             else ret tt)
      else ret tt) ;;;
     get_local).

(** *** Writing documents *)

Definition delete_document (fuel : nat) (collection : pystr)
  (uuid filename : option pystr) : M World (option bool) :=
  with_locals (None : option bool)
    (d <- lift get_self ;;
     let x := retry d in
     lift (ensure_connected fuel) ;;;
     retry_loop m_delete_document fuel x
       (cl <- lift the_client ;;
        c <- lift (call ApiGet (collections_get lib cl (ArgName collection))) ;;
        if otruthy uuid then
          r <- lift (call ApiDeleteById
                       (delete_by_id lib c
                          (match uuid with Some u => u | None => [] end))) ;;
          set_local (Some r)
        else if otruthy filename then
          documents <- lift (list_documents fuel (Some collection)) ;;
          for_each documents
            (fun f_docs =>
               if oeqb (fst f_docs) filename then
                 for_each (dict_keys (snd f_docs))
                   (fun u =>
                      r <- lift (call ApiDeleteById (delete_by_id lib c u)) ;;
                      set_local (Some r))
               else ret tt)
        else raise (ValueError (of_string "Missing document ID or filename"))) ;;;
     get_local).

(** The [for chunk in chunks] loop of [add_document]: [ci] is the
    counter, [dd] the records built so far. *)
Fixpoint section_records (title doc_type filename content : pystr)
  (total_chunks : nat) (chunks : list pystr) (ci : nat)
  (dd : list DocRecord) : M World (list DocRecord) :=
  match chunks with
  | [] => ret dd
  | chunk :: rest =>
      let ci := (ci + 1)%nat in
      let suffix :=
        if (1 <? total_chunks)%nat
        then of_string " - Section " ++ str_of_nat ci
               ++ of_string " of " ++ str_of_nat total_chunks
        else [] in
      t <- now ;;
      section_records title doc_type filename content total_chunks rest ci
        (dd ++ [mkDocRecord (title ++ suffix) (Some chunk) doc_type filename
                  content t])
  end.

(** [add_document] up to the retry loop: the validation of the arguments
    and the list [dd] of records to insert. *)
Definition add_document_records (title doc_type filename : pystr)
  (chunk content : option pystr) : M World (list DocRecord) :=
  if negb (otruthy chunk) && negb (otruthy content)
  then raise (ValueError (of_string "Missing document content"))
  else
    let content := if negb (otruthy content) then chunk else content in
    if negb (truthy title && truthy doc_type && truthy filename
             && otruthy content)
    then raise (ValueError (of_string "Missing document properties"))
    else
      let text := match content with Some t => t | None => [] end in
      d <- get_self ;;
      if negb (otruthy chunk) && (max_chunk_size d >? 0)
      then
        let chunks := break_up_content text (max_chunk_size d) in
        section_records title doc_type filename text (List.length chunks)
          chunks 0 []
      else
        t <- now ;;
        ret [mkDocRecord title chunk doc_type filename text t].

Definition add_document (fuel : nat) (collection title doc_type filename : pystr)
  (chunk content : option pystr) : M World (option BatchReturn) :=
  dd <- add_document_records title doc_type filename chunk content ;;
  with_locals (None : option BatchReturn)
    (d <- lift get_self ;;
     let x := retry d in
     lift (ensure_connected fuel) ;;;
     retry_loop m_add_document fuel x
       (cl <- lift the_client ;;
        c <- lift (call ApiGet (collections_get lib cl (ArgName collection))) ;;
        r <- lift (call ApiInsertMany (insert_many lib c dd)) ;;
        set_local (Some r)) ;;;
     get_local).

Definition update_document (fuel : nat)
  (collection uuid title doc_type filename : pystr)
  (chunk content : option pystr) : M World (option BatchReturn) :=
  with_locals (None : option BatchReturn)
    (d <- lift get_self ;;
     let x := retry d in
     lift (ensure_connected fuel) ;;;
     retry_loop m_update_document fuel x
       (lift (delete_document fuel collection (Some uuid) None) ;;;
        r <- lift (add_document fuel collection title doc_type filename
                     chunk content) ;;
        set_local r) ;;;
     get_local).

(** *** The retry-wrapped public operations, as one type *)

Inductive operation : Type :=
| OpAllCollections
| OpCreate (collection : pystr)
| OpDelete (collection : pystr)
| OpListDocuments (collection : option pystr)
| OpGetDocument (collection uuid : pystr)
| OpGetDocuments (collection : pystr) (uuid query filename : option pystr)
    (num_results : Z)
| OpDeleteDocument (collection : pystr) (uuid filename : option pystr)
| OpAddDocument (collection title doc_type filename : pystr)
    (chunk content : option pystr)
| OpUpdateDocument (collection uuid title doc_type filename : pystr)
    (chunk content : option pystr).

Inductive value : Type :=
| VNames (l : list pystr)
| VBool (b : bool)
| VListing (l : listing)
| VDocument (d : option Document)
| VDocuments (l : list (option Document))
| VDeleted (r : option bool)
| VInserted (r : option BatchReturn).

Definition run (fuel : nat) (o : operation) : M World value :=
  match o with
  | OpAllCollections => v <- all_collections fuel ;; ret (VNames v)
  | OpCreate c => v <- create fuel c ;; ret (VBool v)
  | OpDelete c => v <- delete fuel c ;; ret (VBool v)
  | OpListDocuments c => v <- list_documents fuel c ;; ret (VListing v)
  | OpGetDocument c u => v <- get_document fuel c u ;; ret (VDocument v)
  | OpGetDocuments c u q f n =>
      v <- get_documents fuel c u q f n ;; ret (VDocuments v)
  | OpDeleteDocument c u f =>
      v <- delete_document fuel c u f ;; ret (VDeleted v)
  | OpAddDocument c t dt f ch co =>
      v <- add_document fuel c t dt f ch co ;; ret (VInserted v)
  | OpUpdateDocument c u t dt f ch co =>
      v <- update_document fuel c u t dt f ch co ;; ret (VInserted v)
  end.

Definition method_of (o : operation) : method :=
  match o with
  | OpAllCollections => m_all_collections
  | OpCreate _ => m_create
  | OpDelete _ => m_delete
  | OpListDocuments _ => m_list_documents
  | OpGetDocument _ _ => m_get_document
  | OpGetDocuments _ _ _ _ _ => m_get_documents
  | OpDeleteDocument _ _ _ => m_delete_document
  | OpAddDocument _ _ _ _ _ _ => m_add_document
  | OpUpdateDocument _ _ _ _ _ _ _ => m_update_document
  end.

(** *** Vocabulary for the retry claims *)

(** The arguments with which an operation gets past the checks it makes
    before its retry loop: [add_document] validates its arguments first,
    [get_documents] does nothing without an id, a query or a file
    name. *)
Definition passes_checks (o : operation) : bool :=
  match o with
  | OpGetDocuments _ u q f _ => otruthy u || otruthy q || otruthy f
  | OpAddDocument _ t dt f ch co =>
      (otruthy ch || otruthy co) && truthy t && truthy dt && truthy f
  | _ => true
  end.

(** The arguments with which the wrapped remote call is reached inside
    the loop as well: [delete_document] needs an id or a file name,
    [update_document] deletes by id first. *)
Definition reaches_remote (o : operation) : bool :=
  match o with
  | OpDeleteDocument _ u f => otruthy u || otruthy f
  | OpUpdateDocument _ u _ _ _ _ _ => truthy u
  | _ => passes_checks o
  end.

(** [list_documents] hands [collections.get] the collection object on
    every attempt after the first, so the operations that list documents
    depend on what the library does with it. *)
Definition lists_documents (o : operation) : bool :=
  match o with
  | OpListDocuments _ => true
  | OpGetDocuments _ u q f _ =>
      negb (otruthy u) && negb (otruthy q) && otruthy f
  | OpDeleteDocument _ u f => negb (otruthy u) && otruthy f
  | _ => false
  end.

(** The values an operation may pass to [collections.get] while every
    data call fails. *)
Definition get_args (o : operation) (a : collarg) : Prop :=
  match a with
  | ArgName _ => True
  | ArgNone => o = OpListDocuments None
  | ArgCollection _ => lists_documents o = true
  end.

(** A data call that fails with a connectivity error whenever the
    environment satisfies [I], and keeps [I]. *)
Definition refuses {A : Type} (I : ext -> Prop)
  (f : ext -> (exn + A) * ext) : Prop :=
  forall e, I e ->
    exists msg e', f e = (inl (WeaviateConnectionError msg), e') /\ I e'.

(** A call that answers or fails with a connectivity error, and keeps
    [I]. *)
Definition answers_or_refuses {A : Type} (I : ext -> Prop)
  (f : ext -> (exn + A) * ext) : Prop :=
  forall e, I e ->
    (exists v e', f e = (inr v, e') /\ I e')
    \/ (exists msg e', f e = (inl (WeaviateConnectionError msg), e') /\ I e').

(** The remote store stays unreachable for data calls while [I] holds:
    every wrapped remote call fails with a connectivity error.
    Reconnecting may succeed or be refused; [collections.get], asked
    with one of the arguments [P], returns its collection object or is
    refused. *)
Record unreachable (I : ext -> Prop) (P : collarg -> Prop) : Prop :=
  mkUnreachable {
    un_time : forall e, I e -> I (snd (time_time lib e));
    un_sleep : forall secs e, I e -> I (time_sleep lib secs e);
    un_connect :
      forall h p g, answers_or_refuses I (connect_to_local lib h p g);
    un_get :
      forall cl a, P a -> answers_or_refuses I (collections_get lib cl a);
    un_list_all : forall cl, refuses I (collections_list_all lib cl);
    un_create : forall cl n, refuses I (collections_create lib cl n);
    un_delete : forall cl n, refuses I (collections_delete lib cl n);
    un_iterator :
      forall c e, I e ->
        exists objs msg e',
          iterator lib c e = ((objs, Some (WeaviateConnectionError msg)), e')
          /\ I e';
    un_fetch : forall c u, refuses I (fetch_objects_by_id lib c u);
    un_near_text : forall c q n, refuses I (near_text lib c q n);
    un_delete_by_id : forall c u, refuses I (delete_by_id lib c u);
    un_insert_many : forall c dd, refuses I (insert_many lib c dd)
  }.

(** No pass through the [try] block of a method outside [L] between two
    worlds. *)
Definition same_tries (L : list method) (w w' : World) : Prop :=
  forall m, ~ In m L -> tries m (trace w') = tries m (trace w).

(** From [w] to [w']: [I] holds again, the budget is the same, a client
    that was set is still set, and only the methods [L] entered their
    [try] blocks. *)
Definition advance (I : ext -> Prop) (L : list method) (w w' : World)
  : Prop :=
  I (env w') /\ retry (self w') = retry (self w)
  /\ (client (self w) <> None -> client (self w') <> None)
  /\ same_tries L w w'.

(** [m] gives up with the connectivity error from every world where [I]
    holds and the budget is [R]; on the way only the methods [who :: L]
    enter their [try] blocks, [who] at most [R] times. *)
Definition gives_up (I : ext -> Prop) (R : Z) (who : method)
  (L : list method) {A : Type} (m : M World A) : Prop :=
  forall w, I (env w) -> retry (self w) = R ->
    exists msg w',
      m w = (Raise (WeaviateConnectionError msg), w')
      /\ advance I (who :: L) w w'
      /\ (tries who (trace w') <= tries who (trace w) + Z.to_nat R)%nat.
End Client.

Arguments ArgNone {Collection}.
Arguments ArgName {Collection} name.
Arguments get_self {Client ext}.
Arguments set_client {Client ext} c.
Arguments set_max_chunk_size {Client ext} size.
Arguments record {Client ext} ev.
Arguments the_client {Client ext}.

(** ** A small in-memory store behind the library interface

    Used to run the operations on concrete inputs.  The store has a name
    list and a list of objects per collection; it can be unreachable for
    data calls, and its connection endpoint can refuse connections. *)

Module Mem.

Record store : Type := mkStore {
  reachable : bool;               (* data calls answer *)
  connectable : bool;             (* [connect_to_local] answers *)
  names : list pystr;
  objects : list (pystr * Object Z);
  clock : Z;
  next_id : nat
}.

Definition refused : exn :=
  WeaviateConnectionError (of_string "connection refused").

Definition with_objects (s : store) (objs : list (pystr * Object Z))
  (next : nat) : store :=
  mkStore (reachable s) (connectable s) (names s) objs (clock s) next.

Definition with_names (s : store) (ns : list pystr) : store :=
  mkStore (reachable s) (connectable s) ns (objects s) (clock s) (next_id s).

Definition with_clock (s : store) (t : Z) : store :=
  mkStore (reachable s) (connectable s) (names s) (objects s) t (next_id s).

Definition guarded {A} (s : store) (r : (exn + A) * store)
  : (exn + A) * store :=
  if reachable s then r else (inl refused, s).

Definition in_collection (c : pystr) (s : store) : list (Object Z) :=
  map snd (filter (fun co => PyStr.eqb (fst co) c) (objects s)).

Definition object_of (uuid : pystr) (r : DocRecord Z) : Object Z :=
  mkObject uuid
    (mkProperties (Some (r_file r)) (Some (r_title r)) (r_chunk r)
       (Some (r_doc_type r)) (Some (r_content r))
       (Some (r_creation_time r))).

Fixpoint store_all (c : pystr) (dd : list (DocRecord Z)) (next : nat)
  (objs : list (pystr * Object Z)) : list (pystr * Object Z) * nat :=
  match dd with
  | [] => (objs, next)
  | r :: rest =>
      store_all c rest (S next)
        (objs ++ [(c, object_of (of_string "id-" ++ str_of_nat next) r)])
  end.

(** [str.title()] on ASCII letters; other characters separate words. *)
Fixpoint title_from (prev_cased : bool) (s : pystr) : pystr :=
  match s with
  | [] => []
  | c :: rest =>
      if ((97 <=? c) && (c <=? 122))%N
      then (if prev_cased then c else (c - 32)%N) :: title_from true rest
      else if ((65 <=? c) && (c <=? 90))%N
      then (if prev_cased then (c + 32)%N else c) :: title_from true rest
      else c :: title_from false rest
  end.

Definition lib : Weaviate Z unit pystr nat store :=
  mkWeaviate
    (fun s => (clock s, with_clock s (clock s + 1)))
    (fun secs s => with_clock s (clock s + secs))
    (title_from false)
    (fun _ _ _ s =>
       if connectable s then (inr tt, s) else (inl refused, s))
    (fun _ s => (inr tt, s))
    (fun _ s => guarded s (inr (names s), s))
    (fun _ n s => guarded s (inr tt, with_names s (names s ++ [n])))
    (fun _ n s =>
       guarded s
         (inr tt,
          with_names s (filter (fun m => negb (PyStr.eqb m n)) (names s))))
    (fun _ arg s =>
       match arg with
       | ArgName n => (inr n, s)
       | _ => (inl (LibraryError (of_string "WeaviateInvalidInputError")), s)
       end)
    (fun c s =>
       if reachable s then ((in_collection c s, None), s)
       else (([], Some refused), s))
    (fun c u s =>
       guarded s
         (inr (filter (fun o => PyStr.eqb (o_uuid o) u) (in_collection c s)),
          s))
    (fun c _ limit s =>
       guarded s (inr (firstn (Z.to_nat limit) (in_collection c s)), s))
    (fun c u s =>
       guarded s
         (if existsb (fun o => PyStr.eqb (o_uuid o) u) (in_collection c s)
          then (inr true,
                with_objects s
                  (filter
                     (fun co => negb (PyStr.eqb (fst co) c
                                      && PyStr.eqb (o_uuid (snd co)) u))
                     (objects s))
                  (next_id s))
          else (inr false, s)))
    (fun c dd s =>
       guarded s
         (let '(objs, next) := store_all c dd (next_id s) (objects s) in
          (inr (List.length dd), with_objects s objs next))).

Definition documents (cl : option unit) (budget : Z) (max_size : Z)
  : Documents unit :=
  mkDocuments (of_string "localhost") (of_string "/tmp") 8080 50051 cl
    budget max_size.

Definition stored : list (pystr * Object Z) :=
  [(of_string "Test",
    mkObject (of_string "id-0")
      (mkProperties (Some (of_string "a.txt")) (Some (of_string "A"))
         (Some (of_string "alpha")) (Some (of_string "TXT"))
         (Some (of_string "alpha")) (Some 5)))].

(** A reachable store holding one object, and an unreachable one. *)
Definition up : store := mkStore true true [of_string "Test"] stored 100 1.
Definition down : store := mkStore false true [of_string "Test"] stored 100 1.

Definition world (cl : option unit) (budget max_size : Z) (s : store)
  : World unit store :=
  mkWorld (documents cl budget max_size) s [].

End Mem.

(** ** Concrete inputs *)

Module Ex.
(** The five characters a, b, LF, c, d: two lines of length 2. *)
Definition two_lines : pystr := of_string "ab" ++ [LF] ++ of_string "cd".
(** One line of length 3. *)
Definition abc : pystr := of_string "abc".
Definition hello : pystr := of_string "hello".
Definition title : pystr := of_string "Notes".
Definition txt : pystr := of_string "TXT".
Definition file : pystr := of_string "notes.txt".
Definition coll : pystr := of_string "Test".
Definition nope : pystr := of_string "nope".
Definition nope_txt : pystr := of_string "nope.txt".

(** [add_document("Test", "Notes", "TXT", "notes.txt", content="hello")] *)
Definition add_hello : operation :=
  OpAddDocument coll title txt file None (Some hello).
(** [add_document("Test", "Notes", "TXT", "notes.txt")]: no content. *)
Definition add_nothing : operation :=
  OpAddDocument coll title txt file None None.

(** The store is unreachable for data calls. *)
Definition is_down (s : Mem.store) : Prop := Mem.reachable s = false.

(** A fresh client with budget 3 in front of the reachable store, and
    the same client once connected. *)
Definition fresh : World unit Mem.store :=
  Mem.world None 3 MAX_CHUNK_SIZE Mem.up.
Definition connected : World unit Mem.store :=
  mkWorld (Mem.documents (Some tt) 3 MAX_CHUNK_SIZE) Mem.up
    [EvCall ApiConnect; EvTry m_connect].
End Ex.

(** ** Vocabulary and inputs for the further properties *)

Module Conn.

(** The connection endpoint refuses every attempt while [I] holds. *)
Definition endpoint_refuses (timestamp Client Collection BatchReturn ext : Type)
  (lib : Weaviate timestamp Client Collection BatchReturn ext)
  (I : ext -> Prop) : Prop :=
  (forall h p g e, I e ->
     exists msg e',
       connect_to_local lib h p g e = (inl (WeaviateConnectionError msg), e')
       /\ I e')
  /\ (forall secs e, I e -> I (time_sleep lib secs e)).

(** Nobody listens: neither connections nor data calls are answered. *)
Definition offline : Mem.store :=
  Mem.mkStore false false [of_string "Test"] Mem.stored 100 1.

Definition is_offline (s : Mem.store) : Prop := Mem.connectable s = false.

End Conn.

Module Greedy.

(** [P] holds between every element and its successor. *)
Fixpoint chained {A : Type} (P : A -> A -> Prop) (l : list A) : Prop :=
  match l with
  | a :: (b :: _) as tl => P a b /\ chained P tl
  | _ => True
  end.

(** The chunk [c] was closed because the first line of the next chunk
    [d] did not fit any more. *)
Definition closed_because_full (max_size : Z) (c d : pystr) : Prop :=
  exists l rest,
    d = l ++ LF :: rest /\ no_break l /\ len c + len l > max_size.

(** The loop state: the finished chunks are chained, and the running
    buffer starts with the line that closed the last of them. *)
Definition greedy_inv (max_size : Z) (st : list pystr * pystr) : Prop :=
  chained (closed_because_full max_size) (fst st)
  /\ forall init c, fst st = init ++ [c] ->
       closed_because_full max_size c (snd st).

(** Three lines ending in CR LF, LF and nothing. *)
Definition mixed : pystr :=
  of_string "ab" ++ [CR; LF] ++ of_string "cd" ++ [LF] ++ of_string "ef".

End Greedy.

Section ListingVocabulary.

Variables timestamp Client Collection BatchReturn ext : Type.
Variable lib : Weaviate timestamp Client Collection BatchReturn ext.

(** The id [u] is listed under the file name [f]. *)
Definition listed (L : listing timestamp) (f : option pystr) (u : pystr)
  : Prop :=
  exists inner, dict_get oeqb L f = Some inner /\ In u (dict_keys inner).

(** The ids that [for f in documents: if f == filename: for u in
    documents[f]] visits, in order. *)
Definition uuids_under (L : listing timestamp) (f : option pystr)
  : list pystr :=
  List.concat
    (map (fun kv => dict_keys (snd kv))
       (filter (fun kv => oeqb (fst kv) f) L)).

(** The last answer and the store after [delete_by_id] for each id in
    turn, when every one of these calls answers; [None] when one of them
    raises. *)
Fixpoint delete_each (c : Collection) (us : list pystr) (r : option bool)
  (e : ext) : option (option bool * ext) :=
  match us with
  | [] => Some (r, e)
  | u :: rest =>
      match delete_by_id lib c u e with
      | (inr b, e') => delete_each c rest (Some b) e'
      | (inl _, _) => None
      end
  end.

(** [n] more calls of [a] at the head of a trace. *)
Definition more_calls (a : api) (n : nat) (tr : list event) : list event :=
  repeat (EvCall a) n ++ tr.

End ListingVocabulary.

(** A store with a document in two sections, "id-0" and "id-2" of
    "a.txt", and one section of another file between them. *)
Module Sections.

Definition section (id file chunk : pystr) : pystr * Object Z :=
  (Ex.coll,
   mkObject id
     (mkProperties (Some file) (Some (of_string "A")) (Some chunk)
        (Some Ex.txt) (Some chunk) (Some 5))).

Definition a_txt : pystr := of_string "a.txt".
Definition b_txt : pystr := of_string "b.txt".
Definition id0 : pystr := of_string "id-0".
Definition id1 : pystr := of_string "id-1".
Definition id2 : pystr := of_string "id-2".

Definition stored : list (pystr * Object Z) :=
  [section id0 a_txt (of_string "alpha");
   section id1 b_txt (of_string "beta");
   section id2 a_txt (of_string "gamma")].

Definition store : Mem.store := Mem.mkStore true true [Ex.coll] stored 100 3.

(** The store once both sections of "a.txt" are deleted. *)
Definition store_after : Mem.store :=
  Mem.mkStore true true [Ex.coll] [section id1 b_txt (of_string "beta")] 100 3.

Definition connected : World unit Mem.store :=
  mkWorld (Mem.documents (Some tt) 3 MAX_CHUNK_SIZE) store [].

(** The stored object with the id [u]. *)
Definition first (u : pystr) : Object Z :=
  hd (mkObject u (mkProperties None None None None None None))
    (filter (fun o => PyStr.eqb (o_uuid o) u) (map snd stored)).

End Sections.

(** A store that is reached again once the client reconnects: the
    in-memory library, except that [connect_to_local] makes the store
    reachable. *)
Module Flaky.

Definition reconnect (s : Mem.store) : Mem.store :=
  Mem.mkStore true (Mem.connectable s) (Mem.names s) (Mem.objects s)
    (Mem.clock s) (Mem.next_id s).

Definition lib : Weaviate Z unit pystr nat Mem.store :=
  mkWeaviate
    (time_time Mem.lib) (time_sleep Mem.lib) (str_title Mem.lib)
    (fun _ _ _ s => (inr tt, reconnect s))
    (client_close Mem.lib) (collections_list_all Mem.lib)
    (collections_create Mem.lib) (collections_delete Mem.lib)
    (collections_get Mem.lib) (iterator Mem.lib)
    (fetch_objects_by_id Mem.lib) (near_text Mem.lib)
    (delete_by_id Mem.lib) (insert_many Mem.lib).

(** A client that holds a connection to a store that no longer answers. *)
Definition lost : World unit Mem.store :=
  mkWorld (Mem.documents (Some tt) 3 MAX_CHUNK_SIZE) Mem.down [].

End Flaky.

(** A store that rejects the insertion into a collection it does not
    know with an error of its own, not a connectivity error. *)
Module Strict.

Definition rejected : exn :=
  LibraryError (of_string "UnexpectedStatusCodeError").

Definition lib : Weaviate Z unit pystr nat Mem.store :=
  mkWeaviate
    (time_time Mem.lib) (time_sleep Mem.lib) (str_title Mem.lib)
    (connect_to_local Mem.lib)
    (client_close Mem.lib) (collections_list_all Mem.lib)
    (collections_create Mem.lib) (collections_delete Mem.lib)
    (collections_get Mem.lib) (iterator Mem.lib)
    (fetch_objects_by_id Mem.lib) (near_text Mem.lib)
    (delete_by_id Mem.lib)
    (fun c dd s =>
       if existsb (PyStr.eqb c) (Mem.names s)
       then insert_many Mem.lib c dd s
       else (inl rejected, s)).

End Strict.

(** ** Vocabulary for counting attempts

    An attempt is a pass through the [try] block of a retry loop; the
    trace records each one with the method it belongs to, and every
    call into the client library with its name. *)

Module Budget.

(** [collections.get] asked with a name, as every operation does that
    does not list documents. *)
Definition by_name {Collection : Type} (a : collarg Collection) : Prop :=
  match a with
  | ArgName _ => True
  | _ => False
  end.

Definition event_eqb (a b : event) : bool :=
  match a with
  | EvCall x => is_call x b
  | EvTry m => is_try m b
  end.

(** Number of occurrences of [ev] in a trace: [tries m] for [EvTry m],
    [calls a] for [EvCall a]. *)
Definition count (ev : event) (tr : list event) : nat :=
  List.length (filter (event_eqb ev) tr).

Definition one (e ev : event) : nat := if event_eqb ev e then 1 else 0.

Definition nothing (ev : event) : nat := 0.

(** One round of [connect]: a pass through its [try] block with one
    [connect_to_local] call. *)
Definition round (ev : event) : nat :=
  one (EvTry m_connect) ev + one (EvCall ApiConnect) ev.

(** A data call on the collection: [collections.get], then the call. *)
Definition get_and (a : api) (ev : event) : nat :=
  one (EvCall ApiGet) ev + one (EvCall a) ev.

(** Events of a method that connects if needed and then runs its loop
    with a budget of [R]: [connect] makes up to [R] rounds, before the
    loop and after each pass; a pass enters the [try] block of [who] once
    and leaves the events [B] of its body. *)
Definition guarded (who : method) (B : event -> nat) (R : nat) (ev : event)
  : nat :=
  R * round ev + R * (one (EvTry who) ev + B ev + R * round ev).

(** Connection attempts while [o] runs. *)
Definition reconnects (o : operation) (R : nat) : nat :=
  match o with
  | OpCreate _ | OpDelete _ => R + (R + R * R)
  | OpGetDocuments _ u _ _ _ =>
      if otruthy u then R + (R + R * R) else R + R * R
  | OpUpdateDocument _ _ _ _ _ _ _ => R + R * ((R + R * R) + R)
  | _ => R + R * R
  end.

(** How often the [try] block of [m] is entered at most while [o] runs
    with a budget of [R] against a store that refuses every data call.
    The remote call of [o] is wrapped by one loop, entered up to [R]
    times: the loop of [o] itself, of [all_collections] for [create] and
    [delete], of [get_document] for [get_documents] with an id.
    [update_document] runs [delete_document] inside its own loop, and
    [delete_document] spends its own budget each time. *)
Definition attempts (o : operation) (R : nat) (m : method) : nat :=
  match m with
  | m_connect => reconnects o R
  | m_all_collections =>
      match o with
      | OpAllCollections | OpCreate _ | OpDelete _ => R
      | _ => 0
      end
  | m_get_document =>
      match o with
      | OpGetDocument _ _ => R
      | OpGetDocuments _ u _ _ _ => if otruthy u then R else 0
      | _ => 0
      end
  | m_get_documents =>
      match o with
      | OpGetDocuments _ u _ _ _ => if otruthy u then 0 else R
      | _ => 0
      end
  | m_delete_document =>
      match o with
      | OpDeleteDocument _ _ _ => R
      | OpUpdateDocument _ _ _ _ _ _ _ => R * R
      | _ => 0
      end
  | m_add_document =>
      match o with
      | OpAddDocument _ _ _ _ _ _ => R
      | _ => 0
      end
  | m_update_document =>
      match o with
      | OpUpdateDocument _ _ _ _ _ _ _ => R
      | _ => 0
      end
  | m_create | m_delete | m_list_documents => 0
  end.

(** How often the library call [a] is made at most in the same run: the
    remote call of the operation once per pass through the loop that
    wraps it, and [collections.get] before it where the call is made on
    a collection. *)
Definition remote_calls (o : operation) (R : nat) (a : api) : nat :=
  match a with
  | ApiConnect => reconnects o R
  | ApiListAll =>
      match o with
      | OpAllCollections | OpCreate _ | OpDelete _ => R
      | _ => 0
      end
  | ApiGet =>
      match o with
      | OpGetDocument _ _ | OpGetDocuments _ _ _ _ _
      | OpDeleteDocument _ _ _ | OpAddDocument _ _ _ _ _ _ => R
      | OpUpdateDocument _ _ _ _ _ _ _ => R * R
      | _ => 0
      end
  | ApiFetchObjects =>
      match o with
      | OpGetDocument _ _ => R
      | OpGetDocuments _ u _ _ _ => if otruthy u then R else 0
      | _ => 0
      end
  | ApiNearText =>
      match o with
      | OpGetDocuments _ u _ _ _ => if otruthy u then 0 else R
      | _ => 0
      end
  | ApiDeleteById =>
      match o with
      | OpDeleteDocument _ _ _ => R
      | OpUpdateDocument _ _ _ _ _ _ _ => R * R
      | _ => 0
      end
  | ApiInsertMany =>
      match o with
      | OpAddDocument _ _ _ _ _ _ => R
      | _ => 0
      end
  | ApiCreate | ApiDelete | ApiIterator => 0
  end.

Definition events (o : operation) (R : nat) (ev : event) : nat :=
  match ev with
  | EvTry m => attempts o R m
  | EvCall a => remote_calls o R a
  end.

Section Moves.

Variables Client ext : Type.

(** Between [w] and [w'] each event [ev] was recorded at most [B ev]
    times. *)
Definition within (B : event -> nat) (w w' : World Client ext) : Prop :=
  forall ev, (count ev (trace w') <= count ev (trace w) + B ev)%nat.

(** From [w] to [w']: [I] holds again, the budget is the same, a client
    that was set is still set, and the events are within [B]. *)
Definition moves (I : ext -> Prop) (B : event -> nat)
  (w w' : World Client ext) : Prop :=
  I (env w') /\ retry (self w') = retry (self w)
  /\ (client (self w) <> None -> client (self w') <> None)
  /\ within B w w'.

(** [m] gives up with the connectivity error from every world where [I]
    holds and the budget is [R], within the events [B]. *)
Definition surrenders (I : ext -> Prop) (R : Z) (B : event -> nat)
  {A : Type} (m : M (World Client ext) A) : Prop :=
  forall w, I (env w) -> retry (self w) = R ->
    exists msg w',
      m w = (Raise (WeaviateConnectionError msg), w') /\ moves I B w w'.

End Moves.

(** [update_document("Test", "id-0", "Notes", "TXT", "notes.txt",
    content="hello")] *)
Definition update_hello : operation :=
  OpUpdateDocument Ex.coll (of_string "id-0") Ex.title Ex.txt Ex.file None
    (Some Ex.hello).

(** A connected client with a budget of 3 whose store has stopped
    answering. *)
Definition cut_off : World unit Mem.store :=
  Mem.world (Some tt) 3 MAX_CHUNK_SIZE Mem.down.

End Budget.

(** A client whose [close] fails: the connection is already gone. *)
Module Stuck.

Definition closed : exn := LibraryError (of_string "WeaviateClosedClientError").

Definition lib : Weaviate Z unit pystr nat Mem.store :=
  mkWeaviate
    (time_time Mem.lib) (time_sleep Mem.lib) (str_title Mem.lib)
    (connect_to_local Mem.lib)
    (fun _ s => (inl closed, s)) (collections_list_all Mem.lib)
    (collections_create Mem.lib) (collections_delete Mem.lib)
    (collections_get Mem.lib) (iterator Mem.lib)
    (fetch_objects_by_id Mem.lib) (near_text Mem.lib)
    (delete_by_id Mem.lib) (insert_many Mem.lib).

End Stuck.

(** ** Ingestion: [add_file], [add_url] and the converters

    These methods read a file or fetch a URL, turn it into text and hand
    the text to [add_document].  The file system, the PDF reader, pandoc,
    the HTML parser and the HTTP session are the platform; Python's
    built-in exceptions that [exn] does not name are carried as
    [LibraryError] with their class name. *)

Module Text.

(** [s.startswith(prefix)] *)
Fixpoint startswith (s prefix : pystr) : bool :=
  match prefix, s with
  | [], _ => true
  | p :: prefix', c :: s' => N.eqb p c && startswith s' prefix'
  | _ :: _, [] => false
  end.

(** [s.endswith(suffix)] *)
Definition endswith (s suffix : pystr) : bool :=
  startswith (rev s) (rev suffix).

(** [sep.join(parts)] *)
Fixpoint join (sep : pystr) (parts : list pystr) : pystr :=
  match parts with
  | [] => []
  | p :: rest =>
      match rest with
      | [] => p
      | _ :: _ => p ++ sep ++ join sep rest
      end
  end.

Definition semicolon : N := 59%N.

(** [c in s] for a character [c]. *)
Definition contains (c : N) (s : pystr) : bool := existsb (N.eqb c) s.

(** [s.split(c)[0]]: the text before the first [c]. *)
Fixpoint split_head (c : N) (s : pystr) : pystr :=
  match s with
  | [] => []
  | a :: rest => if N.eqb a c then [] else a :: split_head c rest
  end.

(** [str(z)] for an int. *)
Definition str_of_int (z : Z) : pystr :=
  if z <? 0 then of_string "-" ++ str_of_nat (Z.to_nat (- z))
  else str_of_nat (Z.to_nat z).

End Text.

Definition UnboundLocalError : exn :=
  LibraryError (of_string "UnboundLocalError").
Definition KeyError : exn := LibraryError (of_string "KeyError").
Definition TypeError : exn := LibraryError (of_string "TypeError").

Section Ingest.

Variables timestamp Client Collection BatchReturn ext Bytes : Type.

(** A page of [reader.pages]: its index and what [extract_text()]
    gives. *)
Record Page : Type := mkPage {
  page_number : Z;
  extract_text : exn + pystr
}.

(** A parsed HTML document: [soup.title] ([None] without a title
    element) with its [.string] ([None] when the element has more than
    one child), and [get_text()] of the elements that
    [find_all(['p', 'code', 'h1', ..., 'pre', 'ol'])] gives. *)
Record Soup : Type := mkSoup {
  soup_title : option (option pystr);
  soup_find_all : list pystr
}.

(** The response of [session.get]. *)
Record Response : Type := mkResponse {
  status_code : Z;
  content_type_header : option pystr;   (* [headers["Content-Type"]] *)
  resp_text : pystr;
  resp_url : pystr;                     (* [str(response.url)] *)
  resp_read : exn + Bytes               (* the attribute [response.read] *)
}.

Record Platform : Type := mkPlatform {
  str_lower : pystr -> pystr;                                (* [str.lower()] *)
  (* [with open(tmp_file, 'r') as f: f.read()] *)
  read_text : option pystr -> ext -> (exn + pystr) * ext;
  (* [with open(tmp_file, 'rb') as file: file.read()] *)
  read_bytes : option pystr -> ext -> (exn + Bytes) * ext;
  (* [PdfReader(io.BytesIO(b)).pages] *)
  pdf_pages : Bytes -> exn + list Page;
  (* [pypandoc.convert_file(tmp_file, 'plain', format='docx')] *)
  convert_file : option pystr -> ext -> (exn + pystr) * ext;
  (* [BeautifulSoup(text, 'html.parser')] *)
  beautiful_soup : pystr -> Soup;
  (* [session.get(url, allow_redirects=True)] *)
  session_get : pystr -> ext -> (exn + Response) * ext
}.

Variable lib : Weaviate timestamp Client Collection BatchReturn ext.
Variable plat : Platform.

(** A call into the platform: it acts on [ext], and returns or raises. *)
Definition platform {A} (f : ext -> (exn + A) * ext)
  : M (World Client ext) A :=
  fun w =>
    let '(r, e') := f (env w) in
    let w' := mkWorld (self w) e' (trace w) in
    match r with
    | inl e => (Raise e, w')
    | inr v => (Ret v, w')
    end.

Definition result {St A} (r : exn + A) : M St A :=
  match r with
  | inl e => raise e
  | inr v => ret v
  end.

(** *** [extract_from_url] *)

(** The [for page in reader.pages] loop of [extract_text_from_pdf]. *)
Fixpoint pdf_text (pages : list Page) (pdf2text : pystr)
  : M (World Client ext) pystr :=
  match pages with
  | [] => ret pdf2text
  | page :: rest =>
      t <- result (extract_text page) ;;
      pdf_text rest (pdf2text ++ t ++ [LF])
  end.

Definition extract_text_from_pdf (response : Response)
  : M (World Client ext) pystr :=
  pdf_content <- result (resp_read response) ;;
  pages <- result (pdf_pages plat pdf_content) ;;
  pdf_text pages [].

Definition extract_text_from_text (response : Response)
  : M (World Client ext) pystr :=
  ret (resp_text response).

Definition extract_text_from_html (response : Response)
  : M (World Client ext) pystr :=
  let html_content := resp_text response in
  let source := of_string "Document Source: " ++ resp_url response in
  let soup := beautiful_soup plat html_content in
  title <- match soup_title soup with
           | Some (Some s) => ret (of_string "Document Title: " ++ s ++ [LF])
           | Some None => raise TypeError      (* [str + None] *)
           | None => ret []
           end ;;
  ret (title ++ source ++ [LF] ++ of_string "Document Content:" ++ [LF]
         ++ Text.join [LF; LF] (soup_find_all soup)).

Inductive handler : Type := FromPdf | FromText | FromHtml.

Definition content_handlers : dict pystr handler :=
  [(of_string "application/pdf", FromPdf);
   (of_string "text/plain", FromText);
   (of_string "text/csv", FromText);
   (of_string "text/xml", FromText);
   (of_string "application/json", FromText);
   (of_string "text/html", FromHtml);
   (of_string "application/xml", FromText)].

Definition handle (h : handler) (response : Response)
  : M (World Client ext) pystr :=
  match h with
  | FromPdf => extract_text_from_pdf response
  | FromText => extract_text_from_text response
  | FromHtml => extract_text_from_html response
  end.

Definition extract_from_url (url : pystr) : M (World Client ext) pystr :=
  response <- platform (session_get plat url) ;;
  if status_code response =? 200 then
    header <- match content_type_header response with
              | Some h => ret h
              | None => raise KeyError
              end ;;
    let content_type :=
      if Text.contains Text.semicolon header
      then Text.split_head Text.semicolon header
      else header in
    match dict_get PyStr.eqb content_handlers content_type with
    | Some h => handle h response
    | None => ret (of_string "Unsupported content type")
    end
  else
    ret (of_string "Failed to fetch the webpage. Status code: "
           ++ Text.str_of_int (status_code response)).

(** *** The [add_...] methods *)

Definition add_url (fuel : nat) (collection title url : pystr)
  : M (World Client ext) (option BatchReturn) :=
  content <- extract_from_url url ;;
  if truthy content
  then add_document lib fuel collection title (of_string "URL") url None
         (Some content)
  else ret None.

(** The [for page in reader.pages] loop of [add_pdf]; [r] is [None] as
    long as the variable [r] is unbound. *)
Fixpoint add_pdf_pages (fuel : nat) (collection title filename : pystr)
  (pages : list Page) (r : option (option BatchReturn))
  : M (World Client ext) (option (option BatchReturn)) :=
  match pages with
  | [] => ret r
  | page :: rest =>
      t <- result (extract_text page) ;;
      let pdf2text := t ++ [LF] in
      let section :=
        title ++ of_string " - Page "
          ++ Text.str_of_int (page_number page + 1) in
      r' <- add_document lib fuel collection section (of_string "PDF")
              filename None (Some pdf2text) ;;
      add_pdf_pages fuel collection title filename rest (Some r')
  end.

Definition add_pdf (fuel : nat) (collection title filename : pystr)
  (tmp_file : option pystr) : M (World Client ext) (option BatchReturn) :=
  pdf_content <- platform (read_bytes plat tmp_file) ;;
  pages <- result (pdf_pages plat pdf_content) ;;
  r <- add_pdf_pages fuel collection title filename pages None ;;
  match r with
  | Some v => ret v
  | None => raise UnboundLocalError     (* [return r], [r] never assigned *)
  end.

Definition add_docx (fuel : nat) (collection title filename : pystr)
  (tmp_file : option pystr) : M (World Client ext) (option BatchReturn) :=
  docx2text <- platform (convert_file plat tmp_file) ;;
  add_document lib fuel collection title (of_string "DOCX") filename None
    (Some docx2text).

Definition add_txt (fuel : nat) (collection title filename : pystr)
  (tmp_file : option pystr) : M (World Client ext) (option BatchReturn) :=
  txt2text <- platform (read_text plat tmp_file) ;;
  add_document lib fuel collection title (of_string "TXT") filename None
    (Some txt2text).

(** [title = soup.title.string] replaces the argument.  A title that is
    [None] is rendered as "None" in the text and handed on as the title;
    [None], like the empty string, is false for [add_document], which
    raises before it uses the title. *)
Definition add_html (fuel : nat) (collection title filename : pystr)
  (tmp_file : option pystr) : M (World Client ext) (option BatchReturn) :=
  html2text <- platform (read_text plat tmp_file) ;;
  let soup := beautiful_soup plat html2text in
  title <- match soup_title soup with
           | Some s => ret s
           | None =>
               raise (AttributeError
                        (of_string "'NoneType' object has no attribute"))
           end ;;
  let shown := match title with Some s => s | None => of_string "None" end in
  let website_text :=
    of_string "Document Title: " ++ shown ++ [LF]
      ++ of_string "Document Content:" ++ [LF]
      ++ Text.join [LF; LF] (soup_find_all soup) in
  add_document lib fuel collection
    (match title with Some s => s | None => [] end)
    (of_string "HTML") filename None (Some website_text).

Definition add_json (fuel : nat) (collection title filename : pystr)
  (tmp_file : option pystr) : M (World Client ext) (option BatchReturn) :=
  json2text <- platform (read_text plat tmp_file) ;;
  add_document lib fuel collection title (of_string "JSON") filename None
    (Some json2text).

Definition add_file (fuel : nat) (collection title filename : pystr)
  (tmp_file : option pystr) : M (World Client ext) (option BatchReturn) :=
  if Text.startswith filename (of_string "http")
  then add_url fuel collection title filename
  else
    let lower := str_lower plat filename in
    if Text.endswith lower (of_string ".pdf")
    then add_pdf fuel collection title filename tmp_file
    else if Text.endswith lower (of_string ".docx")
    then add_docx fuel collection title filename tmp_file
    else if Text.endswith lower (of_string ".txt")
    then add_txt fuel collection title filename tmp_file
    else if Text.endswith lower (of_string ".html")
    then add_html fuel collection title filename tmp_file
    else if Text.endswith lower (of_string ".json")
    then add_json fuel collection title filename tmp_file
    else raise (ValueError (of_string "Unsupported document format")).

(** The content types served by [extract_text_from_text]. *)
Definition text_types : list pystr :=
  [of_string "text/plain"; of_string "text/csv"; of_string "text/xml";
   of_string "application/json"; of_string "application/xml"].

End Ingest.

(** A platform for the in-memory store: three files, a PDF reader that
    finds no page in an empty file, and three URLs. *)
Module Disk.

Definition not_found : exn := LibraryError (of_string "FileNotFoundError").

Definition empty_txt : pystr := of_string "/tmp/empty.txt".
Definition empty_pdf : pystr := of_string "/tmp/empty.pdf".
Definition bare_html : pystr := of_string "/tmp/bare.html".
Definition bare : pystr := of_string "<p>hi</p>".
Definition gone_url : pystr := of_string "http://localhost/gone.txt".
Definition csv_url : pystr := of_string "http://localhost/data.csv".
Definition csv_body : pystr := of_string "a,b".
Definition zip_url : pystr := of_string "http://localhost/data.zip".

Definition lower (s : pystr) : pystr :=
  map (fun c => if ((65 <=? c) && (c <=? 90))%N then (c + 32)%N else c) s.

Definition read (tmp_file : option pystr) (s : Mem.store)
  : (exn + pystr) * Mem.store :=
  match tmp_file with
  | Some f =>
      if PyStr.eqb f empty_txt || PyStr.eqb f empty_pdf then (inr [], s)
      else if PyStr.eqb f bare_html then (inr bare, s)
      else (inl not_found, s)
  | None => (inl TypeError, s)
  end.

Definition pages (b : pystr) : exn + list Page :=
  match b with
  | [] => inr []
  | _ :: _ => inr [mkPage 0 (inr b)]
  end.

(** No title element; the text of the page is one paragraph. *)
Definition soup (html : pystr) : Soup := mkSoup None [html].

Definition no_read : exn + pystr :=
  inl (AttributeError (of_string "'Response' object has no attribute 'read'")).

Definition get (url : pystr) (s : Mem.store)
  : (exn + Response pystr) * Mem.store :=
  if PyStr.eqb url csv_url
  then (inr (mkResponse 200 (Some (of_string "text/csv; charset=utf-8"))
               csv_body url no_read), s)
  else if PyStr.eqb url zip_url
  then (inr (mkResponse 200 (Some (of_string "application/zip")) [] url
               no_read), s)
  else (inr (mkResponse 404 (Some (of_string "text/html")) [] url no_read),
        s).

Definition plat : Platform Mem.store pystr :=
  mkPlatform lower read read pages read soup get.

End Disk.

(** * Properties of the chunker *)

Section ChunkerFacts.

Lemma len_app (a b : pystr) : len (a ++ b) = len a + len b.
Proof. unfold len. rewrite length_app. lia. Qed.

Lemma len_nonneg (a : pystr) : 0 <= len a.
Proof. unfold len. lia. Qed.

Lemma no_break_rev (l : pystr) : no_break l -> no_break (rev l).
Proof.
  unfold no_break. rewrite !forallb_forall. intros H c Hc.
  apply H. now apply in_rev.
Qed.

Lemma no_break_cons (c : N) (l : pystr) :
  is_linebreak c = false -> no_break l -> no_break (c :: l).
Proof. unfold no_break. simpl. intros -> ->. reflexivity. Qed.

(** Every line cut by [splitlines] is free of line boundaries. *)
Lemma splitlines_from_no_break (n : nat) :
  forall s cur, (List.length s <= n)%nat -> no_break cur ->
    Forall no_break (splitlines_from cur s).
Proof.
  induction n as [|n IH]; intros s cur Hlen Hcur.
  - destruct s; [|simpl in Hlen; lia]. simpl.
    destruct cur; constructor; auto. now apply no_break_rev.
  - destruct s as [|c rest]; simpl.
    + destruct cur; constructor; auto. now apply no_break_rev.
    + simpl in Hlen.
      assert (Hnil : no_break []) by reflexivity.
      destruct (is_linebreak c) eqn:Hc.
      * destruct (N.eqb c CR).
        -- destruct rest as [|c' rest'].
           ++ constructor; [now apply no_break_rev|]. apply IH; simpl; auto; lia.
           ++ destruct (N.eqb c' LF); (constructor; [now apply no_break_rev|]);
                apply IH; simpl in *; auto; lia.
        -- constructor; [now apply no_break_rev|]. apply IH; auto; lia.
      * apply IH; [lia|]. now apply no_break_cons.
Qed.

Lemma splitlines_no_break (s : pystr) : Forall no_break (splitlines s).
Proof.
  unfold splitlines. apply (@splitlines_from_no_break (List.length s)); auto.
  reflexivity.
Qed.

(** Scanning a boundary-free line that is closed by LF yields that line. *)
Lemma splitlines_from_line (l : pystr) :
  forall cur rest, no_break l ->
    splitlines_from cur (l ++ LF :: rest)
    = (rev cur ++ l) :: splitlines_from [] rest.
Proof.
  induction l as [|c l IH]; intros cur rest Hl.
  - simpl. now rewrite app_nil_r.
  - unfold no_break in Hl. simpl in Hl.
    apply andb_true_iff in Hl. destruct Hl as [Hc Hl].
    apply negb_true_iff in Hc.
    simpl. rewrite Hc. rewrite IH by exact Hl.
    simpl. now rewrite <- app_assoc.
Qed.

Lemma splitlines_joined_app (g : list pystr) (rest : pystr) :
  Forall no_break g ->
  splitlines_from [] (joined g ++ rest) = g ++ splitlines_from [] rest.
Proof.
  induction 1 as [|l g Hl Hg IH]; [reflexivity|].
  unfold joined in *. simpl. rewrite <- !app_assoc. simpl.
  rewrite splitlines_from_line by exact Hl. simpl. now rewrite IH.
Qed.

Lemma splitlines_joined (g : list pystr) :
  Forall no_break g -> splitlines (joined g) = g.
Proof.
  intros Hg. unfold splitlines.
  rewrite <- (app_nil_r (joined g)), splitlines_joined_app by exact Hg.
  simpl. apply app_nil_r.
Qed.

Lemma joined_app (g h : list pystr) : joined (g ++ h) = joined g ++ joined h.
Proof. unfold joined. now rewrite map_app, concat_app. Qed.

Lemma chunk_step_inv (max_size : Z) st done line :
  no_break line -> chunk_inv st done ->
  chunk_inv (chunk_step max_size st line) (done ++ [line]).
Proof.
  intros Hline [g [Hcur [Hg Hdone]]]. destruct st as [result cur].
  simpl in *. subst cur.
  destruct (len (joined g) + len line >? max_size).
  - exists [line]. simpl. repeat split.
    + unfold joined. simpl. now rewrite app_nil_r.
    + constructor; auto.
    + rewrite map_app, concat_app. simpl.
      rewrite splitlines_joined by exact Hg. rewrite app_nil_r.
      now rewrite Hdone.
  - exists (g ++ [line]). simpl. repeat split.
    + rewrite joined_app. unfold joined at 3. simpl. now rewrite app_nil_r.
    + apply Forall_app. split; auto.
    + now rewrite app_assoc, Hdone.
Qed.

Lemma chunk_loop_inv (max_size : Z) (lines : list pystr) :
  forall st done, Forall no_break lines -> chunk_inv st done ->
    chunk_inv (chunk_loop max_size lines st) (done ++ lines).
Proof.
  unfold chunk_loop.
  induction lines as [|line lines IH]; intros st done Hl Hinv; simpl.
  - now rewrite app_nil_r.
  - inversion Hl; subst.
    replace (done ++ line :: lines) with ((done ++ [line]) ++ lines)
      by now rewrite <- app_assoc.
    apply IH; auto. now apply chunk_step_inv.
Qed.

End ChunkerFacts.

Section ChunkerClaims.

Lemma chunk_step_concat (max_size : Z) st line :
  List.concat (fst (chunk_step max_size st line))
    ++ snd (chunk_step max_size st line)
  = (List.concat (fst st) ++ snd st) ++ line ++ [LF].
Proof.
  destruct st as [result cur]. simpl.
  destruct (len cur + len line >? max_size); simpl.
  - rewrite concat_app. simpl. now rewrite !app_nil_r.
  - now rewrite <- !app_assoc.
Qed.

Lemma chunk_loop_concat (max_size : Z) (lines : list pystr) :
  forall st,
    List.concat (fst (chunk_loop max_size lines st))
      ++ snd (chunk_loop max_size lines st)
    = (List.concat (fst st) ++ snd st) ++ joined lines.
Proof.
  unfold chunk_loop.
  induction lines as [|line lines IH]; intros st; simpl.
  - now rewrite app_nil_r.
  - rewrite IH, chunk_step_concat. unfold joined. simpl.
    now rewrite <- !app_assoc.
Qed.

(** With every line within the limit, a chunk is at most one character
    (the separator of its last line) over the limit. *)
Lemma chunk_loop_bound (max_size : Z) (lines : list pystr) :
  forall st,
    Forall (fun line => len line <= max_size) lines ->
    Forall (fun c => len c <= max_size + 1) (fst st) ->
    len (snd st) <= max_size + 1 ->
    Forall (fun c => len c <= max_size + 1)
      (fst (chunk_loop max_size lines st))
    /\ len (snd (chunk_loop max_size lines st)) <= max_size + 1.
Proof.
  unfold chunk_loop.
  induction lines as [|line lines IH]; intros [result cur] Hl Hr Hc; simpl.
  - auto.
  - inversion Hl as [|? ? Hline Hrest]; subst. simpl in *.
    destruct (len cur + len line >? max_size) eqn:E; apply IH; simpl; auto.
    + apply Forall_app. split; auto.
    + rewrite len_app. unfold len at 2. simpl. lia.
    + rewrite !len_app. unfold len at 3. simpl.
      rewrite Z.gtb_ltb, Z.ltb_ge in E. lia.
Qed.

Lemma break_up_content_bound (text : pystr) (max_size : Z) :
  0 <= max_size ->
  Forall (fun line => len line <= max_size) (splitlines text) ->
  Forall (fun c => len c <= max_size + 1) (break_up_content text max_size).
Proof.
  intros Hm Hl. unfold break_up_content.
  destruct (len text >? max_size) eqn:E.
  - destruct (chunk_loop max_size (splitlines text) ([], [])) as [result cur] eqn:Eq.
    destruct (@chunk_loop_bound max_size (splitlines text) ([], [])) as [A B];
      simpl; auto.
    + unfold len. simpl. lia.
    + rewrite Eq in A, B. simpl in A, B. apply Forall_app. split; auto.
  - constructor; auto.
    rewrite Z.gtb_ltb, Z.ltb_ge in E. lia.
Qed.

(** C6: a text whose length is at most the (positive) maximum is returned
    as the single chunk, unchanged: no separator is appended. *)
Theorem C6_short_text_is_one_chunk (text : pystr) (max_size : Z) :
  0 < max_size -> len text <= max_size ->
  break_up_content text max_size = [text].
Proof.
  intros _ Hle. unfold break_up_content.
  destruct (len text >? max_size) eqn:E; [|reflexivity].
  rewrite Z.gtb_ltb, Z.ltb_lt in E. lia.
Qed.

Lemma C6_witness :
  0 < 10 /\ len Ex.hello <= 10
  /\ break_up_content Ex.hello 10 = [Ex.hello].
Proof.
  assert (H1 : 0 < 10) by lia.
  assert (H2 : len Ex.hello <= 10) by (vm_compute; discriminate).
  split; [exact H1|]. split; [exact H2|].
  exact (@C6_short_text_is_one_chunk Ex.hello 10 H1 H2).
Defined.

(** C7: for every text and every maximum (positive or not), the chunks
    read line by line give the lines of the text in their order: both
    chunk after chunk, and for the concatenation of all chunks. *)
Theorem C7_chunks_reproduce_lines (text : pystr) (max_size : Z) :
  List.concat (map splitlines (break_up_content text max_size))
  = splitlines text
  /\ splitlines (List.concat (break_up_content text max_size))
     = splitlines text.
Proof.
  unfold break_up_content.
  destruct (len text >? max_size).
  - pose proof (splitlines_no_break text) as Hnb.
    destruct (chunk_loop max_size (splitlines text) ([], [])) as [result cur] eqn:Eq.
    split.
    + destruct (@chunk_loop_inv max_size (splitlines text) ([], []) [] Hnb)
        as [g [Hcur [Hg Hdone]]].
      { exists []. simpl. repeat split; auto. }
      rewrite Eq in Hcur, Hdone. simpl in Hcur, Hdone.
      rewrite map_app, concat_app. simpl. rewrite app_nil_r.
      subst cur. now rewrite splitlines_joined.
    + pose proof (@chunk_loop_concat max_size (splitlines text) ([], [])) as Hc.
      rewrite Eq in Hc. simpl in Hc.
      rewrite concat_app. simpl. rewrite app_nil_r, Hc.
      now apply splitlines_joined.
  - simpl. now rewrite !app_nil_r.
Qed.

Lemma splitlines_from_nonempty (n : nat) :
  forall s cur, (List.length s <= n)%nat -> s <> [] \/ cur <> [] ->
    splitlines_from cur s <> [].
Proof.
  induction n as [|n IH]; intros s cur Hlen Hne.
  - destruct s; [|simpl in Hlen; lia]. simpl.
    destruct cur; [|discriminate]. destruct Hne; congruence.
  - destruct s as [|c rest]; simpl.
    + destruct cur; [|discriminate]. destruct Hne; congruence.
    + simpl in Hlen. destruct (is_linebreak c).
      * destruct (N.eqb c CR); [destruct rest as [|c' rest']|];
          try destruct (N.eqb c' LF); discriminate.
      * apply IH; [lia|]. right. discriminate.
Qed.

Lemma splitlines_nonempty (s : pystr) : s <> [] -> splitlines s <> [].
Proof.
  intros H. unfold splitlines.
  apply (@splitlines_from_nonempty (List.length s)); auto.
Qed.

(** Once a line is in the buffer, no later flush gives an empty chunk. *)
Lemma chunk_loop_no_empty (max_size : Z) (lines : list pystr) :
  forall st, ~ In [] (fst st) -> snd st <> [] ->
    ~ In [] (fst (chunk_loop max_size lines st))
    /\ snd (chunk_loop max_size lines st) <> [].
Proof.
  unfold chunk_loop.
  induction lines as [|line lines IH]; intros [result cur] Hr Hc; simpl.
  - auto.
  - simpl in Hr, Hc.
    destruct (len cur + len line >? max_size); apply IH; simpl.
    + intros H. apply in_app_or in H. destruct H as [H|[H|[]]]; auto.
    + destruct line; discriminate.
    + exact Hr.
    + destruct cur; [congruence|discriminate].
Qed.

(** Where the code keeps the property of C3: when the first line fits the
    maximum, no chunk of a non-empty text is empty. *)
Lemma break_up_content_no_empty (text : pystr) (max_size : Z) :
  text <> [] ->
  (forall l ls, splitlines text = l :: ls -> len l <= max_size) ->
  ~ In [] (break_up_content text max_size).
Proof.
  intros Hne Hfirst. unfold break_up_content.
  destruct (len text >? max_size).
  - pose proof (splitlines_nonempty Hne) as Hl.
    destruct (splitlines text) as [|l ls] eqn:E; [congruence|].
    specialize (Hfirst l ls eq_refl).
    unfold chunk_loop. cbn [fold_left chunk_step].
    assert (E0 : (len [] + len l >? max_size) = false).
    { rewrite Z.gtb_ltb, Z.ltb_ge. unfold len at 1. simpl. lia. }
    rewrite E0. cbn [app].
    destruct (@chunk_loop_no_empty max_size ls ([], l ++ [LF])) as [A B].
    { intros []. }
    { simpl. destruct l; discriminate. }
    unfold chunk_loop in A, B.
    destruct (fold_left (chunk_step max_size) ls ([], l ++ [LF]))
      as [result cur] eqn:Ef.
    intros H. apply in_app_or in H. destruct H as [H|[H|[]]].
    + apply A. exact (eq_ind_r (fun r => In [] r) H (f_equal fst Ef)).
    + apply B. exact (eq_trans (f_equal snd Ef) H).
  - intros [H|[]]. congruence.
Qed.

(** Where it does not: a first line longer than the maximum is preceded
    by an empty chunk. *)
Lemma break_up_content_leading_empty (text : pystr) (max_size : Z) l ls :
  0 <= max_size -> splitlines text = l :: ls -> len l > max_size ->
  len text > max_size ->
  exists rest, break_up_content text max_size = [] :: rest.
Proof.
  intros Hm E Hl Ht. unfold break_up_content.
  assert (E1 : (len text >? max_size) = true).
  { rewrite Z.gtb_ltb. apply Z.ltb_lt. lia. }
  rewrite E1, E. unfold chunk_loop. cbn [fold_left chunk_step].
  assert (E0 : (len [] + len l >? max_size) = true).
  { rewrite Z.gtb_ltb. apply Z.ltb_lt. unfold len at 1. simpl. lia. }
  rewrite E0. cbn [app].
  assert (H : forall lines st,
            exists rest, fst (fold_left (chunk_step max_size) lines st)
                         = fst st ++ rest).
  { induction lines as [|x lines IH]; intros [r c]; simpl.
    - exists []. now rewrite app_nil_r.
    - destruct (len c + len x >? max_size).
      + destruct (IH (r ++ [c], [] ++ x ++ [LF])) as [rest Hrest].
        rewrite Hrest. simpl. rewrite <- app_assoc. eauto.
      + destruct (IH (r, c ++ x ++ [LF])) as [rest Hrest].
        rewrite Hrest. simpl. eauto. }
  destruct (H ls ([[]], l ++ [LF])) as [rest Hrest].
  destruct (fold_left (chunk_step max_size) ls ([[]], l ++ [LF]))
    as [result cur] eqn:Ef.
  simpl in Hrest. subst result. exists (rest ++ [cur]).
  exact (f_equal (fun p : list pystr * pystr => let '(r, c) := p in r ++ [c])
           Ef).
Qed.

(** C3 (the code at the failing input): the one-line text "abc" with
    maximum 2 is cut into an empty chunk followed by the line. *)
Theorem C3_empty_chunk_before_long_first_line :
  Ex.abc <> [] /\ 0 < 2
  /\ break_up_content Ex.abc 2 = [[]; Ex.abc ++ [LF]]
  /\ In [] (break_up_content Ex.abc 2).
Proof.
  repeat split; try discriminate; try reflexivity.
  vm_compute. now left.
Qed.

End ChunkerClaims.

(** * Properties of the records built by [add_document] *)

Section RecordClaims.

Variables timestamp Client Collection BatchReturn ext : Type.
Variable lib : Weaviate timestamp Client Collection BatchReturn ext.

Lemma now_returns (w : World Client ext) :
  exists t w', now lib w = (Ret t, w')
               /\ self w' = self w /\ trace w' = trace w.
Proof.
  unfold now. destruct (time_time lib (env w)) as [t e'].
  exists t. eexists. repeat split.
Qed.

Lemma section_records_cons (title doc_type filename content : pystr)
  (total : nat) chunk rest ci (dd : list (DocRecord timestamp)) :
  section_records lib title doc_type filename content total (chunk :: rest)
    ci dd
  = (t <- now lib ;;
     section_records lib title doc_type filename content total rest
       (ci + 1)
       (dd ++ [mkDocRecord
                 (title ++ (if (1 <? total)%nat
                            then of_string " - Section "
                                   ++ str_of_nat (ci + 1)
                                   ++ of_string " of " ++ str_of_nat total
                            else []))
                 (Some chunk) doc_type filename content t])).
Proof. reflexivity. Qed.

Lemma truthy_nonempty (s : pystr) : s <> [] -> truthy s = true.
Proof. destruct s; [congruence|reflexivity]. Qed.

(** With valid arguments and no fragment, [add_document] passes its
    checks and only the maximum decides how the records are built. *)
Lemma add_document_records_valid (title doc_type filename content : pystr) :
  content <> [] -> title <> [] -> doc_type <> [] -> filename <> [] ->
  add_document_records lib title doc_type filename None (Some content)
  = (d <- get_self ;;
     if max_chunk_size d >? 0
     then
       section_records lib title doc_type filename content
         (List.length (break_up_content content (max_chunk_size d)))
         (break_up_content content (max_chunk_size d)) 0 []
     else
       t <- now lib ;;
       ret [mkDocRecord title None doc_type filename content t]).
Proof.
  intros Hc Ht Hd Hf. unfold add_document_records, otruthy.
  rewrite (truthy_nonempty Hc), (truthy_nonempty Ht),
    (truthy_nonempty Hd), (truthy_nonempty Hf).
  cbn [negb andb]. rewrite (truthy_nonempty Hc). reflexivity.
Qed.

(** The loop appends one record per fragment, in order, numbered from
    [ci + 1]. *)
Lemma section_records_spec (title doc_type filename content : pystr)
  (total : nat) (chunks : list pystr) :
  forall (ci : nat) (dd : list (DocRecord timestamp)) (w : World Client ext),
  exists dd' w',
    section_records lib title doc_type filename content total chunks ci dd w
    = (Ret (dd ++ dd'), w')
    /\ self w' = self w /\ trace w' = trace w
    /\ List.length dd' = List.length chunks
    /\ forall i fragment, nth_error chunks i = Some fragment ->
         exists r, nth_error dd' i = Some r
           /\ r_file r = filename /\ r_doc_type r = doc_type
           /\ r_content r = content /\ r_chunk r = Some fragment
           /\ r_title r =
              title ++ (if (1 <? total)%nat
                        then of_string " - Section "
                               ++ str_of_nat (ci + i + 1)
                               ++ of_string " of " ++ str_of_nat total
                        else []).
Proof.
  induction chunks as [|chunk rest IH]; intros ci dd w.
  - exists [], w. simpl. rewrite app_nil_r. repeat split.
    intros [|i] fragment H; discriminate.
  - destruct (now_returns w) as [t [w1 [Hnow [Hs1 Ht1]]]].
    rewrite section_records_cons. unfold bind at 1. rewrite Hnow.
    destruct (IH (ci + 1)%nat
                (dd ++ [mkDocRecord
                          (title ++ (if (1 <? total)%nat
                                     then of_string " - Section "
                                            ++ str_of_nat (ci + 1)
                                            ++ of_string " of "
                                            ++ str_of_nat total
                                     else []))
                          (Some chunk) doc_type filename content t]) w1)
      as [dd' [w' [Hrun [Hs [Ht [Hlen Hnth]]]]]].
    rewrite Hrun. eexists (_ :: dd'), w'. split.
    { rewrite <- app_assoc. reflexivity. }
    split; [congruence|]. split; [congruence|].
    split; [simpl; congruence|].
    intros [|i] fragment Hi; simpl in Hi.
    + injection Hi as <-. eexists. split; [reflexivity|]. simpl.
      repeat split. now rewrite Nat.add_0_r.
    + destruct (Hnth i fragment Hi) as [r [Hr Hprops]].
      exists r. split; [exact Hr|].
      replace (ci + S i + 1)%nat with (ci + 1 + i + 1)%nat by lia.
      exact Hprops.
Qed.

(** C5: with non-empty content, no fragment given by the caller and a
    positive maximum, [add_document] builds one record per fragment of
    the chunker, in order; every record has the given file name and type
    and the full text as content, fragment [i] as chunk, and the title
    followed by " - Section i of N" when there are N > 1 fragments, the
    title alone when there is one.  (Title, type and file name must be
    non-empty for any record to be built.) *)
Theorem C5_one_record_per_fragment
  (title doc_type filename content : pystr) (w : World Client ext) :
  content <> [] -> 0 < max_chunk_size (self w) ->
  title <> [] -> doc_type <> [] -> filename <> [] ->
  let chunks := break_up_content content (max_chunk_size (self w)) in
  let N := List.length chunks in
  exists dd w',
    add_document_records lib title doc_type filename None (Some content) w
    = (Ret dd, w')
    /\ List.length dd = N
    /\ forall i fragment, nth_error chunks i = Some fragment ->
         exists r, nth_error dd i = Some r
           /\ r_file r = filename /\ r_doc_type r = doc_type
           /\ r_content r = content /\ r_chunk r = Some fragment
           /\ r_title r =
              if (1 <? N)%nat
              then title ++ of_string " - Section " ++ str_of_nat (i + 1)
                     ++ of_string " of " ++ str_of_nat N
              else title.
Proof.
  intros Hc Hm Ht Hd Hf chunks N.
  rewrite (add_document_records_valid Hc Ht Hd Hf).
  unfold bind at 1, get_self at 1.
  assert (E : (max_chunk_size (self w) >? 0) = true).
  { rewrite Z.gtb_ltb. now apply Z.ltb_lt. }
  rewrite E.
  destruct (@section_records_spec title doc_type filename content N chunks
              0%nat [] w) as [dd [w' [Hrun [_ [_ [Hlen Hnth]]]]]].
  exists dd, w'. split; [exact Hrun|]. split; [exact Hlen|].
  intros i fragment Hi.
  destruct (Hnth i fragment Hi) as [r [Hr [A [B [C [D Etitle]]]]]].
  exists r. repeat (split; [assumption|]).
  rewrite Etitle. simpl. destruct (1 <? N)%nat; [reflexivity|].
  apply app_nil_r.
Qed.

(** C10: after [set_max_chunk_size] with a size that is not positive,
    [add_document] with non-empty content and no fragment builds exactly
    one record, whose chunk is [None]; the content is kept in the content
    field only. *)
Theorem C10_no_chunking_leaves_chunk_none
  (size : Z) (title doc_type filename content : pystr) (w : World Client ext) :
  size <= 0 -> content <> [] ->
  title <> [] -> doc_type <> [] -> filename <> [] ->
  exists t w',
    (set_max_chunk_size size ;;;
     add_document_records lib title doc_type filename None (Some content)) w
    = (Ret [mkDocRecord title None doc_type filename content t], w').
Proof.
  intros Hs Hc Ht Hd Hf.
  unfold bind at 1, set_max_chunk_size.
  rewrite (add_document_records_valid Hc Ht Hd Hf).
  unfold bind at 1, get_self at 1. cbn [self max_chunk_size].
  assert (E : (size >? 0) = false).
  { rewrite Z.gtb_ltb. apply Z.ltb_ge. exact Hs. }
  rewrite E.
  unfold bind, now. simpl.
  destruct (time_time lib (env w)) as [t e'].
  exists t. eexists. reflexivity.
Qed.

End RecordClaims.

Section RecordExamples.

Lemma C5_witness :
  Ex.two_lines <> [] /\ 0 < 2
  /\ exists dd w',
       add_document_records Mem.lib Ex.title Ex.txt Ex.file None
         (Some Ex.two_lines) (Mem.world None 3 2 Mem.up) = (Ret dd, w')
       /\ List.length dd = 2%nat
       /\ exists r, nth_error dd 1 = Some r
            /\ r_chunk r = Some (of_string "cd" ++ [LF])
            /\ r_title r = Ex.title ++ of_string " - Section 2 of 2".
Proof.
  assert (Hc : Ex.two_lines <> []) by discriminate.
  assert (Hm : 0 < max_chunk_size (self (Mem.world None 3 2 Mem.up)))
    by reflexivity.
  assert (Ht : Ex.title <> []) by discriminate.
  assert (Hd : Ex.txt <> []) by discriminate.
  assert (Hf : Ex.file <> []) by discriminate.
  split; [exact Hc|]. split; [reflexivity|].
  destruct (@C5_one_record_per_fragment Z unit pystr nat Mem.store Mem.lib
              Ex.title Ex.txt Ex.file Ex.two_lines
              (Mem.world None 3 2 Mem.up) Hc Hm Ht Hd Hf)
    as [dd [w' [Hrun [Hlen Hnth]]]].
  exists dd, w'. split; [exact Hrun|]. split; [exact Hlen|].
  destruct (Hnth 1%nat (of_string "cd" ++ [LF]) eq_refl)
    as [r [Hr [_ [_ [_ [Hchunk Htitle]]]]]].
  exists r. split; [exact Hr|]. split; [exact Hchunk|]. exact Htitle.
Defined.

Lemma C10_witness :
  0 <= 0 /\ Ex.hello <> []
  /\ exists t w',
       (set_max_chunk_size 0 ;;;
        add_document_records Mem.lib Ex.title Ex.txt Ex.file None
          (Some Ex.hello)) (Mem.world None 3 MAX_CHUNK_SIZE Mem.up)
       = (Ret [mkDocRecord Ex.title None Ex.txt Ex.file Ex.hello t], w').
Proof.
  assert (Hs : 0 <= 0) by lia.
  assert (Hc : Ex.hello <> []) by discriminate.
  assert (Ht : Ex.title <> []) by discriminate.
  assert (Hd : Ex.txt <> []) by discriminate.
  assert (Hf : Ex.file <> []) by discriminate.
  split; [exact Hs|]. split; [exact Hc|].
  exact (@C10_no_chunking_leaves_chunk_none Z unit pystr nat Mem.store
           Mem.lib 0 Ex.title Ex.txt Ex.file Ex.hello
           (Mem.world None 3 MAX_CHUNK_SIZE Mem.up) Hs Hc Ht Hd Hf).
Defined.

(** C2 (the code at the failing input): the text "ab", LF, "cd" has two
    lines of length 2; with maximum 2 the chunker returns two chunks of
    length 3, the line and its separator, and [add_document] stores them
    as the chunks of its two records. *)
Theorem C2_chunk_exceeds_maximum_by_separator :
  Forall (fun line => len line <= 2) (splitlines Ex.two_lines)
  /\ break_up_content Ex.two_lines 2
     = [of_string "ab" ++ [LF]; of_string "cd" ++ [LF]]
  /\ Forall (fun c => len c = 3 /\ len c > 2) (break_up_content Ex.two_lines 2)
  /\ fst (add_document_records Mem.lib Ex.title Ex.txt Ex.file None
            (Some Ex.two_lines) (Mem.world None 3 2 Mem.up))
     = Ret [mkDocRecord (Ex.title ++ of_string " - Section 1 of 2")
              (Some (of_string "ab" ++ [LF])) Ex.txt Ex.file Ex.two_lines 100;
            mkDocRecord (Ex.title ++ of_string " - Section 2 of 2")
              (Some (of_string "cd" ++ [LF])) Ex.txt Ex.file Ex.two_lines 101].
Proof.
  split; [|split; [|split]].
  - vm_compute. repeat constructor; discriminate.
  - reflexivity.
  - vm_compute. repeat constructor.
  - reflexivity.
Qed.

End RecordExamples.

(** * Properties of the retry loops *)

Section RetryFacts.

Variables timestamp Client Collection BatchReturn ext : Type.
Variable lib : Weaviate timestamp Client Collection BatchReturn ext.

Lemma connect_rounds_zero (n : nat) (w : World Client ext) :
  connect_rounds lib n 0 w
  = (Raise (WeaviateConnectionError
              (of_string "Unable to connect to Weaviate at "
                 ++ host (self w))), w).
Proof. destruct n; reflexivity. Qed.

Lemma retry_rounds_zero (S : Type) who rc (n : nat)
  (body : M (S * World Client ext) unit) st :
  retry_rounds lib who rc n 0 body st
  = (Raise (WeaviateConnectionError
              (of_string "Unable to connect to Weaviate")), st).
Proof. destruct n; reflexivity. Qed.

(** With an empty budget [connect] gives up before the first attempt. *)
Lemma connect_no_budget (fuel : nat) (w : World Client ext) :
  retry (self w) = 0 ->
  exists msg, connect lib fuel w = (Raise (WeaviateConnectionError msg), w).
Proof.
  intros H. unfold connect, bind, get_self. rewrite H, connect_rounds_zero.
  eauto.
Qed.

Lemma ensure_connected_no_budget (fuel : nat) (w : World Client ext) :
  retry (self w) = 0 ->
  ensure_connected lib fuel w = (Ret tt, w)
  \/ exists msg,
       ensure_connected lib fuel w = (Raise (WeaviateConnectionError msg), w).
Proof.
  intros H. unfold ensure_connected. unfold bind, get_self. cbn beta iota.
  destruct (client (self w)).
  - now left.
  - right. destruct (connect_no_budget fuel w H) as [msg Hc].
    exists msg. now rewrite Hc.
Qed.

(** The shape shared by the operations: read the budget, connect if
    needed, run the retry loop.  With an empty budget nothing is tried. *)
Lemma guarded_loop_no_budget (S A : Type) (fuel : nat) who
  (body : M (S * World Client ext) unit)
  (after : M (S * World Client ext) A) (init : S) (w : World Client ext) :
  retry (self w) = 0 ->
  exists msg,
    with_locals init
      (d <- lift get_self ;;
       lift (ensure_connected lib fuel) ;;;
       retry_loop lib who fuel (retry d) body ;;;
       after) w
    = (Raise (WeaviateConnectionError msg), w).
Proof.
  intros H. unfold with_locals, bind at 1, lift at 1, get_self. simpl.
  unfold bind at 1, lift at 1. simpl.
  destruct (ensure_connected_no_budget fuel w H) as [E|[msg E]]; rewrite E.
  - unfold bind at 1, retry_loop. rewrite H, retry_rounds_zero. simpl. eauto.
  - simpl. eauto.
Qed.

Lemma all_collections_no_budget (fuel : nat) (w : World Client ext) :
  retry (self w) = 0 ->
  exists msg,
    all_collections lib fuel w = (Raise (WeaviateConnectionError msg), w).
Proof.
  intros H. unfold all_collections, with_locals, bind at 1, lift at 1.
  cbn [snd fst].
  destruct (ensure_connected_no_budget fuel w H) as [E|[msg E]]; rewrite E.
  - unfold bind at 1, lift at 1, get_self. cbn [snd fst].
    unfold bind at 1, retry_loop. rewrite H, retry_rounds_zero. simpl. eauto.
  - simpl. eauto.
Qed.

Lemma create_no_budget (fuel : nat) collection (w : World Client ext) :
  retry (self w) = 0 ->
  exists msg,
    create lib fuel collection w = (Raise (WeaviateConnectionError msg), w).
Proof.
  intros H. unfold create, bind at 1, get_self. unfold bind at 1.
  destruct (ensure_connected_no_budget fuel w H) as [E|[msg E]]; rewrite E;
    [|eauto].
  unfold bind at 1.
  destruct (all_collections_no_budget fuel w H) as [msg E']. rewrite E'. eauto.
Qed.

Lemma delete_no_budget (fuel : nat) collection (w : World Client ext) :
  retry (self w) = 0 ->
  exists msg,
    delete lib fuel collection w = (Raise (WeaviateConnectionError msg), w).
Proof.
  intros H. unfold delete, bind at 1, get_self. unfold bind at 1.
  destruct (ensure_connected_no_budget fuel w H) as [E|[msg E]]; rewrite E;
    [|eauto].
  unfold bind at 1.
  destruct (all_collections_no_budget fuel w H) as [msg E']. rewrite E'. eauto.
Qed.

Lemma list_documents_no_budget (fuel : nat) collection (w : World Client ext) :
  retry (self w) = 0 ->
  exists msg,
    list_documents lib fuel collection w
    = (Raise (WeaviateConnectionError msg), w).
Proof. intros H. now apply guarded_loop_no_budget. Qed.

Lemma get_document_no_budget (fuel : nat) collection uuid
  (w : World Client ext) :
  retry (self w) = 0 ->
  exists msg,
    get_document lib fuel collection uuid w
    = (Raise (WeaviateConnectionError msg), w).
Proof. intros H. now apply guarded_loop_no_budget. Qed.

Lemma delete_document_no_budget (fuel : nat) collection uuid filename
  (w : World Client ext) :
  retry (self w) = 0 ->
  exists msg,
    delete_document lib fuel collection uuid filename w
    = (Raise (WeaviateConnectionError msg), w).
Proof. intros H. now apply guarded_loop_no_budget. Qed.

Lemma update_document_no_budget (fuel : nat)
  collection uuid title doc_type filename chunk content
  (w : World Client ext) :
  retry (self w) = 0 ->
  exists msg,
    update_document lib fuel collection uuid title doc_type filename chunk
      content w
    = (Raise (WeaviateConnectionError msg), w).
Proof. intros H. now apply guarded_loop_no_budget. Qed.

(** Arguments that pass the validation of [add_document] give a list of
    records; building it reads the clock and nothing else. *)
Lemma add_document_records_passes title doc_type filename chunk content
  (w : World Client ext) :
  (otruthy chunk || otruthy content) && truthy title && truthy doc_type
    && truthy filename = true ->
  exists dd w',
    add_document_records lib title doc_type filename chunk content w
    = (Ret dd, w')
    /\ self w' = self w /\ trace w' = trace w.
Proof.
  intros H. apply andb_true_iff in H. destruct H as [H Hf].
  apply andb_true_iff in H. destruct H as [H Hd].
  apply andb_true_iff in H. destruct H as [H Ht].
  unfold add_document_records. rewrite Ht, Hd, Hf.
  assert (Hone : forall c text,
    exists dd w',
      (t <- now lib ;; ret [mkDocRecord title c doc_type filename text t]) w
      = (Ret dd, w') /\ self w' = self w /\ trace w' = trace w).
  { intros c text. destruct (now_returns lib w) as [t [w1 [E [A B]]]].
    unfold bind. rewrite E. eexists; eexists; repeat split; eauto. }
  assert (Hmany : forall text total chunks,
    exists dd w',
      section_records lib title doc_type filename text total chunks 0 [] w
      = (Ret dd, w') /\ self w' = self w /\ trace w' = trace w).
  { intros text total chunks.
    destruct (section_records_spec lib title doc_type filename text total
                chunks 0%nat [] w) as [dd [w' [E [A [B _]]]]].
    exists dd, w'. repeat split; auto. }
  destruct (otruthy chunk) eqn:Ec; destruct (otruthy content) eqn:Eo;
    try discriminate; cbn [negb andb]; rewrite ?Ec, ?Eo; cbn [negb andb];
    unfold bind at 1, get_self at 1;
    try destruct (max_chunk_size (self w) >? 0); auto.
Qed.

Lemma add_document_no_budget (fuel : nat)
  collection title doc_type filename chunk content (w : World Client ext) :
  retry (self w) = 0 ->
  (otruthy chunk || otruthy content) && truthy title && truthy doc_type
    && truthy filename = true ->
  exists msg w',
    add_document lib fuel collection title doc_type filename chunk content w
    = (Raise (WeaviateConnectionError msg), w')
    /\ self w' = self w /\ trace w' = trace w.
Proof.
  intros H Hv.
  destruct (add_document_records_passes title doc_type filename chunk
              content w Hv) as [dd [w1 [E [Hs Ht]]]].
  unfold add_document, bind at 1. rewrite E.
  assert (H1 : retry (self w1) = 0) by congruence.
  destruct (guarded_loop_no_budget fuel m_add_document
              (cl <- lift the_client ;;
               c <- lift (call ApiGet
                            (collections_get lib cl (ArgName collection))) ;;
               r <- lift (call ApiInsertMany (insert_many lib c dd)) ;;
               set_local (Some r))
              get_local (None : option BatchReturn) w1 H1) as [msg E1].
  exists msg, w1. split; [exact E1|]. split; assumption.
Qed.

Lemma get_documents_no_budget (fuel : nat) collection uuid query filename
  num_results (w : World Client ext) :
  retry (self w) = 0 ->
  otruthy uuid || otruthy query || otruthy filename = true ->
  exists msg,
    get_documents lib fuel collection uuid query filename num_results w
    = (Raise (WeaviateConnectionError msg), w).
Proof.
  intros H Hsel.
  unfold get_documents, with_locals, bind at 1, lift at 1, get_self.
  cbn [snd fst]. unfold bind at 1, lift at 1. cbn [snd fst].
  destruct (ensure_connected_no_budget fuel w H) as [E|[msg E]]; rewrite E;
    [|simpl; eauto].
  unfold bind at 1.
  destruct (otruthy uuid).
  { unfold bind at 1, lift at 1. cbn [snd fst].
    destruct (get_document_no_budget fuel collection
                (match uuid with Some u => u | None => [] end) w H)
      as [msg E1].
    rewrite E1. simpl. eauto. }
  unfold ret at 1. unfold bind at 1.
  destruct (otruthy query).
  { unfold retry_loop. rewrite H, retry_rounds_zero. simpl. eauto. }
  unfold ret at 1. unfold bind at 1.
  destruct (otruthy filename); [|discriminate].
  unfold bind at 1, lift at 1. cbn [snd fst].
  destruct (list_documents_no_budget fuel (Some collection) w H) as [msg E1].
  rewrite E1. simpl. eauto.
Qed.

End RetryFacts.



(** * The retry loops against an unreachable store *)

Section Exhaustion.

Variables timestamp Client Collection BatchReturn ext : Type.
Variable lib : Weaviate timestamp Client Collection BatchReturn ext.
Variable I : ext -> Prop.
Variable P : collarg Collection -> Prop.
Hypothesis HU : unreachable lib I P.

Lemma bind_ret {St A B : Type} {m : M St A} (k : A -> M St B) {s a s'}
  (H : m s = (Ret a, s')) : bind m k s = k a s'.
Proof. unfold bind. now rewrite H. Qed.

Lemma bind_raise {St A B : Type} {m : M St A} (k : A -> M St B) {s e s'}
  (H : m s = (Raise e, s')) : bind m k s = (Raise e, s').
Proof. unfold bind. now rewrite H. Qed.

Lemma lift_run {S W A : Type} {m : M W A} (s : S) {w r w'}
  (H : m w = (r, w')) : lift m (s, w) = (r, (s, w')).
Proof. unfold lift. simpl. now rewrite H. Qed.

Lemma tries_call m a tr : tries m (EvCall a :: tr) = tries m tr.
Proof. reflexivity. Qed.

Lemma method_eqb_refl m : method_eqb m m = true.
Proof. destruct m; reflexivity. Qed.

Lemma method_eqb_eq m m' : method_eqb m m' = true -> m = m'.
Proof. destruct m, m'; simpl; congruence. Qed.

Lemma tries_try_same m tr : tries m (EvTry m :: tr) = S (tries m tr).
Proof. unfold tries. simpl. now rewrite method_eqb_refl. Qed.

Lemma tries_try_other m m' tr : m <> m' -> tries m (EvTry m' :: tr) = tries m tr.
Proof.
  intros H. unfold tries. simpl.
  destruct (method_eqb m m') eqn:E; [|reflexivity].
  apply method_eqb_eq in E. contradiction.
Qed.

Lemma advance_refl L (w : World Client ext) : I (env w) -> advance I L w w.
Proof. intros H. repeat split; auto. Qed.

Lemma advance_trans L (w1 w2 w3 : World Client ext) :
  advance I L w1 w2 -> advance I L w2 w3 -> advance I L w1 w3.
Proof.
  intros [A1 [B1 [C1 D1]]] [A2 [B2 [C2 D2]]]. repeat split; auto.
  - congruence.
  - intros m Hm. rewrite (D2 m Hm). now apply D1.
Qed.

Lemma advance_incl L L' (w w' : World Client ext) :
  incl L L' -> advance I L w w' -> advance I L' w w'.
Proof.
  intros Hi [A [B [C D]]]. repeat split; auto.
  intros m Hm. apply D. intros Hin. apply Hm. now apply Hi.
Qed.

(** A step that changes the environment only. *)
Lemma advance_env L (w : World Client ext) e' :
  I e' -> advance I L w (mkWorld (self w) e' (trace w)).
Proof. intros H. repeat split; auto. Qed.

Lemma advance_call L (w : World Client ext) e' a :
  I e' -> advance I L w (mkWorld (self w) e' (EvCall a :: trace w)).
Proof. intros H. repeat split; auto. Qed.

Lemma call_refused (A : Type) a (f : ext -> (exn + A) * ext)
  (w : World Client ext) :
  refuses I f -> I (env w) ->
  exists msg w',
    call a f w = (Raise (WeaviateConnectionError msg), w')
    /\ advance I [] w w'.
Proof.
  intros Hf Hw. destruct (Hf _ Hw) as [msg [e' [E He']]].
  exists msg. eexists. unfold call. rewrite E. split; [reflexivity|].
  now apply advance_call.
Qed.

Lemma call_answered (A : Type) a (f : ext -> (exn + A) * ext)
  (w : World Client ext) :
  answers_or_refuses I f -> I (env w) ->
  (exists v w', call a f w = (Ret v, w') /\ advance I [] w w')
  \/ (exists msg w',
        call a f w = (Raise (WeaviateConnectionError msg), w')
        /\ advance I [] w w').
Proof.
  intros Hf Hw. destruct (Hf _ Hw) as [[v [e' [E He']]]|[msg [e' [E He']]]].
  - left. exists v. eexists. unfold call. rewrite E. split; [reflexivity|].
    now apply advance_call.
  - right. exists msg. eexists. unfold call. rewrite E.
    split; [reflexivity|]. now apply advance_call.
Qed.

Lemma sleep_advance secs (w : World Client ext) :
  I (env w) ->
  exists w', sleep lib secs w = (Ret tt, w') /\ advance I [] w w'.
Proof.
  intros Hw. eexists. split; [reflexivity|].
  apply advance_env. now apply (un_sleep HU).
Qed.

Lemma record_try_advance m (w : World Client ext) :
  I (env w) ->
  exists w', record (EvTry m) w = (Ret tt, w')
             /\ advance I [m] w w'
             /\ tries m (trace w') = S (tries m (trace w)).
Proof.
  intros Hw. eexists. split; [reflexivity|]. split.
  - repeat split; auto. intros m' Hm'. simpl.
    apply tries_try_other. intros ->. apply Hm'. now left.
  - simpl. apply tries_try_same.
Qed.

(** [connect] with a budget that is not negative ends: it sets the
    client, or raises the connectivity error. *)
Lemma connect_rounds_ends (n : nat) :
  forall (x : Z) (w : World Client ext),
    0 <= x -> (Z.to_nat x <= n)%nat -> I (env w) ->
    (exists w', connect_rounds lib n x w = (Ret true, w')
                /\ I (env w') /\ retry (self w') = retry (self w)
                /\ client (self w') <> None
                /\ same_tries [m_connect] w w')
    \/ (exists msg w',
          connect_rounds lib n x w = (Raise (WeaviateConnectionError msg), w')
          /\ advance I [m_connect] w w').
Proof.
  induction n as [|n IH]; intros x w Hx Hn Hw.
  - assert (x = 0) by lia. subst x. right. rewrite connect_rounds_zero.
    eexists; eexists; split; [reflexivity|]. now apply advance_refl.
  - destruct (Z.eqb_spec x 0) as [->|Hx0].
    { right. rewrite connect_rounds_zero.
      eexists; eexists; split; [reflexivity|]. now apply advance_refl. }
    cbn [connect_rounds]. destruct (Z.eqb_spec x 0) as [|_]; [contradiction|].
    destruct (record_try_advance m_connect w Hw) as [w1 [E1 [A1 _]]].
    rewrite (bind_ret _ E1).
    assert (H1 : I (env w1)) by apply A1.
    destruct (call_answered ApiConnect w1
                (un_connect HU (host (self w)) (port (self w))
                   (grpc_port (self w))) H1)
      as [[cl [w2 [E2 A2]]]|[msg [w2 [E2 A2]]]]; rewrite E2.
    + left. eexists. split; [reflexivity|].
      destruct A1 as [_ [B1 [_ D1]]]. destruct A2 as [Ia [B2 [_ D2]]].
      simpl. split; [exact Ia|]. split; [congruence|].
      split; [discriminate|].
      intros m Hm. simpl. rewrite (D2 m); auto.
    + cbn [is_connection_error].
      assert (H2 : I (env w2)) by apply A2.
      destruct (sleep_advance 1 w2 H2) as [w3 [E3 A3]].
      rewrite (bind_ret _ E3).
      assert (H3 : I (env w3)) by apply A3.
      assert (A13 : advance I [m_connect] w w3).
      { eapply advance_trans; [exact A1|].
        eapply advance_trans; eapply advance_incl; eauto;
          intros ? []. }
      destruct (IH (x - 1) w3 ltac:(lia) ltac:(lia) H3)
        as [[w4 [E4 [Ia [Ra [Ca Da]]]]]|[msg' [w4 [E4 A4]]]]; rewrite E4.
      * left. exists w4. split; [reflexivity|].
        destruct A13 as [_ [B [_ D]]].
        split; [exact Ia|]. split; [congruence|]. split; [exact Ca|].
        intros m Hm. rewrite (Da m Hm). now apply D.
      * right. exists msg', w4. split; [reflexivity|].
        eapply advance_trans; eauto.
Qed.

Variable R : Z.
Variable fuel : nat.
Hypothesis HR : 0 <= R.
Hypothesis Hfuel : (Z.to_nat R <= fuel)%nat.

Lemma connect_ends (w : World Client ext) :
  I (env w) -> retry (self w) = R ->
  (exists w', connect lib fuel w = (Ret true, w')
              /\ advance I [m_connect] w w'
              /\ client (self w') <> None)
  \/ (exists msg w',
        connect lib fuel w = (Raise (WeaviateConnectionError msg), w')
        /\ advance I [m_connect] w w').
Proof.
  intros Hw Hr. unfold connect, bind, get_self. rewrite Hr.
  destruct (@connect_rounds_ends fuel R w HR Hfuel Hw)
    as [[w' [E [A [B [C D]]]]]|[msg [w' [E A]]]].
  - left. exists w'. split; [exact E|]. split; [|exact C].
    split; [exact A|]. split; [exact B|]. split; [intros _; exact C|exact D].
  - right. eauto.
Qed.

Lemma ensure_connected_eq (n : nat) (w : World Client ext) :
  ensure_connected lib n w
  = match client (self w) with
    | None => (connect lib n ;;; ret tt) w
    | Some _ => (Ret tt, w)
    end.
Proof.
  unfold ensure_connected. unfold bind at 1, get_self. cbn beta iota.
  destruct (client (self w)); reflexivity.
Qed.

Lemma ensure_connected_ends (w : World Client ext) :
  I (env w) -> retry (self w) = R ->
  (exists w', ensure_connected lib fuel w = (Ret tt, w')
              /\ advance I [m_connect] w w'
              /\ client (self w') <> None)
  \/ (exists msg w',
        ensure_connected lib fuel w
        = (Raise (WeaviateConnectionError msg), w')
        /\ advance I [m_connect] w w').
Proof.
  intros Hw Hr. rewrite ensure_connected_eq.
  destruct (client (self w)) eqn:Ec.
  - left. exists w. split; [reflexivity|]. split; [now apply advance_refl|].
    congruence.
  - destruct (connect_ends w Hw Hr) as [[w' [E [A C]]]|[msg [w' [E A]]]].
    + left. exists w'. rewrite (bind_ret _ E). auto.
    + right. exists msg, w'. rewrite (bind_raise _ E). auto.
Qed.

Lemma the_client_set (w : World Client ext) :
  client (self w) <> None -> exists cl, the_client w = (Ret cl, w).
Proof.
  intros H. unfold the_client. destruct (client (self w)) as [cl|].
  - now exists cl.
  - contradiction.
Qed.

Lemma same_tries_own who L (w w' : World Client ext) :
  ~ In who L -> advance I L w w' ->
  tries who (trace w') = tries who (trace w).
Proof. intros Hn [_ [_ [_ D]]]. now apply D. Qed.

(** The retry loop around a body that fails with the connectivity error
    every time: the body runs at most [x] times and the loop raises the
    connectivity error. *)
Lemma retry_rounds_gives_up (S : Type) (who : method) (L : list method)
  (Q : S -> Prop) (body : M (S * World Client ext) unit) :
  ~ In who L -> who <> m_connect ->
  (forall s w, Q s -> I (env w) -> retry (self w) = R ->
     client (self w) <> None ->
     exists msg s' w',
       body (s, w) = (Raise (WeaviateConnectionError msg), (s', w'))
       /\ Q s' /\ advance I L w w') ->
  forall (n : nat) (x : Z) s w,
    0 <= x -> (Z.to_nat x <= n)%nat -> Q s -> I (env w) ->
    retry (self w) = R -> client (self w) <> None ->
    exists msg s' w',
      retry_rounds lib who (connect lib fuel) n x body (s, w)
      = (Raise (WeaviateConnectionError msg), (s', w'))
      /\ advance I (who :: m_connect :: L) w w'
      /\ (tries who (trace w') <= tries who (trace w) + Z.to_nat x)%nat.
Proof.
  intros HwhoL Hwhoc Hbody.
  assert (HwhoL' : ~ In who (m_connect :: L)).
  { intros [H|H]; [congruence|contradiction]. }
  induction n as [|n IH]; intros x s w Hx Hn Hq Hw Hr Hc.
  - assert (x = 0) by lia. subst x. rewrite retry_rounds_zero.
    eexists; eexists; eexists. split; [reflexivity|].
    split; [now apply advance_refl|lia].
  - destruct (Z.eqb_spec x 0) as [->|Hx0].
    { rewrite retry_rounds_zero.
      eexists; eexists; eexists. split; [reflexivity|].
      split; [now apply advance_refl|lia]. }
    cbn [retry_rounds]. destruct (Z.eqb_spec x 0) as [|_]; [contradiction|].
    destruct (record_try_advance who w Hw) as [w1 [E1 [A1 T1]]].
    rewrite (bind_ret _ (lift_run s E1)).
    destruct A1 as [I1 [R1 [C1 D1]]].
    destruct (Hbody s w1 Hq I1 ltac:(congruence) (C1 Hc))
      as [msg [s2 [w2 [E2 [Q2 A2]]]]].
    rewrite E2. cbn [is_connection_error].
    pose proof (@same_tries_own who L w1 w2 HwhoL A2) as T2.
    destruct A2 as [I2 [R2 [C2 D2]]].
    assert (A02 : advance I (who :: m_connect :: L) w w2).
    { split; [exact I2|]. split; [congruence|]. split; [auto|].
      intros m Hm. rewrite D2, D1; auto.
      - intros [H|[]]. apply Hm. now left.
      - intros H. apply Hm. right. now right. }
    destruct (connect_ends w2 I2 ltac:(congruence))
      as [[w3 [E3 [A3 C3]]]|[msg3 [w3 [E3 A3]]]].
    + rewrite (bind_ret _ (lift_run s2 E3)).
      assert (I3 : I (env w3)) by apply A3.
      destruct (sleep_advance 1 w3 I3) as [w4 [E4 A4]].
      rewrite (bind_ret _ (lift_run s2 E4)).
      assert (A34 : advance I (who :: m_connect :: L) w2 w4).
      { eapply advance_trans.
        - eapply advance_incl; [|exact A3].
          intros m [<-|[]]. right. now left.
        - eapply advance_incl; [|exact A4]. intros m []. }
      assert (A04 := advance_trans A02 A34).
      assert (T4 : tries who (trace w4) = tries who (trace w2)).
      { destruct A3 as [_ [_ [_ D3]]]. destruct A4 as [_ [_ [_ D4]]].
        rewrite D4 by (intros []). apply D3. intros [H|[]]. congruence. }
      destruct A04 as [I4 [R4 [C4 D4]]].
      destruct (IH (x - 1) s2 w4 ltac:(lia) ltac:(lia) Q2 I4
                  ltac:(congruence) (C4 Hc))
        as [msg' [s' [w' [E' [A' T']]]]].
      rewrite E'. exists msg', s', w'. split; [reflexivity|]. split.
      * eapply advance_trans; [|exact A'].
        split; [exact I4|]. split; [exact R4|]. split; assumption.
      * rewrite T4, T2, T1 in T'. lia.
    + rewrite (bind_raise _ (lift_run s2 E3)).
      exists msg3, s2, w3. split; [reflexivity|]. split.
      * eapply advance_trans; [exact A02|].
        eapply advance_incl; [|exact A3].
        intros m [<-|[]]. right. now left.
      * destruct A3 as [_ [_ [_ D3]]].
        rewrite D3 by (intros [H|[]]; congruence).
        rewrite T2, T1. lia.
Qed.

(** The shape shared by most operations: read the budget, connect if
    needed, run the retry loop. *)
Lemma guarded_loop_gives_up (S A : Type) (who : method) (L : list method)
  (Q : S -> Prop) (body : M (S * World Client ext) unit)
  (after : M (S * World Client ext) A) (init : S) :
  ~ In who L -> who <> m_connect -> Q init ->
  (forall s w, Q s -> I (env w) -> retry (self w) = R ->
     client (self w) <> None ->
     exists msg s' w',
       body (s, w) = (Raise (WeaviateConnectionError msg), (s', w'))
       /\ Q s' /\ advance I L w w') ->
  gives_up I R who (m_connect :: L)
    (with_locals init
       (d <- lift get_self ;;
        lift (ensure_connected lib fuel) ;;;
        retry_loop lib who fuel (retry d) body ;;;
        after)).
Proof.
  intros HwhoL Hwhoc Hq Hbody w Hw Hr.
  unfold with_locals, bind at 1, lift at 1, get_self. cbn [fst snd].
  destruct (ensure_connected_ends w Hw Hr)
    as [[w1 [E1 [A1 C1]]]|[msg [w1 [E1 A1]]]].
  - rewrite (bind_ret _ (lift_run init E1)).
    destruct A1 as [I1 [R1 [_ D1]]].
    destruct (@retry_rounds_gives_up S who L Q body HwhoL Hwhoc Hbody
                fuel R init w1 HR Hfuel Hq I1 ltac:(congruence) C1)
      as [msg [s' [w' [E' [A' T']]]]].
    unfold retry_loop. rewrite Hr, (bind_raise _ E'). cbn [snd].
    exists msg, w'. split; [reflexivity|]. split.
    + eapply advance_trans; [|exact A'].
      split; [exact I1|]. split; [exact R1|]. split; [auto|].
      intros m Hm. apply D1. intros [H|[]]. apply Hm. right. now left.
    + rewrite D1 in T' by (intros [H|[]]; congruence). exact T'.
  - rewrite (bind_raise _ (lift_run init E1)). cbn [snd].
    exists msg, w1. split; [reflexivity|]. split.
    + eapply advance_incl; [|exact A1]. intros m [<-|[]]. right. now left.
    + destruct A1 as [_ [_ [_ D1]]].
      rewrite D1 by (intros [H|[]]; congruence). lia.
Qed.

Lemma gives_up_incl (A : Type) who L L' (m : M (World Client ext) A) :
  incl L L' -> gives_up I R who L m -> gives_up I R who L' m.
Proof.
  intros Hi H w Hw Hr. destruct (H w Hw Hr) as [msg [w' [E [Adv T]]]].
  exists msg, w'. split; [exact E|]. split; [|exact T].
  eapply advance_incl; [|exact Adv].
  intros x [<-|Hx]; [now left|right; now apply Hi].
Qed.

(** A body that asks for its collection and then makes one data call. *)
Lemma get_then_refused (S A B : Type) (s : S) (w : World Client ext)
  (a : collarg Collection) (api2 : api)
  (f : Collection -> ext -> (exn + A) * ext)
  (k : A -> M (S * World Client ext) B) :
  P a -> (forall c, refuses I (f c)) ->
  I (env w) -> client (self w) <> None ->
  exists msg w',
    (cl <- lift the_client ;;
     c <- lift (call ApiGet (collections_get lib cl a)) ;;
     r <- lift (call api2 (f c)) ;;
     k r) (s, w)
    = (Raise (WeaviateConnectionError msg), (s, w'))
    /\ advance I [] w w'.
Proof.
  intros Ha Hf Hw Hc.
  destruct (the_client_set w Hc) as [cl Ecl].
  rewrite (bind_ret _ (lift_run s Ecl)).
  destruct (call_answered ApiGet w (un_get HU cl a Ha) Hw)
    as [[c [w1 [E1 A1]]]|[msg [w1 [E1 A1]]]].
  - rewrite (bind_ret _ (lift_run s E1)).
    assert (I1 : I (env w1)) by apply A1.
    destruct (call_refused api2 w1 (Hf c) I1) as [msg [w2 [E2 A2]]].
    rewrite (bind_raise _ (lift_run s E2)).
    exists msg, w2. split; [reflexivity|]. eapply advance_trans; eauto.
  - rewrite (bind_raise _ (lift_run s E1)). eauto.
Qed.

Lemma all_collections_gives_up :
  gives_up I R m_all_collections [m_connect] (all_collections lib fuel).
Proof.
  intros w Hw Hr. unfold all_collections, with_locals.
  destruct (ensure_connected_ends w Hw Hr)
    as [[w1 [E1 [A1 C1]]]|[msg [w1 [E1 A1]]]].
  - rewrite (bind_ret _ (lift_run [] E1)).
    unfold bind at 1, lift at 1, get_self. cbn [fst snd].
    destruct A1 as [I1 [R1 [_ D1]]].
    destruct (@retry_rounds_gives_up (list pystr) m_all_collections []
                (fun _ => True)
                (set_local [] ;;;
                 cl <- lift the_client ;;
                 collections <- lift (call ApiListAll
                                        (collections_list_all lib cl)) ;;
                 for_each collections
                   (fun i => c <- get_local ;; set_local (c ++ [i])))
                ltac:(intros []) ltac:(discriminate))
      with (n := fuel) (x := R) (s := @nil pystr) (w := w1)
      as [msg [s' [w' [E' [A' T']]]]]; auto; try congruence.
    { intros s w0 _ Hw0 _ Hc0.
      unfold bind at 1, set_local at 1. cbn [fst snd].
      destruct (the_client_set w0 Hc0) as [cl Ecl].
      rewrite (bind_ret _ (lift_run [] Ecl)).
      destruct (call_refused ApiListAll w0 (un_list_all HU cl) Hw0)
        as [msg [w2 [E2 A2]]].
      rewrite (bind_raise _ (lift_run [] E2)).
      exists msg, [], w2. auto. }
    unfold retry_loop. rewrite R1, Hr, (bind_raise _ E'). cbn [snd].
    exists msg, w'. split; [reflexivity|]. split.
    + eapply advance_trans; [|exact A'].
      split; [exact I1|]. split; [exact R1|]. split; [auto|].
      intros m Hm. apply D1. intros [H|[]]. apply Hm. right. now left.
    + rewrite D1 in T' by (intros [H|[]]; congruence). exact T'.
  - rewrite (bind_raise _ (lift_run [] E1)). cbn [snd].
    exists msg, w1. split; [reflexivity|]. split.
    + eapply advance_incl; [|exact A1]. intros m [<-|[]]. right. now left.
    + destruct A1 as [_ [_ [_ D1]]].
      rewrite D1 by (intros [H|[]]; congruence). lia.
Qed.

Lemma get_document_gives_up collection uuid :
  P (ArgName collection) ->
  gives_up I R m_get_document [m_connect]
    (get_document lib fuel collection uuid).
Proof.
  intros Ha. unfold get_document.
  apply guarded_loop_gives_up with (Q := fun _ => True) (L := []); auto.
  - discriminate.
  - intros s w _ Hw _ Hc.
    destruct (get_then_refused s w ApiFetchObjects
                (fun c => fetch_objects_by_id lib c uuid)
                (fun udocs =>
                   match udocs with
                   | [] => raise (IndexError
                                    (of_string "list index out of range"))
                   | o :: _ =>
                       set_local
                         (Some (document_of uuid (o_properties o)))
                   end)
                Ha (fun c => un_fetch HU c uuid) Hw Hc)
      as [msg [w' [E A]]].
    exists msg, s, w'. auto.
Qed.

Lemma now_advance (w : World Client ext) :
  I (env w) -> exists t w', now lib w = (Ret t, w') /\ advance I [] w w'.
Proof.
  intros Hw. unfold now.
  pose proof (un_time HU (env w) Hw) as Ht.
  destruct (time_time lib (env w)) as [t e']. simpl in Ht.
  exists t. eexists. split; [reflexivity|]. now apply advance_env.
Qed.

Lemma section_records_advance title doc_type filename content total chunks :
  forall ci dd (w : World Client ext), I (env w) ->
    exists dd' w',
      section_records lib title doc_type filename content total chunks ci
        dd w = (Ret dd', w')
      /\ advance I [] w w'.
Proof.
  induction chunks as [|chunk rest IH]; intros ci dd w Hw.
  - exists dd, w. split; [reflexivity|]. now apply advance_refl.
  - rewrite section_records_cons.
    destruct (now_advance w Hw) as [t [w1 [E1 A1]]].
    rewrite (bind_ret _ E1).
    assert (I1 : I (env w1)) by apply A1.
    destruct (IH (ci + 1)%nat
                (dd ++ [mkDocRecord
                          (title ++ (if (1 <? total)%nat
                                     then of_string " - Section "
                                            ++ str_of_nat (ci + 1)
                                            ++ of_string " of "
                                            ++ str_of_nat total
                                     else []))
                          (Some chunk) doc_type filename content t]) w1 I1)
      as [dd' [w' [E' A']]].
    exists dd', w'. split; [exact E'|]. eapply advance_trans; eauto.
Qed.

Lemma add_document_records_advance title doc_type filename chunk content
  (w : World Client ext) :
  (otruthy chunk || otruthy content) && truthy title && truthy doc_type
    && truthy filename = true ->
  I (env w) ->
  exists dd w',
    add_document_records lib title doc_type filename chunk content w
    = (Ret dd, w')
    /\ advance I [] w w'.
Proof.
  intros H Hw. apply andb_true_iff in H. destruct H as [H Hf].
  apply andb_true_iff in H. destruct H as [H Hd].
  apply andb_true_iff in H. destruct H as [H Ht].
  unfold add_document_records. rewrite Ht, Hd, Hf.
  assert (Hone : forall c text,
    exists dd w',
      (t <- now lib ;; ret [mkDocRecord title c doc_type filename text t]) w
      = (Ret dd, w') /\ advance I [] w w').
  { intros c text. destruct (now_advance w Hw) as [t [w1 [E A]]].
    rewrite (bind_ret _ E). eexists; eexists; split; [reflexivity|exact A]. }
  destruct (otruthy chunk) eqn:Ec; destruct (otruthy content) eqn:Eo;
    try discriminate; cbn [negb andb]; rewrite ?Ec, ?Eo; cbn [negb andb];
    unfold bind at 1, get_self at 1;
    try destruct (max_chunk_size (self w) >? 0); auto;
    apply section_records_advance; exact Hw.
Qed.

Lemma add_document_gives_up collection title doc_type filename chunk content :
  P (ArgName collection) ->
  (otruthy chunk || otruthy content) && truthy title && truthy doc_type
    && truthy filename = true ->
  gives_up I R m_add_document [m_connect]
    (add_document lib fuel collection title doc_type filename chunk content).
Proof.
  intros Ha Hv w Hw Hr. unfold add_document.
  destruct (add_document_records_advance title doc_type filename chunk
              content w Hv Hw) as [dd [w1 [E1 A1]]].
  rewrite (bind_ret _ E1).
  destruct A1 as [I1 [R1 [C1 D1]]].
  destruct (@guarded_loop_gives_up (option BatchReturn) (option BatchReturn)
              m_add_document [] (fun _ => True)
              (cl <- lift the_client ;;
               c <- lift (call ApiGet
                            (collections_get lib cl (ArgName collection))) ;;
               r <- lift (call ApiInsertMany (insert_many lib c dd)) ;;
               set_local (Some r))
              get_local None ltac:(intros []) ltac:(discriminate) Logic.I)
    with (w := w1) as [msg [w' [E' [A' T']]]]; auto; try congruence.
  { intros s w0 _ Hw0 _ Hc0.
    destruct (get_then_refused s w0 ApiInsertMany
                (fun c => insert_many lib c dd)
                (fun r => set_local (Some r))
                Ha (fun c => un_insert_many HU c dd) Hw0 Hc0)
      as [msg [w' [E A]]].
    exists msg, s, w'. auto. }
  exists msg, w'. split; [exact E'|]. split.
  - eapply advance_trans; [|exact A'].
    split; [exact I1|]. split; [exact R1|]. split; [exact C1|].
    intros m Hm. apply D1. intros [].
  - rewrite D1 in T' by (intros []). exact T'.
Qed.

Lemma iterate_refused c (w : World Client ext) :
  I (env w) ->
  exists objs msg w',
    iterate lib c w = (Ret (objs, Some (WeaviateConnectionError msg)), w')
    /\ advance I [] w w'.
Proof.
  intros Hw. destruct (un_iterator HU c (env w) Hw) as [objs [msg [e' [E He']]]].
  exists objs, msg. eexists. unfold iterate. rewrite E.
  split; [reflexivity|]. now apply advance_call.
Qed.

(** The [for] loop of [list_documents] files every object yielded. *)
Lemma for_each_listing (objs : list (Object timestamp)) :
  forall (col : collarg Collection) (docs : listing timestamp)
         (w : World Client ext),
    for_each objs
      (fun o =>
         '(collection, documents) <- get_local ;;
         set_local (collection, add_listing documents o))
      ((col, docs), w)
    = (Ret tt, ((col, fold_left (@add_listing timestamp) objs docs), w)).
Proof.
  induction objs as [|o objs IH]; intros col docs w; [reflexivity|].
  cbn [for_each fold_left]. unfold bind at 1.
  unfold bind at 1, get_local at 1, set_local at 1. cbn [fst snd].
  apply IH.
Qed.

Lemma list_documents_gives_up collection :
  P (match collection with None => ArgNone | Some n => ArgName n end) ->
  (forall c, P (ArgCollection c)) ->
  gives_up I R m_list_documents [m_connect]
    (list_documents lib fuel collection).
Proof.
  intros Ha Hobj. unfold list_documents.
  apply guarded_loop_gives_up with (Q := fun s => P (fst s)) (L := []); auto.
  - discriminate.
  - intros [col docs] w Hq Hw _ Hc. cbn [fst] in Hq.
    destruct (the_client_set w Hc) as [cl Ecl].
    rewrite (bind_ret _ (lift_run (col, docs) Ecl)).
    unfold bind at 1, get_local at 1. cbn [fst snd].
    destruct (call_answered ApiGet w (un_get HU cl col Hq) Hw)
      as [[c [w1 [E1 A1]]]|[msg [w1 [E1 A1]]]].
    + rewrite (bind_ret _ (lift_run (col, docs) E1)).
      unfold bind at 1, set_local at 1. cbn [fst snd].
      assert (I1 : I (env w1)) by apply A1.
      destruct (iterate_refused c w1 I1) as [objs [msg [w2 [E2 A2]]]].
      rewrite (bind_ret _ (lift_run (ArgCollection c, docs) E2)).
      cbn beta iota. rewrite (bind_ret _ (for_each_listing objs _ _ _)).
      unfold raise.
      exists msg. eexists. exists w2. split; [reflexivity|].
      split; [apply Hobj|]. eapply advance_trans; eauto.
    + rewrite (bind_raise _ (lift_run (col, docs) E1)).
      exists msg, (col, docs), w1. auto.
Qed.

Lemma delete_document_gives_up collection uuid filename :
  P (ArgName collection) ->
  (otruthy uuid = false -> forall c, P (ArgCollection c)) ->
  otruthy uuid || otruthy filename = true ->
  gives_up I R m_delete_document [m_connect; m_list_documents]
    (delete_document lib fuel collection uuid filename).
Proof.
  intros Ha Hobj Hsel. unfold delete_document.
  apply gives_up_incl with (L := m_connect :: [m_list_documents; m_connect]).
  { intros m [<-|[<-|[<-|[]]]]; simpl; auto. }
  apply guarded_loop_gives_up
    with (Q := fun _ => True) (L := [m_list_documents; m_connect]); auto.
  - intros [H|[H|[]]]; discriminate.
  - discriminate.
  - intros s w _ Hw Hr Hc.
    destruct (the_client_set w Hc) as [cl Ecl].
    rewrite (bind_ret _ (lift_run s Ecl)).
    destruct (call_answered ApiGet w
                (un_get HU cl (ArgName collection) Ha) Hw)
      as [[c [w1 [E1 A1]]]|[msg [w1 [E1 A1]]]].
    + rewrite (bind_ret _ (lift_run s E1)).
      assert (I1 : I (env w1)) by apply A1.
      destruct (otruthy uuid) eqn:Eu.
      * destruct (call_refused ApiDeleteById w1
                    (un_delete_by_id HU c
                       (match uuid with Some u => u | None => [] end)) I1)
          as [msg [w2 [E2 A2]]].
        rewrite (bind_raise _ (lift_run s E2)).
        exists msg, s, w2. split; [reflexivity|]. split; [exact Logic.I|].
        eapply advance_incl; [|eapply advance_trans; eauto].
        intros m [].
      * simpl in Hsel. rewrite Hsel.
        destruct (@list_documents_gives_up (Some collection) Ha
                    (Hobj eq_refl) w1 I1)
          as [msg [w2 [E2 [A2 _]]]].
        { destruct A1 as [_ [R1 _]]. congruence. }
        rewrite (bind_raise _ (lift_run s E2)).
        exists msg, s, w2. split; [reflexivity|]. split; [exact Logic.I|].
        eapply advance_trans.
        -- eapply advance_incl; [|exact A1]. intros m [].
        -- exact A2.
    + rewrite (bind_raise _ (lift_run s E1)).
      exists msg, s, w1. split; [reflexivity|]. split; [exact Logic.I|].
      eapply advance_incl; [|exact A1]. intros m [].
Qed.

Lemma update_document_gives_up
  collection uuid title doc_type filename chunk content :
  P (ArgName collection) -> truthy uuid = true ->
  gives_up I R m_update_document
    [m_connect; m_delete_document; m_list_documents]
    (update_document lib fuel collection uuid title doc_type filename chunk
       content).
Proof.
  intros Ha Hu. unfold update_document.
  apply gives_up_incl
    with (L := m_connect :: [m_delete_document; m_connect; m_list_documents]).
  { intros m [<-|[<-|[<-|[<-|[]]]]]; simpl; auto. }
  apply guarded_loop_gives_up
    with (Q := fun _ => True)
         (L := [m_delete_document; m_connect; m_list_documents]); auto.
  - intros [H|[H|[H|[]]]]; discriminate.
  - discriminate.
  - intros s w _ Hw Hr _.
    destruct (@delete_document_gives_up collection (Some uuid) None Ha)
      with (w := w) as [msg [w' [E [A _]]]]; auto.
    { simpl. rewrite Hu. discriminate. }
    { simpl. now rewrite Hu. }
    rewrite (bind_raise _ (lift_run s E)).
    exists msg, s, w'. auto.
Qed.

Lemma create_gives_up collection :
  gives_up I R m_create [m_connect; m_all_collections]
    (create lib fuel collection).
Proof.
  intros w Hw Hr. unfold create, bind at 1, get_self.
  destruct (ensure_connected_ends w Hw Hr)
    as [[w1 [E1 [A1 C1]]]|[msg [w1 [E1 A1]]]].
  - rewrite (bind_ret _ E1).
    destruct A1 as [I1 [R1 [K1 D1]]].
    destruct (all_collections_gives_up w1 I1 ltac:(congruence))
      as [msg [w2 [E2 [A2 _]]]].
    rewrite (bind_raise _ E2). exists msg, w2. split; [reflexivity|].
    destruct A2 as [I2 [R2 [K2 D2]]]. split.
    + split; [exact I2|]. split; [congruence|]. split; [auto|].
      intros m Hm. rewrite D2, D1; auto.
      * intros [H|[]]. apply Hm. right. now left.
      * intros [H|[H|[]]]; apply Hm; subst; simpl; auto.
    + rewrite D2, D1; [lia| |].
      * intros [H|[]]. discriminate.
      * intros [H|[H|[]]]; discriminate.
  - rewrite (bind_raise _ E1). exists msg, w1. split; [reflexivity|].
    destruct A1 as [I1 [R1 [K1 D1]]]. split.
    + split; [exact I1|]. split; [exact R1|]. split; [exact K1|].
      intros m Hm. apply D1. intros [H|[]]. apply Hm. right. now left.
    + rewrite D1; [lia|]. intros [H|[]]. discriminate.
Qed.

Lemma delete_gives_up collection :
  gives_up I R m_delete [m_connect; m_all_collections]
    (delete lib fuel collection).
Proof.
  intros w Hw Hr. unfold delete, bind at 1, get_self.
  destruct (ensure_connected_ends w Hw Hr)
    as [[w1 [E1 [A1 C1]]]|[msg [w1 [E1 A1]]]].
  - rewrite (bind_ret _ E1).
    destruct A1 as [I1 [R1 [K1 D1]]].
    destruct (all_collections_gives_up w1 I1 ltac:(congruence))
      as [msg [w2 [E2 [A2 _]]]].
    rewrite (bind_raise _ E2). exists msg, w2. split; [reflexivity|].
    destruct A2 as [I2 [R2 [K2 D2]]]. split.
    + split; [exact I2|]. split; [congruence|]. split; [auto|].
      intros m Hm. rewrite D2, D1; auto.
      * intros [H|[]]. apply Hm. right. now left.
      * intros [H|[H|[]]]; apply Hm; subst; simpl; auto.
    + rewrite D2, D1; [lia| |].
      * intros [H|[]]. discriminate.
      * intros [H|[H|[]]]; discriminate.
  - rewrite (bind_raise _ E1). exists msg, w1. split; [reflexivity|].
    destruct A1 as [I1 [R1 [K1 D1]]]. split.
    + split; [exact I1|]. split; [exact R1|]. split; [exact K1|].
      intros m Hm. apply D1. intros [H|[]]. apply Hm. right. now left.
    + rewrite D1; [lia|]. intros [H|[]]. discriminate.
Qed.

Lemma get_documents_gives_up collection uuid query filename num_results :
  P (ArgName collection) ->
  (otruthy uuid = false -> otruthy query = false ->
   forall c, P (ArgCollection c)) ->
  otruthy uuid || otruthy query || otruthy filename = true ->
  gives_up I R m_get_documents
    [m_connect; m_get_document; m_list_documents]
    (get_documents lib fuel collection uuid query filename num_results).
Proof.
  intros Ha Hobj Hsel w Hw Hr.
  unfold get_documents, with_locals, bind at 1, lift at 1, get_self.
  cbn [fst snd].
  destruct (ensure_connected_ends w Hw Hr)
    as [[w1 [E1 [A1 C1]]]|[msg [w1 [E1 A1]]]].
  - rewrite (bind_ret _ (lift_run [] E1)).
    destruct A1 as [I1 [R1 [K1 D1]]].
    assert (Hr1 : retry (self w1) = R) by congruence.
    assert (Hfin : forall msg s' w',
      advance I [m_get_documents; m_connect; m_get_document;
                 m_list_documents] w1 w' ->
      (tries m_get_documents (trace w')
       <= tries m_get_documents (trace w1) + Z.to_nat R)%nat ->
      exists msg0 w'0,
        (Raise (WeaviateConnectionError msg) : outcome (list (option (Document timestamp))),
         snd ((s', w') : list (option (Document timestamp)) * World Client ext))
        = (Raise (WeaviateConnectionError msg0), w'0)
        /\ advance I [m_get_documents; m_connect; m_get_document;
                      m_list_documents] w w'0
        /\ (tries m_get_documents (trace w'0)
            <= tries m_get_documents (trace w) + Z.to_nat R)%nat).
    { intros msg s' w' A' T'. exists msg, w'. split; [reflexivity|]. split.
      - eapply advance_trans; [|exact A'].
        split; [exact I1|]. split; [exact R1|]. split; [exact K1|].
        intros m Hm. apply D1. intros [H|[]]. apply Hm. right. now left.
      - rewrite D1 in T' by (intros [H|[]]; congruence). exact T'. }
    destruct (otruthy uuid) eqn:Eu.
    + destruct (@get_document_gives_up collection
                  (match uuid with Some u => u | None => [] end) Ha w1 I1 Hr1)
        as [msg [w2 [E2 [A2 _]]]].
      rewrite (bind_raise _ (bind_raise _ (lift_run [] E2))).
      apply Hfin.
      * eapply advance_incl; [|exact A2].
        intros m [<-|[<-|[]]]; simpl; auto.
      * destruct A2 as [_ [_ [_ D2]]].
        rewrite D2; [lia|]. intros [H|[H|[]]]; discriminate.
    + unfold bind at 1. unfold ret at 1.
      destruct (otruthy query) eqn:Eq.
      * destruct (@retry_rounds_gives_up (list (option (Document timestamp)))
                    m_get_documents [] (fun _ => True)
                    (cl <- lift the_client ;;
                     qdocs <- lift (call ApiGet
                                      (collections_get lib cl
                                         (ArgName collection))) ;;
                     r <- lift (call ApiNearText
                                  (near_text lib qdocs
                                     (match query with
                                      | Some q => q
                                      | None => []
                                      end) num_results)) ;;
                     for_each r
                       (fun i =>
                          dd <- get_local ;;
                          set_local
                            (dd ++ [Some (document_of (o_uuid i)
                                            (o_properties i))])))
                    ltac:(intros []) ltac:(discriminate))
          with (n := fuel) (x := R) (s := @nil (option (Document timestamp)))
               (w := w1)
          as [msg [s' [w' [E' [A' T']]]]]; auto.
        { intros s w0 _ Hw0 _ Hc0.
          destruct (get_then_refused s w0 ApiNearText
                      (fun c => near_text lib c
                                  (match query with
                                   | Some q => q
                                   | None => []
                                   end) num_results)
                      (fun r =>
                         for_each r
                           (fun i =>
                              dd <- get_local ;;
                              set_local
                                (dd ++ [Some (document_of (o_uuid i)
                                                (o_properties i))])))
                      Ha
                      (fun c => un_near_text HU c
                                  (match query with
                                   | Some q => q
                                   | None => []
                                   end) num_results) Hw0 Hc0)
            as [msg [w' [E A]]].
          exists msg, s, w'. auto. }
        unfold retry_loop. rewrite Hr, (bind_raise _ E').
        apply Hfin; [|exact T'].
        eapply advance_incl; [|exact A'].
        intros m [<-|[<-|[]]]; simpl; auto.
      * unfold bind at 1. unfold ret at 1.
        simpl in Hsel. rewrite Hsel.
        destruct (@list_documents_gives_up (Some collection) Ha
                    (Hobj eq_refl eq_refl) w1 I1 Hr1)
          as [msg [w2 [E2 [A2 _]]]].
        rewrite (bind_raise _ (bind_raise _ (lift_run [] E2))).
        apply Hfin.
        -- eapply advance_incl; [|exact A2].
           intros m [<-|[<-|[]]]; simpl; auto.
        -- destruct A2 as [_ [_ [_ D2]]].
           rewrite D2; [lia|]. intros [H|[H|[]]]; discriminate.
  - rewrite (bind_raise _ (lift_run [] E1)). cbn [snd].
    exists msg, w1. split; [reflexivity|]. split.
    + eapply advance_incl; [|exact A1]. intros m [<-|[]]. right. now left.
    + destruct A1 as [_ [_ [_ D1]]].
      rewrite D1 by (intros [H|[]]; congruence). lia.
Qed.

(** ** Counting the attempts *)

Lemma count_cons ev e tr :
  Budget.count ev (e :: tr) = (Budget.count ev tr + Budget.one e ev)%nat.
Proof.
  unfold Budget.count, Budget.one. cbn [filter].
  destruct (Budget.event_eqb ev e); simpl; lia.
Qed.

Lemma moves_refl B (w : World Client ext) :
  I (env w) -> Budget.moves I B w w.
Proof.
  intros H. split; [exact H|]. split; [reflexivity|]. split; [auto|].
  intros m. lia.
Qed.

Lemma moves_trans B1 B2 (w1 w2 w3 : World Client ext) :
  Budget.moves I B1 w1 w2 -> Budget.moves I B2 w2 w3 ->
  Budget.moves I (fun m => (B1 m + B2 m)%nat) w1 w3.
Proof.
  intros [A1 [R1 [C1 D1]]] [A2 [R2 [C2 D2]]].
  split; [exact A2|]. split; [congruence|]. split; [auto|].
  intros m. specialize (D1 m). specialize (D2 m). lia.
Qed.

Lemma moves_le B B' (w w' : World Client ext) :
  (forall m, (B m <= B' m)%nat) ->
  Budget.moves I B w w' -> Budget.moves I B' w w'.
Proof.
  intros Hle [A [B0 [C D]]].
  split; [exact A|]. split; [exact B0|]. split; [exact C|].
  intros m. specialize (D m). specialize (Hle m). lia.
Qed.

(** A step that leaves the trace as it is. *)
Lemma moves_quiet (w w' : World Client ext) :
  advance I [] w w' -> trace w' = trace w ->
  Budget.moves I Budget.nothing w w'.
Proof.
  intros [A [B [C D]]] Ht.
  split; [exact A|]. split; [exact B|]. split; [exact C|].
  intros ev. rewrite Ht. unfold Budget.nothing. lia.
Qed.

Lemma record_try_moves m (w : World Client ext) :
  I (env w) ->
  exists w', record (EvTry m) w = (Ret tt, w')
             /\ Budget.moves I (Budget.one (EvTry m)) w w'.
Proof.
  intros Hw. eexists. split; [reflexivity|].
  split; [exact Hw|]. split; [reflexivity|]. split; [auto|].
  intros ev. cbn [trace]. rewrite count_cons. lia.
Qed.

Lemma call_refused_moves (A : Type) a (f : ext -> (exn + A) * ext)
  (w : World Client ext) :
  refuses I f -> I (env w) ->
  exists msg w',
    call a f w = (Raise (WeaviateConnectionError msg), w')
    /\ Budget.moves I (Budget.one (EvCall a)) w w'.
Proof.
  intros Hf Hw. destruct (Hf _ Hw) as [msg [e' [E He']]].
  exists msg. eexists. unfold call. rewrite E. split; [reflexivity|].
  split; [exact He'|]. split; [reflexivity|]. split; [auto|].
  intros ev. cbn [trace]. rewrite count_cons. lia.
Qed.

Lemma call_answered_moves (A : Type) a (f : ext -> (exn + A) * ext)
  (w : World Client ext) :
  answers_or_refuses I f -> I (env w) ->
  (exists v w', call a f w = (Ret v, w')
                /\ Budget.moves I (Budget.one (EvCall a)) w w'
                /\ self w' = self w)
  \/ (exists msg w',
        call a f w = (Raise (WeaviateConnectionError msg), w')
        /\ Budget.moves I (Budget.one (EvCall a)) w w').
Proof.
  intros Hf Hw.
  assert (Hm : forall e', I e' ->
    Budget.moves I (Budget.one (EvCall a)) w
      (mkWorld (self w) e' (EvCall a :: trace w))).
  { intros e' He'. split; [exact He'|]. split; [reflexivity|].
    split; [auto|]. intros ev. cbn [trace]. rewrite count_cons. lia. }
  destruct (Hf _ Hw) as [[v [e' [E He']]]|[msg [e' [E He']]]].
  - left. exists v. eexists. unfold call. rewrite E.
    split; [reflexivity|]. split; [now apply Hm|reflexivity].
  - right. exists msg. eexists. unfold call. rewrite E.
    split; [reflexivity|]. now apply Hm.
Qed.

Lemma sleep_moves secs (w : World Client ext) :
  I (env w) ->
  exists w', sleep lib secs w = (Ret tt, w')
             /\ Budget.moves I Budget.nothing w w'.
Proof.
  intros Hw. eexists. split; [reflexivity|].
  split; [now apply (un_sleep HU)|]. split; [reflexivity|]. split; [auto|].
  intros ev. cbn [trace]. unfold Budget.nothing. lia.
Qed.

(** A body that asks for its collection and then makes one data call:
    one [collections.get] and at most one call. *)
Lemma get_then_refused_moves (S A B : Type) (s : S) (w : World Client ext)
  (a : collarg Collection) (api2 : api)
  (f : Collection -> ext -> (exn + A) * ext)
  (k : A -> M (S * World Client ext) B) :
  P a -> (forall c, refuses I (f c)) ->
  I (env w) -> client (self w) <> None ->
  exists msg w',
    (cl <- lift the_client ;;
     c <- lift (call ApiGet (collections_get lib cl a)) ;;
     r <- lift (call api2 (f c)) ;;
     k r) (s, w)
    = (Raise (WeaviateConnectionError msg), (s, w'))
    /\ Budget.moves I (Budget.get_and api2) w w'.
Proof.
  intros Ha Hf Hw Hc.
  destruct (the_client_set w Hc) as [cl Ecl].
  rewrite (bind_ret _ (lift_run s Ecl)).
  destruct (call_answered_moves ApiGet w (un_get HU cl a Ha) Hw)
    as [[c [w1 [E1 [M1 _]]]]|[msg [w1 [E1 M1]]]].
  - rewrite (bind_ret _ (lift_run s E1)).
    assert (I1 : I (env w1)) by apply M1.
    destruct (call_refused_moves api2 w1 (Hf c) I1) as [msg [w2 [E2 M2]]].
    rewrite (bind_raise _ (lift_run s E2)).
    exists msg, w2. split; [reflexivity|]. exact (moves_trans M1 M2).
  - rewrite (bind_raise _ (lift_run s E1)).
    exists msg, w1. split; [reflexivity|].
    eapply moves_le; [|exact M1].
    intros ev. unfold Budget.get_and. lia.
Qed.

(** [connect] with [x] rounds left makes at most [x] rounds. *)
Lemma connect_rounds_moves (n : nat) :
  forall (x : Z) (w : World Client ext),
    0 <= x -> (Z.to_nat x <= n)%nat -> I (env w) ->
    exists r w',
      connect_rounds lib n x w = (r, w')
      /\ Budget.moves I
           (fun ev => (Z.to_nat x * Budget.round ev)%nat) w w'
      /\ ((r = Ret true /\ client (self w') <> None)
          \/ exists msg, r = Raise (WeaviateConnectionError msg)).
Proof.
  induction n as [|n IH]; intros x w Hx Hn Hw.
  - assert (x = 0) by lia. subst x. rewrite connect_rounds_zero.
    eexists; eexists. split; [reflexivity|].
    split; [now apply moves_refl|]. right. eauto.
  - destruct (Z.eqb_spec x 0) as [->|Hx0].
    { rewrite connect_rounds_zero.
      eexists; eexists. split; [reflexivity|].
      split; [now apply moves_refl|]. right. eauto. }
    cbn [connect_rounds]. destruct (Z.eqb_spec x 0) as [|_]; [contradiction|].
    destruct (record_try_moves m_connect w Hw) as [w1 [E1 M1]].
    rewrite (bind_ret _ E1).
    assert (H1 : I (env w1)) by apply M1.
    destruct (call_answered_moves ApiConnect w1
                (un_connect HU (host (self w)) (port (self w))
                   (grpc_port (self w))) H1)
      as [[cl [w2 [E2 [A2 _]]]]|[msg [w2 [E2 A2]]]]; rewrite E2.
    + pose proof (moves_trans M1 A2) as M2.
      destruct M2 as [I2 [R2 [_ D2]]].
      eexists; eexists. split; [reflexivity|]. split.
      * split; [exact I2|]. split; [exact R2|].
        split; [intros _; discriminate|].
        intros ev. specialize (D2 ev). cbn [trace set_client fst snd].
        unfold Budget.round. cbv beta in D2.
        replace (Z.to_nat x) with (Datatypes.S (Z.to_nat (x - 1))) by lia.
        rewrite Nat.mul_succ_l. nia.
      * left. split; [reflexivity|]. discriminate.
    + cbn [is_connection_error].
      assert (H2 : I (env w2)) by apply A2.
      destruct (sleep_moves 1 w2 H2) as [w3 [E3 A3]].
      rewrite (bind_ret _ E3).
      assert (H3 : I (env w3)) by apply A3.
      destruct (IH (x - 1) w3 ltac:(lia) ltac:(lia) H3)
        as [r [w4 [E4 [M4 Hr]]]].
      rewrite E4. exists r, w4. split; [reflexivity|]. split; [|exact Hr].
      pose proof (moves_trans M1 (moves_trans A2 (moves_trans A3 M4))) as M.
      eapply moves_le; [|exact M].
      intros ev. unfold Budget.round, Budget.nothing.
      replace (Z.to_nat x) with (Datatypes.S (Z.to_nat (x - 1))) by lia.
      rewrite Nat.mul_succ_l. nia.
Qed.

Lemma connect_moves (w : World Client ext) :
  I (env w) -> retry (self w) = R ->
  exists r w',
    connect lib fuel w = (r, w')
    /\ Budget.moves I
         (fun ev => (Z.to_nat R * Budget.round ev)%nat) w w'
    /\ ((r = Ret true /\ client (self w') <> None)
        \/ exists msg, r = Raise (WeaviateConnectionError msg)).
Proof.
  intros Hw Hr. unfold connect, bind, get_self. rewrite Hr.
  exact (@connect_rounds_moves fuel R w HR Hfuel Hw).
Qed.

Lemma ensure_connected_moves (w : World Client ext) :
  I (env w) -> retry (self w) = R ->
  exists r w',
    ensure_connected lib fuel w = (r, w')
    /\ Budget.moves I
         (fun ev => (Z.to_nat R * Budget.round ev)%nat) w w'
    /\ ((r = Ret tt /\ client (self w') <> None)
        \/ exists msg, r = Raise (WeaviateConnectionError msg)).
Proof.
  intros Hw Hr. rewrite ensure_connected_eq.
  destruct (client (self w)) eqn:Ec.
  - exists (Ret tt), w. split; [reflexivity|].
    split; [now apply moves_refl|]. left. split; [reflexivity|]. congruence.
  - destruct (connect_moves w Hw Hr) as [r [w' [E [M [[-> C]|[msg ->]]]]]].
    + exists (Ret tt), w'. rewrite (bind_ret _ E). auto.
    + exists (Raise (WeaviateConnectionError msg)), w'.
      rewrite (bind_raise _ E). split; [reflexivity|]. split; [exact M|].
      right. eauto.
Qed.

(** The retry loop around a body that fails with the connectivity error
    every time: with [x] rounds left, at most [x] passes, each with the
    attempts of the body and one reconnect. *)
Lemma retry_rounds_moves (S : Type) (who : method) (B : event -> nat)
  (Q : S -> Prop) (body : M (S * World Client ext) unit) :
  (forall s w, Q s -> I (env w) -> retry (self w) = R ->
     client (self w) <> None ->
     exists msg s' w',
       body (s, w) = (Raise (WeaviateConnectionError msg), (s', w'))
       /\ Q s' /\ Budget.moves I B w w') ->
  forall (n : nat) (x : Z) s w,
    0 <= x -> (Z.to_nat x <= n)%nat -> Q s -> I (env w) ->
    retry (self w) = R -> client (self w) <> None ->
    exists msg s' w',
      retry_rounds lib who (connect lib fuel) n x body (s, w)
      = (Raise (WeaviateConnectionError msg), (s', w'))
      /\ Budget.moves I
           (fun ev => (Z.to_nat x
                       * (Budget.one (EvTry who) ev + B ev
                          + Z.to_nat R * Budget.round ev))%nat) w w'.
Proof.
  intros Hbody.
  induction n as [|n IH]; intros x s w Hx Hn Hq Hw Hr Hc.
  - assert (x = 0) by lia. subst x. rewrite retry_rounds_zero.
    eexists; eexists; eexists. split; [reflexivity|]. now apply moves_refl.
  - destruct (Z.eqb_spec x 0) as [->|Hx0].
    { rewrite retry_rounds_zero.
      eexists; eexists; eexists. split; [reflexivity|]. now apply moves_refl. }
    cbn [retry_rounds]. destruct (Z.eqb_spec x 0) as [|_]; [contradiction|].
    destruct (record_try_moves who w Hw) as [w1 [E1 M1]].
    rewrite (bind_ret _ (lift_run s E1)).
    destruct (Hbody s w1 Hq ltac:(apply M1)
                ltac:(destruct M1 as [_ [R1 _]]; congruence)
                ltac:(apply M1; exact Hc))
      as [msg [s2 [w2 [E2 [Q2 M2]]]]].
    rewrite E2. cbn [is_connection_error].
    pose proof (moves_trans M1 M2) as M02.
    destruct (connect_moves w2 ltac:(apply M2)
                ltac:(destruct M02 as [_ [R2 _]]; congruence))
      as [r [w3 [E3 [M3 [[-> C3]|[msg3 ->]]]]]].
    + rewrite (bind_ret _ (lift_run s2 E3)).
      assert (I3 : I (env w3)) by apply M3.
      destruct (sleep_moves 1 w3 I3) as [w4 [E4 A4]].
      rewrite (bind_ret _ (lift_run s2 E4)).
      pose proof (moves_trans M02 (moves_trans M3 A4)) as M04.
      destruct (IH (x - 1) s2 w4 ltac:(lia) ltac:(lia) Q2
                  ltac:(apply M04)
                  ltac:(destruct M04 as [_ [R4 _]]; congruence)
                  ltac:(apply M04; exact Hc))
        as [msg' [s' [w' [E' M']]]].
      rewrite E'. exists msg', s', w'. split; [reflexivity|].
      eapply moves_le; [|exact (moves_trans M04 M')].
      intros m. cbv beta. unfold Budget.nothing.
      replace (Z.to_nat x) with (Datatypes.S (Z.to_nat (x - 1))) by lia.
      cbn [Nat.mul]. lia.
    + rewrite (bind_raise _ (lift_run s2 E3)).
      exists msg3, s2, w3. split; [reflexivity|].
      eapply moves_le; [|exact (moves_trans M02 M3)].
      intros m. cbv beta.
      replace (Z.to_nat x) with (Datatypes.S (Z.to_nat (x - 1))) by lia.
      cbn [Nat.mul]. apply Nat.le_add_r.
Qed.

(** The shape shared by most operations: read the budget, connect if
    needed, run the retry loop. *)
Lemma guarded_loop_moves (S A : Type) (who : method) (B : event -> nat)
  (Q : S -> Prop) (body : M (S * World Client ext) unit)
  (after : M (S * World Client ext) A) (init : S) :
  Q init ->
  (forall s w, Q s -> I (env w) -> retry (self w) = R ->
     client (self w) <> None ->
     exists msg s' w',
       body (s, w) = (Raise (WeaviateConnectionError msg), (s', w'))
       /\ Q s' /\ Budget.moves I B w w') ->
  Budget.surrenders I R (Budget.guarded who B (Z.to_nat R))
    (with_locals init
       (d <- lift get_self ;;
        lift (ensure_connected lib fuel) ;;;
        retry_loop lib who fuel (retry d) body ;;;
        after)).
Proof.
  intros Hq Hbody w Hw Hr.
  unfold with_locals, bind at 1, lift at 1, get_self. cbn [fst snd].
  destruct (ensure_connected_moves w Hw Hr)
    as [r [w1 [E1 [M1 [[-> C1]|[msg ->]]]]]].
  - rewrite (bind_ret _ (lift_run init E1)).
    destruct (@retry_rounds_moves S who B Q body Hbody fuel R init w1 HR
                Hfuel Hq ltac:(apply M1)
                ltac:(destruct M1 as [_ [R1 _]]; congruence) C1)
      as [msg [s' [w' [E' M']]]].
    unfold retry_loop. rewrite Hr, (bind_raise _ E'). cbn [snd].
    exists msg, w'. split; [reflexivity|].
    eapply moves_le; [|exact (moves_trans M1 M')].
    intros m. unfold Budget.guarded. lia.
  - rewrite (bind_raise _ (lift_run init E1)). cbn [snd].
    exists msg, w1. split; [reflexivity|].
    eapply moves_le; [|exact M1].
    intros m. unfold Budget.guarded. lia.
Qed.

Lemma all_collections_surrenders :
  Budget.surrenders I R
    (Budget.guarded m_all_collections (Budget.one (EvCall ApiListAll)) (Z.to_nat R))
    (all_collections lib fuel).
Proof.
  intros w Hw Hr. unfold all_collections, with_locals.
  destruct (ensure_connected_moves w Hw Hr)
    as [r [w1 [E1 [M1 [[-> C1]|[msg ->]]]]]].
  - rewrite (bind_ret _ (lift_run [] E1)).
    unfold bind at 1, lift at 1, get_self. cbn [fst snd].
    assert (R1 : retry (self w1) = R)
      by (destruct M1 as [_ [R1 _]]; congruence).
    destruct (@retry_rounds_moves (list pystr) m_all_collections
                (Budget.one (EvCall ApiListAll)) (fun _ => True)
                (set_local [] ;;;
                 cl <- lift the_client ;;
                 collections <- lift (call ApiListAll
                                        (collections_list_all lib cl)) ;;
                 for_each collections
                   (fun i => c <- get_local ;; set_local (c ++ [i]))))
      with (n := fuel) (x := R) (s := @nil pystr) (w := w1)
      as [msg [s' [w' [E' M']]]]; auto; try apply M1.
    { intros s w0 _ Hw0 _ Hc0.
      unfold bind at 1, set_local at 1. cbn [fst snd].
      destruct (the_client_set w0 Hc0) as [cl Ecl].
      rewrite (bind_ret _ (lift_run [] Ecl)).
      destruct (call_refused_moves ApiListAll w0 (un_list_all HU cl) Hw0)
        as [msg [w2 [E2 A2]]].
      rewrite (bind_raise _ (lift_run [] E2)).
      exists msg, [], w2. split; [reflexivity|]. split; [exact Logic.I|].
      exact A2. }
    unfold retry_loop. rewrite R1, (bind_raise _ E'). cbn [snd].
    exists msg, w'. split; [reflexivity|].
    eapply moves_le; [|exact (moves_trans M1 M')].
    intros m. unfold Budget.guarded. lia.
  - rewrite (bind_raise _ (lift_run [] E1)). cbn [snd].
    exists msg, w1. split; [reflexivity|].
    eapply moves_le; [|exact M1].
    intros m. unfold Budget.guarded. lia.
Qed.

Lemma get_document_surrenders collection uuid :
  P (ArgName collection) ->
  Budget.surrenders I R
    (Budget.guarded m_get_document (Budget.get_and ApiFetchObjects) (Z.to_nat R))
    (get_document lib fuel collection uuid).
Proof.
  intros Ha. unfold get_document.
  apply guarded_loop_moves with (Q := fun _ => True); [exact Logic.I|].
  intros s w _ Hw _ Hc.
  destruct (get_then_refused_moves s w ApiFetchObjects
              (fun c => fetch_objects_by_id lib c uuid)
              (fun udocs =>
                 match udocs with
                 | [] => raise (IndexError
                                  (of_string "list index out of range"))
                 | o :: _ =>
                     set_local (Some (document_of uuid (o_properties o)))
                 end)
              Ha (fun c => un_fetch HU c uuid) Hw Hc)
    as [msg [w' [E A]]].
  exists msg, s, w'. split; [exact E|]. split; [exact Logic.I|exact A].
Qed.

Lemma add_document_surrenders collection title doc_type filename chunk
  content :
  P (ArgName collection) ->
  (otruthy chunk || otruthy content) && truthy title && truthy doc_type
    && truthy filename = true ->
  Budget.surrenders I R
    (Budget.guarded m_add_document (Budget.get_and ApiInsertMany) (Z.to_nat R))
    (add_document lib fuel collection title doc_type filename chunk content).
Proof.
  intros Ha Hv w Hw Hr. unfold add_document.
  destruct (add_document_records_advance title doc_type filename chunk
              content w Hv Hw) as [dd [w1 [E1 A1]]].
  assert (Ht : trace w1 = trace w).
  { destruct (add_document_records_passes lib title doc_type filename chunk
                content w Hv) as [dd' [w1' [E1' [_ Ht]]]].
    rewrite E1 in E1'. injection E1' as _ <-. exact Ht. }
  rewrite (bind_ret _ E1).
  pose proof (moves_quiet A1 Ht) as M1.
  destruct (@guarded_loop_moves (option BatchReturn) (option BatchReturn)
              m_add_document (Budget.get_and ApiInsertMany) (fun _ => True)
              (cl <- lift the_client ;;
               c <- lift (call ApiGet
                            (collections_get lib cl (ArgName collection))) ;;
               r <- lift (call ApiInsertMany (insert_many lib c dd)) ;;
               set_local (Some r))
              get_local None Logic.I)
    with (w := w1) as [msg [w' [E' M']]].
  { intros s w0 _ Hw0 _ Hc0.
    destruct (get_then_refused_moves s w0 ApiInsertMany
                (fun c => insert_many lib c dd)
                (fun r => set_local (Some r))
                Ha (fun c => un_insert_many HU c dd) Hw0 Hc0)
      as [msg [w' [E A]]].
    exists msg, s, w'. split; [exact E|]. split; [exact Logic.I|exact A]. }
  { apply M1. }
  { destruct M1 as [_ [R1 _]]. congruence. }
  exists msg, w'. split; [exact E'|].
  eapply moves_le; [|exact (moves_trans M1 M')].
  intros m. unfold Budget.nothing. lia.
Qed.

Lemma delete_document_surrenders collection uuid filename :
  P (ArgName collection) -> otruthy uuid = true ->
  Budget.surrenders I R
    (Budget.guarded m_delete_document (Budget.get_and ApiDeleteById) (Z.to_nat R))
    (delete_document lib fuel collection uuid filename).
Proof.
  intros Ha Hu. unfold delete_document.
  apply guarded_loop_moves with (Q := fun _ => True); [exact Logic.I|].
  intros s w _ Hw _ Hc. rewrite Hu.
  destruct (get_then_refused_moves s w ApiDeleteById
              (fun c => delete_by_id lib c
                          (match uuid with Some u => u | None => [] end))
              (fun r => set_local (Some r))
              Ha
              (fun c => un_delete_by_id HU c
                          (match uuid with Some u => u | None => [] end))
              Hw Hc)
    as [msg [w' [E A]]].
  exists msg, s, w'. split; [exact E|]. split; [exact Logic.I|exact A].
Qed.

Lemma update_document_surrenders
  collection uuid title doc_type filename chunk content :
  P (ArgName collection) -> truthy uuid = true ->
  Budget.surrenders I R
    (Budget.guarded m_update_document
       (Budget.guarded m_delete_document (Budget.get_and ApiDeleteById) (Z.to_nat R))
       (Z.to_nat R))
    (update_document lib fuel collection uuid title doc_type filename chunk
       content).
Proof.
  intros Ha Hu. unfold update_document.
  apply guarded_loop_moves with (Q := fun _ => True); [exact Logic.I|].
  intros s w _ Hw Hr _.
  destruct (@delete_document_surrenders collection (Some uuid) None Ha Hu
              w Hw Hr) as [msg [w' [E M]]].
  rewrite (bind_raise _ (lift_run s E)).
  exists msg, s, w'. auto.
Qed.

Lemma after_all_collections_surrenders (A : Type)
  (k : Documents Client -> list pystr -> M (World Client ext) A) :
  Budget.surrenders I R
    (fun m => (Z.to_nat R * Budget.round m
               + Budget.guarded m_all_collections (Budget.one (EvCall ApiListAll))
                   (Z.to_nat R) m)%nat)
    (d <- get_self ;;
     ensure_connected lib fuel ;;;
     collections <- all_collections lib fuel ;;
     k d collections).
Proof.
  intros w Hw Hr. unfold bind at 1, get_self.
  destruct (ensure_connected_moves w Hw Hr)
    as [r [w1 [E1 [M1 [[-> C1]|[msg ->]]]]]].
  - rewrite (bind_ret _ E1).
    destruct (all_collections_surrenders w1 ltac:(apply M1)
                ltac:(destruct M1 as [_ [R1 _]]; congruence))
      as [msg [w2 [E2 M2]]].
    rewrite (bind_raise _ E2). exists msg, w2. split; [reflexivity|].
    exact (moves_trans M1 M2).
  - rewrite (bind_raise _ E1). exists msg, w1. split; [reflexivity|].
    eapply moves_le; [|exact M1]. intros m. cbv beta. apply Nat.le_add_r.
Qed.

Lemma get_documents_surrenders collection uuid query filename num_results :
  P (ArgName collection) ->
  otruthy uuid || otruthy query = true ->
  Budget.surrenders I R
    (if otruthy uuid
     then fun m => (Z.to_nat R * Budget.round m
                    + Budget.guarded m_get_document (Budget.get_and ApiFetchObjects)
                        (Z.to_nat R) m)%nat
     else Budget.guarded m_get_documents (Budget.get_and ApiNearText) (Z.to_nat R))
    (get_documents lib fuel collection uuid query filename num_results).
Proof.
  intros Ha Hsel w Hw Hr.
  unfold get_documents, with_locals, bind at 1, lift at 1, get_self.
  cbn [fst snd].
  destruct (ensure_connected_moves w Hw Hr)
    as [r [w1 [E1 [M1 [[-> C1]|[msg ->]]]]]].
  - rewrite (bind_ret _ (lift_run [] E1)).
    assert (I1 : I (env w1)) by apply M1.
    assert (Hr1 : retry (self w1) = R)
      by (destruct M1 as [_ [R1 _]]; congruence).
    destruct (otruthy uuid) eqn:Eu.
    + destruct (@get_document_surrenders collection
                  (match uuid with Some u => u | None => [] end) Ha w1 I1 Hr1)
        as [msg [w2 [E2 M2]]].
      rewrite (bind_raise _ (bind_raise _ (lift_run [] E2))).
      exists msg, w2. split; [reflexivity|]. exact (moves_trans M1 M2).
    + unfold bind at 1. unfold ret at 1.
      simpl in Hsel. rewrite Hsel.
      destruct (@retry_rounds_moves (list (option (Document timestamp)))
                  m_get_documents (Budget.get_and ApiNearText)
                  (fun _ => True)
                  (cl <- lift the_client ;;
                   qdocs <- lift (call ApiGet
                                    (collections_get lib cl
                                       (ArgName collection))) ;;
                   r <- lift (call ApiNearText
                                (near_text lib qdocs
                                   (match query with
                                    | Some q => q
                                    | None => []
                                    end) num_results)) ;;
                   for_each r
                     (fun i =>
                        dd <- get_local ;;
                        set_local
                          (dd ++ [Some (document_of (o_uuid i)
                                          (o_properties i))]))))
        with (n := fuel) (x := R) (s := @nil (option (Document timestamp)))
             (w := w1)
        as [msg [s' [w' [E' M']]]]; auto.
      { intros s w0 _ Hw0 _ Hc0.
        destruct (get_then_refused_moves s w0 ApiNearText
                    (fun c => near_text lib c
                                (match query with
                                 | Some q => q
                                 | None => []
                                 end) num_results)
                    (fun r =>
                       for_each r
                         (fun i =>
                            dd <- get_local ;;
                            set_local
                              (dd ++ [Some (document_of (o_uuid i)
                                              (o_properties i))])))
                    Ha
                    (fun c => un_near_text HU c
                                (match query with
                                 | Some q => q
                                 | None => []
                                 end) num_results) Hw0 Hc0)
          as [msg [w' [E A]]].
        exists msg, s, w'. split; [exact E|]. split; [exact Logic.I|exact A]. }
      unfold retry_loop. rewrite Hr, (bind_raise _ E').
      exists msg, w'. split; [reflexivity|].
      eapply moves_le; [|exact (moves_trans M1 M')].
      intros m. unfold Budget.guarded. lia.
  - rewrite (bind_raise _ (lift_run [] E1)). cbn [snd].
    exists msg, w1. split; [reflexivity|].
    eapply moves_le; [|exact M1].
    intros m. destruct (otruthy uuid); unfold Budget.guarded; lia.
Qed.

End Exhaustion.







(** * The retry budget *)

Section RetryClaims.

Variables timestamp Client Collection BatchReturn ext : Type.
Variable lib : Weaviate timestamp Client Collection BatchReturn ext.

Ltac count_events :=
  let ev := fresh "ev" in
  let Rn := fresh "Rn" in
  intros ev;
  match goal with
  | |- context [Z.to_nat ?x] => generalize (Z.to_nat x); intros Rn
  end;
  destruct ev as [[]|[]];
  unfold Budget.events, Budget.attempts, Budget.remote_calls,
    Budget.reconnects;
  repeat match goal with
         | |- context [otruthy ?u] => destruct (otruthy u)
         end;
  unfold Budget.guarded, Budget.get_and, Budget.round, Budget.one,
    Budget.nothing;
  cbn [Budget.event_eqb is_try is_call method_eqb api_eqb]; nia.


(** C9, amended: with a budget of 0, every retry-wrapped operation whose
    arguments pass the checks made before its loop raises
    WeaviateConnectionError, whatever the state of the store, and leaves
    the trace as it was: no call into the client library, no pass
    through a [try] block.  ([add_document] checks its arguments before
    it looks at the budget, and [get_documents] without id, query and
    file name has nothing to do.) *)
Theorem C9_empty_budget_raises_before_any_call
  (o : operation) (fuel : nat) (w : World Client ext) :
  retry (self w) = 0 -> passes_checks o = true ->
  exists msg w',
    run lib fuel o w = (Raise (WeaviateConnectionError msg), w')
    /\ self w' = self w /\ trace w' = trace w.
Proof.
  intros H Hp.
  assert (Hend : forall (A : Type) (m : M (World Client ext) A)
                        (k : A -> M (World Client ext) (value timestamp BatchReturn)),
    (exists msg, m w = (Raise (WeaviateConnectionError msg), w)) ->
    exists msg w',
      bind m k w = (Raise (WeaviateConnectionError msg), w')
      /\ self w' = self w /\ trace w' = trace w).
  { intros A m k [msg E]. exists msg, w. unfold bind. rewrite E. auto. }
  destruct o as [|c|c|c|c u|c u q f n|c u f|c t dt f ch co|c u t dt f ch co];
    cbn [run].
  - apply Hend. now apply all_collections_no_budget.
  - apply Hend. now apply create_no_budget.
  - apply Hend. now apply delete_no_budget.
  - apply Hend. now apply list_documents_no_budget.
  - apply Hend. now apply get_document_no_budget.
  - apply Hend. now apply get_documents_no_budget.
  - apply Hend. now apply delete_document_no_budget.
  - cbn [passes_checks] in Hp.
    destruct (add_document_no_budget lib fuel c t dt f ch co w H Hp)
      as [msg [w' [E [A B]]]].
    exists msg, w'. unfold bind. rewrite E. auto.
  - apply Hend. now apply update_document_no_budget.
Qed.

End RetryClaims.

Section RetryExamples.

(** The in-memory store, once unreachable, refuses every data call;
    [collections.get] with a name still answers, as it does not reach
    the store. *)
Lemma mem_down_refuses :
  unreachable Mem.lib Ex.is_down (@Budget.by_name pystr).
Proof.
  unfold Ex.is_down.
  assert (G : forall (A : Type) (r : (exn + A) * Mem.store) e,
            Mem.reachable e = false ->
            exists msg e',
              Mem.guarded e r = (inl (WeaviateConnectionError msg), e')
              /\ Mem.reachable e' = false).
  { intros A r e He. unfold Mem.guarded. rewrite He.
    exists (of_string "connection refused"), e. auto. }
  constructor.
  - intros e He. exact He.
  - intros secs e He. exact He.
  - intros h p g e He. simpl. destruct (Mem.connectable e).
    + left. exists tt, e. auto.
    + right. exists (of_string "connection refused"), e. auto.
  - intros cl a Pa e He. destruct a as [|n|c]; simpl in Pa.
    + contradiction.
    + left. exists n, e. auto.
    + contradiction.
  - intros cl e He. apply G, He.
  - intros cl n e He. apply G, He.
  - intros cl n e He. apply G, He.
  - intros c e He. simpl. rewrite He.
    exists [], (of_string "connection refused"), e. auto.
  - intros c u e He. apply G, He.
  - intros c q n e He. apply G, He.
  - intros c u e He. apply G, He.
  - intros c dd e He. apply G, He.
Qed.



(** [add_document] against the same store, evaluated: three passes
    through the [try] block, each with one [insert_many] call, each
    followed by a reconnect. *)
Example add_document_three_attempts :
  let r := run Mem.lib 3 Ex.add_hello
             (Mem.world (Some tt) 3 MAX_CHUNK_SIZE Mem.down) in
  fst r = Raise (WeaviateConnectionError
                   (of_string "Unable to connect to Weaviate"))
  /\ tries m_add_document (trace (snd r)) = 3%nat
  /\ calls ApiInsertMany (trace (snd r)) = 3%nat
  /\ calls ApiConnect (trace (snd r)) = 3%nat.
Proof. vm_compute. auto. Qed.

(** [list_documents] passes the collection object to [collections.get]
    from the second attempt on; a library that accepts names only ends
    the operation there with its own error. *)
Example list_documents_second_attempt :
  fst (list_documents Mem.lib 3 (Some Ex.coll)
         (Mem.world None 2 MAX_CHUNK_SIZE Mem.down))
  = Raise (LibraryError (of_string "WeaviateInvalidInputError")).
Proof. reflexivity. Qed.

Lemma C9_witness :
  exists msg w',
    run Mem.lib 0 Ex.add_hello (Mem.world None 0 MAX_CHUNK_SIZE Mem.up)
    = (Raise (WeaviateConnectionError msg), w')
    /\ trace w' = [].
Proof.
  destruct (@C9_empty_budget_raises_before_any_call Z unit pystr nat
              Mem.store Mem.lib Ex.add_hello 0%nat
              (Mem.world None 0 MAX_CHUNK_SIZE Mem.up) eq_refl eq_refl)
    as [msg [w' [E [_ T]]]].
  exists msg, w'. split; [exact E|exact T].
Defined.

(** C9 as stated fails for [add_document]: called without content and
    with a budget of 0 it raises ValueError, not the connectivity
    error. *)
Lemma C9_counterexample :
  retry (self (Mem.world None 0 MAX_CHUNK_SIZE Mem.up)) = 0
  /\ run Mem.lib 1 Ex.add_nothing (Mem.world None 0 MAX_CHUNK_SIZE Mem.up)
     = (Raise (ValueError (of_string "Missing document content")),
        Mem.world None 0 MAX_CHUNK_SIZE Mem.up)
  /\ ~ exists msg w',
        run Mem.lib 1 Ex.add_nothing
          (Mem.world None 0 MAX_CHUNK_SIZE Mem.up)
        = (Raise (WeaviateConnectionError msg), w').
Proof.
  split; [reflexivity|]. split; [reflexivity|].
  intros [msg [w' H]]. discriminate H.
Qed.

End RetryExamples.

(** * Looking up and deleting documents that are not there *)

Section MissingDocuments.

Variables timestamp Client Collection BatchReturn ext : Type.
Variable lib : Weaviate timestamp Client Collection BatchReturn ext.

Lemma pystr_eqb_eq (a b : pystr) : PyStr.eqb a b = true <-> a = b.
Proof.
  unfold PyStr.eqb. destruct (list_eq_dec N.eq_dec a b); split; congruence.
Qed.

Lemma oeqb_neq (a : option pystr) (f : pystr) :
  a <> Some f -> oeqb a (Some f) = false.
Proof.
  intros H. destruct a as [x|]; [|reflexivity]. simpl.
  destruct (PyStr.eqb x f) eqn:E; [|reflexivity].
  apply pystr_eqb_eq in E. congruence.
Qed.

(** Assigning to a key adds at most that key. *)
Lemma dict_set_keys (K V : Type) (keqb : K -> K -> bool) (Pk : K -> Prop)
  (d : dict K V) (k : K) (v : V) :
  Forall (fun kv => Pk (fst kv)) d -> Pk k ->
  Forall (fun kv => Pk (fst kv)) (dict_set keqb d k v).
Proof.
  intros Hd Hk. induction Hd as [|[k' v'] d Hk' Hd IH]; simpl.
  - constructor; auto.
  - destruct (keqb k' k); constructor; auto.
Qed.

(** The keys of a listing are file names of the objects listed. *)
Lemma listing_keys (Pk : option pystr -> Prop)
  (objs : list (Object timestamp)) :
  forall docs : listing timestamp,
    Forall (fun kv => Pk (fst kv)) docs ->
    Forall (fun o => Pk (p_file (o_properties o))) objs ->
    Forall (fun kv => Pk (fst kv)) (fold_left (@add_listing timestamp) objs docs).
Proof.
  induction objs as [|o objs IH]; intros docs Hd Ho; simpl; [exact Hd|].
  inversion Ho as [|? ? Ho1 Ho2]; subst.
  apply IH; [|exact Ho2].
  unfold add_listing. apply dict_set_keys; [|exact Ho1].
  destruct (dict_get oeqb docs (p_file (o_properties o))); [exact Hd|].
  apply dict_set_keys; assumption.
Qed.

(** A [for] loop over a listing without the file name does nothing. *)
Lemma for_each_no_match (St : Type) (filename : option pystr)
  (inner : dict pystr (Summary timestamp) -> M St unit)
  (documents : listing timestamp) (st : St) :
  Forall (fun kv => oeqb (fst kv) filename = false) documents ->
  for_each documents
    (fun f_docs =>
       if oeqb (fst f_docs) filename then inner (snd f_docs) else ret tt) st
  = (Ret tt, st).
Proof.
  induction 1 as [|kv documents Hkv Hd IH]; [reflexivity|].
  cbn [for_each]. rewrite Hkv. unfold bind at 1, ret at 1. exact IH.
Qed.

Lemma connect_rounds_self (n : nat) :
  forall x (w : World Client ext) r w',
    connect_rounds lib n x w = (r, w') -> retry (self w') = retry (self w).
Proof.
  induction n as [|n IH]; intros x w r w' H.
  - simpl in H. destruct (x =? 0); injection H as <- <-; reflexivity.
  - cbn [connect_rounds] in H. destruct (x =? 0).
    { injection H as <- <-. reflexivity. }
    unfold bind at 1, record at 1, call at 1 in H. cbn [env self trace] in H.
    destruct (connect_to_local lib (host (self w)) (port (self w))
                (grpc_port (self w)) (env w)) as [[e|cl] e'].
    + destruct (is_connection_error e).
      * unfold bind, sleep in H. apply IH in H. exact H.
      * injection H as <- <-. reflexivity.
    + injection H as <- <-. reflexivity.
Qed.

Lemma ensure_connected_self (n : nat) (w w1 : World Client ext) r :
  ensure_connected lib n w = (r, w1) -> retry (self w1) = retry (self w).
Proof.
  rewrite ensure_connected_eq. destruct (client (self w)).
  - intros H. injection H as <- <-. reflexivity.
  - unfold bind at 1, connect, bind at 1, get_self.
    destruct (connect_rounds lib n (retry (self w)) w) as [r' w'] eqn:E.
    apply connect_rounds_self in E.
    destruct r'; intros H; injection H as <- <-; exact E.
Qed.

Lemma retry_rounds_first (S : Type) who rc (n : nat) (x : Z)
  (body : M (S * World Client ext) unit) st :
  x <> 0 ->
  retry_rounds lib who rc (Datatypes.S n) x body st
  = match (lift (record (EvTry who)) ;;; body) st with
    | (Ret _, st1) => (Ret tt, st1)
    | (Raise e, st1) =>
        if is_connection_error e
        then (lift rc ;;; lift (sleep lib 1) ;;;
              retry_rounds lib who rc n (x - 1) body) st1
        else (Raise e, st1)
    | (Diverge, st1) => (Diverge, st1)
    end.
Proof.
  intros Hx. cbn [retry_rounds].
  destruct (Z.eqb_spec x 0); [contradiction|reflexivity].
Qed.

Lemma ensure_connected_set (n : nat) (w : World Client ext) cl :
  client (self w) = Some cl -> ensure_connected lib n w = (Ret tt, w).
Proof. intros H. rewrite ensure_connected_eq, H. reflexivity. Qed.

Lemma the_client_is (w : World Client ext) cl :
  client (self w) = Some cl -> the_client w = (Ret cl, w).
Proof. intros H. unfold the_client. now rewrite H. Qed.

Lemma call_ret (A : Type) a (f : ext -> (exn + A) * ext)
  (w : World Client ext) v e' :
  f (env w) = (inr v, e') ->
  call a f w = (Ret v, mkWorld (self w) e' (EvCall a :: trace w)).
Proof. intros H. unfold call. now rewrite H. Qed.

(** A listing that succeeds at the first attempt. *)
Lemma list_documents_once (fuel : nat) (name : pystr)
  (w : World Client ext) cl c e1 objs e2 :
  retry (self w) <> 0 -> client (self w) = Some cl ->
  collections_get lib cl (ArgName name) (env w) = (inr c, e1) ->
  iterator lib c e1 = ((objs, None), e2) ->
  list_documents lib (S fuel) (Some name) w
  = (Ret (fold_left (@add_listing timestamp) objs []),
     mkWorld (self w) e2
       (EvCall ApiIterator :: EvCall ApiGet :: EvTry m_list_documents
          :: trace w)).
Proof.
  intros Hx Hc Hget Hit.
  unfold list_documents, with_locals, bind at 1, lift at 1, get_self.
  cbn [fst snd].
  rewrite (bind_ret _ (lift_run _ (ensure_connected_set (S fuel) w Hc))).
  unfold retry_loop. unfold bind at 1.
  rewrite retry_rounds_first by exact Hx.
  match goal with
  | |- context [bind (lift (record (EvTry m_list_documents))) ?k ?st] =>
      assert (Hb : bind (lift (record (EvTry m_list_documents))) k st
                   = (Ret tt,
                      ((ArgCollection c,
                        fold_left (@add_listing timestamp) objs []),
                       mkWorld (self w) e2
                         (EvCall ApiIterator :: EvCall ApiGet
                            :: EvTry m_list_documents :: trace w))))
  end.
  { unfold bind at 1, lift at 1, record at 1. cbn [fst snd self env trace].
    unfold bind at 1, lift at 1, the_client at 1. cbn [fst snd self].
    rewrite Hc.
    unfold bind at 1, get_local at 1. cbn [fst snd].
    unfold bind at 1, lift at 1, call at 1. cbn [fst snd self env trace].
    rewrite Hget.
    unfold bind at 1, set_local at 1. cbn [fst snd].
    unfold bind at 1, lift at 1, iterate at 1. cbn [fst snd self env trace].
    rewrite Hit.
    rewrite (bind_ret _ (for_each_listing objs _ _ _)).
    reflexivity. }
  rewrite Hb. reflexivity.
Qed.

(** When the fetch by id answers with an empty result, [get_document]
    raises the IndexError of [udocs.objects[0]]; the error is not a
    connectivity error, so it is not retried. *)
Lemma get_document_empty_result (fuel : nat) (collection uuid : pystr)
  (w w1 : World Client ext) cl c e1 e2 :
  retry (self w) <> 0 ->
  ensure_connected lib (S fuel) w = (Ret tt, w1) ->
  client (self w1) = Some cl ->
  collections_get lib cl (ArgName collection) (env w1) = (inr c, e1) ->
  fetch_objects_by_id lib c uuid e1 = (inr [], e2) ->
  get_document lib (S fuel) collection uuid w
  = (Raise (IndexError (of_string "list index out of range")),
     mkWorld (self w1) e2
       (EvCall ApiFetchObjects :: EvCall ApiGet :: EvTry m_get_document
          :: trace w1)).
Proof.
  intros Hx Hens Hc Hget Hfetch.
  unfold get_document, with_locals, bind at 1, lift at 1, get_self.
  cbn [fst snd].
  rewrite (bind_ret _ (lift_run _ Hens)).
  unfold retry_loop. unfold bind at 1.
  rewrite retry_rounds_first by exact Hx.
  match goal with
  | |- context [bind (lift (record (EvTry m_get_document))) ?k ?st] =>
      assert (Hb : bind (lift (record (EvTry m_get_document))) k st
                   = (Raise (IndexError
                               (of_string "list index out of range")),
                      (None,
                       mkWorld (self w1) e2
                         (EvCall ApiFetchObjects :: EvCall ApiGet
                            :: EvTry m_get_document :: trace w1))))
  end.
  { unfold bind at 1, lift at 1, record at 1. cbn [fst snd self env trace].
    unfold bind at 1, lift at 1, the_client at 1. cbn [fst snd self].
    rewrite Hc.
    unfold bind at 1, lift at 1, call at 1. cbn [fst snd self env trace].
    rewrite Hget.
    unfold bind at 1, lift at 1, call at 1. cbn [fst snd self env trace].
    rewrite Hfetch. reflexivity. }
  rewrite Hb. reflexivity.
Qed.

Lemma retry_rounds_never_returns (S : Type) who rc
  (body : M (S * World Client ext) unit) :
  (forall st v st', body st <> (Ret v, st')) ->
  forall (n : nat) (x : Z) st v st',
    retry_rounds lib who rc n x body st <> (Ret v, st').
Proof.
  intros Hbody. induction n as [|n IH]; intros x st v st'.
  - simpl. destruct (x =? 0); discriminate.
  - cbn [retry_rounds]. destruct (x =? 0); [discriminate|].
    unfold bind at 1, lift at 1, record at 1. cbn [fst snd].
    match goal with
    | |- context [body ?s0] => destruct (body s0) as [[u|e|] st1] eqn:Eb
    end.
    + exfalso. exact (Hbody _ _ _ Eb).
    + destruct (is_connection_error e); [|discriminate].
      unfold bind at 1. destruct (lift rc st1) as [[b|e'|] st2];
        [|discriminate|discriminate].
      unfold bind at 1, lift at 1, sleep at 1. cbn [fst snd].
      apply IH.
    + discriminate.
Qed.

(** When no fetch for the id ever yields an object, [get_document] never
    returns: neither a record nor None. *)
Lemma get_document_unresolved_never_returns (fuel : nat)
  (collection uuid : pystr) :
  (forall c e objs e',
     fetch_objects_by_id lib c uuid e = (inr objs, e') -> objs = []) ->
  forall (w : World Client ext) d w',
    get_document lib fuel collection uuid w <> (Ret d, w').
Proof.
  intros Hempty w d w'.
  unfold get_document, with_locals, bind at 1, lift at 1, get_self.
  cbn [fst snd]. unfold bind at 1.
  destruct (lift (ensure_connected lib fuel) (None, w)) as [[u|e|] st1];
    [|destruct st1; discriminate|destruct st1; discriminate].
  unfold bind at 1, retry_loop.
  match goal with
  | |- context [retry_rounds lib ?who ?rc ?n ?x ?body ?st] =>
      destruct (retry_rounds lib who rc n x body st) as [[u'|e|] st2] eqn:Er;
        [|destruct st2; discriminate|destruct st2; discriminate];
      exfalso; revert Er; apply retry_rounds_never_returns
  end.
  intros [s w0] v st'.
  unfold bind at 1, lift at 1, the_client at 1. cbn [fst snd].
  destruct (client (self w0)); [|discriminate].
  unfold bind at 1, lift at 1, call at 1. cbn [fst snd].
  destruct (collections_get lib c (ArgName collection) (env w0))
    as [[e|h] e1]; [discriminate|].
  unfold bind at 1, lift at 1, call at 1. cbn [fst snd self env trace].
  destruct (fetch_objects_by_id lib h uuid e1) as [[e|objs] e2] eqn:Ef;
    [discriminate|].
  rewrite (Hempty _ _ _ _ Ef). discriminate.
Qed.

(** C8: [delete_document] for an id or a file name without a stored
    record, on a store that answers and with a budget that is not 0.
    By id: the store reports that nothing was deleted and that answer,
    False, is returned after this one call.  By file name: the listing
    has no entry for the name, no delete call is made and None is
    returned.  Neither raises. *)
Theorem C8_delete_of_missing_document_is_a_noop
  (fuel : nat) (collection : pystr) (uuid filename : option pystr)
  (w w1 : World Client ext) (cl : Client) (c : Collection) (e1 : ext) :
  retry (self w) <> 0 ->
  ensure_connected lib (S fuel) w = (Ret tt, w1) ->
  client (self w1) = Some cl ->
  collections_get lib cl (ArgName collection) (env w1) = (inr c, e1) ->
  (forall u e2,
     uuid = Some u -> truthy u = true ->
     delete_by_id lib c u e1 = (inr false, e2) ->
     delete_document lib (S fuel) collection uuid filename w
     = (Ret (Some false),
        mkWorld (self w1) e2
          (EvCall ApiDeleteById :: EvCall ApiGet
             :: EvTry m_delete_document :: trace w1)))
  /\ (forall f c' e2 objs e3,
        otruthy uuid = false -> filename = Some f -> truthy f = true ->
        collections_get lib cl (ArgName collection) e1 = (inr c', e2) ->
        iterator lib c' e2 = ((objs, None), e3) ->
        Forall (fun o => p_file (o_properties o) <> Some f) objs ->
        delete_document lib (S fuel) collection uuid filename w
        = (Ret None,
           mkWorld (self w1) e3
             (EvCall ApiIterator :: EvCall ApiGet
                :: EvTry m_list_documents :: EvCall ApiGet
                :: EvTry m_delete_document :: trace w1))).
Proof.
  intros Hx Hens Hc Hget.
  assert (Hx1 : retry (self w1) <> 0).
  { rewrite (ensure_connected_self _ _ Hens). exact Hx. }
  assert (Hstart : forall r w',
    (forall k st,
       st = (None : option bool,
             mkWorld (self w1) (env w1)
               (EvTry m_delete_document :: trace w1)) ->
       k = (fun cl0 : Client =>
              c0 <- lift (call ApiGet
                            (collections_get lib cl0 (ArgName collection))) ;;
              (if otruthy uuid then
                 r <- lift (call ApiDeleteById
                              (delete_by_id lib c0
                                 (match uuid with
                                  | Some u => u
                                  | None => []
                                  end))) ;;
                 set_local (Some r)
               else if otruthy filename then
                 documents <- lift (list_documents lib (S fuel)
                                      (Some collection)) ;;
                 for_each documents
                   (fun f_docs =>
                      if oeqb (fst f_docs) filename then
                        for_each (dict_keys (snd f_docs))
                          (fun u =>
                             r <- lift (call ApiDeleteById
                                          (delete_by_id lib c0 u)) ;;
                             set_local (Some r))
                      else ret tt)
               else raise (ValueError
                             (of_string "Missing document ID or filename")))) ->
       bind (lift the_client) k st = (Ret tt, (r, w'))) ->
    delete_document lib (S fuel) collection uuid filename w = (Ret r, w')).
  { intros r w' Hb.
    unfold delete_document, with_locals, bind at 1, lift at 1, get_self.
    cbn [fst snd].
    rewrite (bind_ret _ (lift_run _ Hens)).
    unfold retry_loop. unfold bind at 1.
    rewrite retry_rounds_first by exact Hx.
    unfold bind at 1, lift at 1, record at 1. cbn [fst snd self env trace].
    erewrite Hb; reflexivity. }
  split.
  - intros u e2 -> Hu Hdel. apply Hstart. intros k st -> ->.
    unfold bind at 1, lift at 1, the_client at 1. cbn [fst snd self].
    rewrite Hc.
    unfold bind at 1, lift at 1, call at 1. cbn [fst snd self env trace].
    rewrite Hget. cbn [otruthy]. rewrite Hu.
    unfold bind at 1, lift at 1, call at 1. cbn [fst snd self env trace].
    rewrite Hdel. reflexivity.
  - intros f c' e2 objs e3 Hu -> Hf Hget' Hit Hobjs.
    apply Hstart. intros k st -> ->.
    unfold bind at 1, lift at 1, the_client at 1. cbn [fst snd self].
    rewrite Hc.
    unfold bind at 1, lift at 1, call at 1. cbn [fst snd self env trace].
    rewrite Hget. rewrite Hu. cbn [otruthy]. rewrite Hf.
    unfold bind at 1, lift at 1. cbn [fst snd].
    erewrite list_documents_once; eauto.
    rewrite (@for_each_no_match _ (Some f)
               (fun d =>
                  for_each (dict_keys d)
                    (fun u =>
                       r <- lift (call ApiDeleteById (delete_by_id lib c u)) ;;
                       set_local (Some r)))); [reflexivity|].
    apply (@listing_keys (fun k => oeqb k (Some f) = false));
      [constructor|].
    eapply Forall_impl; [|exact Hobjs].
    intros o Ho. now apply oeqb_neq.
Qed.

End MissingDocuments.



Section MissingExamples.

Lemma C8_witness :
  fst (delete_document Mem.lib 1 Ex.coll (Some Ex.nope) None Ex.fresh)
  = Ret (Some false)
  /\ fst (delete_document Mem.lib 1 Ex.coll None (Some Ex.nope_txt) Ex.fresh)
     = Ret None
  /\ Mem.objects
       (env (snd (delete_document Mem.lib 1 Ex.coll None (Some Ex.nope_txt)
                    Ex.fresh)))
     = Mem.stored.
Proof.
  assert (Hx : retry (self Ex.fresh) <> 0) by discriminate.
  assert (Hens : ensure_connected Mem.lib 1 Ex.fresh = (Ret tt, Ex.connected))
    by reflexivity.
  assert (Hc : client (self Ex.connected) = Some tt) by reflexivity.
  assert (Hget : collections_get Mem.lib tt (ArgName Ex.coll)
                   (env Ex.connected) = (inr Ex.coll, Mem.up))
    by reflexivity.
  destruct (@C8_delete_of_missing_document_is_a_noop Z unit pystr nat
              Mem.store Mem.lib 0%nat Ex.coll (Some Ex.nope) None
              Ex.fresh Ex.connected tt Ex.coll Mem.up Hx Hens Hc Hget)
    as [Hid _].
  destruct (@C8_delete_of_missing_document_is_a_noop Z unit pystr nat
              Mem.store Mem.lib 0%nat Ex.coll None (Some Ex.nope_txt)
              Ex.fresh Ex.connected tt Ex.coll Mem.up Hx Hens Hc Hget)
    as [_ Hfile].
  assert (Hobjs : Forall (fun o : Object Z =>
                            p_file (o_properties o) <> Some Ex.nope_txt)
                    (map snd Mem.stored))
    by (repeat constructor; discriminate).
  rewrite (Hid Ex.nope Mem.up eq_refl eq_refl eq_refl).
  rewrite (Hfile Ex.nope_txt Ex.coll Mem.up (map snd Mem.stored) Mem.up
             eq_refl eq_refl eq_refl eq_refl eq_refl Hobjs).
  repeat split.
Defined.

(** C1 (the code at the failing input): the store holds one object,
    "id-0"; fetching the id "nope" gives an empty result, and
    [get_document] raises IndexError, an error outside the
    specification's kinds and in particular not NotFound.  No record is
    returned. *)
Theorem C1_missing_id_raises_index_error :
  fetch_objects_by_id Mem.lib Ex.coll Ex.nope Mem.up = (inr [], Mem.up)
  /\ fst (get_document Mem.lib 1 Ex.coll Ex.nope Ex.fresh)
     = Raise (IndexError (of_string "list index out of range"))
  /\ error_kind (IndexError (of_string "list index out of range")) = None
  /\ ~ exists e,
        fst (get_document Mem.lib 1 Ex.coll Ex.nope Ex.fresh) = Raise e
        /\ error_kind e = Some NotFound.
Proof.
  assert (E : get_document Mem.lib 1 Ex.coll Ex.nope Ex.fresh
              = (Raise (IndexError (of_string "list index out of range")),
                 mkWorld (self Ex.connected) Mem.up
                   (EvCall ApiFetchObjects :: EvCall ApiGet
                      :: EvTry m_get_document :: trace Ex.connected))).
  { apply (@get_document_empty_result Z unit pystr nat Mem.store Mem.lib
             0%nat Ex.coll Ex.nope Ex.fresh Ex.connected tt Ex.coll
             Mem.up Mem.up); try reflexivity. discriminate. }
  split; [reflexivity|]. rewrite E. cbn [fst].
  split; [reflexivity|]. split; [reflexivity|].
  intros [e [He Hk]]. injection He as <-. discriminate Hk.
Qed.

End MissingExamples.

(** * Further properties: [connect] *)

Section ConnectFacts.

Variables timestamp Client Collection BatchReturn ext : Type.
Variable lib : Weaviate timestamp Client Collection BatchReturn ext.

Lemma connect_rounds_returns (n : nat) :
  forall x (w : World Client ext) b w',
    connect_rounds lib n x w = (Ret b, w') ->
    b = true /\ client (self w') <> None.
Proof.
  induction n as [|n IH]; intros x w b w' H.
  - simpl in H. destruct (x =? 0); discriminate.
  - cbn [connect_rounds] in H. destruct (x =? 0); [discriminate|].
    unfold bind at 1, record at 1, call at 1 in H. cbn [env self trace] in H.
    destruct (connect_to_local lib (host (self w)) (port (self w))
                (grpc_port (self w)) (env w)) as [[e|cl] e'].
    + destruct (is_connection_error e); [|discriminate].
      unfold bind, sleep in H. apply IH in H. exact H.
    + injection H as <- <-. split; [reflexivity|]. simpl. discriminate.
Qed.

(** X1: whenever [connect] returns, it returns True and the client is
    set; the [return False] after the loop is never reached. *)
Theorem connect_returns_true_with_client_set
  (fuel : nat) (w w' : World Client ext) (b : bool) :
  connect lib fuel w = (Ret b, w') ->
  b = true /\ client (self w') <> None.
Proof.
  unfold connect, bind, get_self. apply connect_rounds_returns.
Qed.

Lemma calls_call_same a tr : calls a (EvCall a :: tr) = S (calls a tr).
Proof. unfold calls. simpl. destruct a; reflexivity. Qed.

Lemma calls_try a m tr : calls a (EvTry m :: tr) = calls a tr.
Proof. reflexivity. Qed.

Lemma connect_rounds_refused (I : ext -> Prop) :
  Conn.endpoint_refuses lib I ->
  forall (n : nat) (x : Z) (w : World Client ext),
    0 <= x -> (Z.to_nat x <= n)%nat -> I (env w) ->
    exists w',
      connect_rounds lib n x w
      = (Raise (WeaviateConnectionError
                  (of_string "Unable to connect to Weaviate at "
                     ++ host (self w))), w')
      /\ self w' = self w /\ I (env w')
      /\ calls ApiConnect (trace w')
         = (calls ApiConnect (trace w) + Z.to_nat x)%nat.
Proof.
  intros [Href Hsleep]. induction n as [|n IH]; intros x w Hx Hn Hw.
  - assert (x = 0) by lia. subst x. rewrite connect_rounds_zero.
    exists w. repeat split; auto; simpl; lia.
  - destruct (Z.eqb_spec x 0) as [->|Hx0].
    { rewrite connect_rounds_zero. exists w. repeat split; auto; simpl; lia. }
    cbn [connect_rounds]. destruct (Z.eqb_spec x 0) as [|_]; [contradiction|].
    unfold bind at 1, record at 1, call at 1. cbn [env self trace].
    destruct (Href (host (self w)) (port (self w)) (grpc_port (self w))
                (env w) Hw) as [msg [e' [E He']]].
    rewrite E. cbn [is_connection_error].
    unfold bind at 1, sleep at 1. cbn [env self trace].
    destruct (IH (x - 1)
                (mkWorld (self w) (time_sleep lib 1 e')
                   (EvCall ApiConnect :: EvTry m_connect :: trace w))
                ltac:(lia) ltac:(lia) (Hsleep 1 e' He'))
      as [w' [E' [Hs [Hi Hc]]]].
    exists w'. cbn [self env trace] in *. rewrite E'.
    repeat split; auto.
    rewrite Hc, calls_call_same, calls_try. lia.
Qed.

(** X2: when the endpoint refuses every connection and the budget is
    R >= 0, [connect] raises the connectivity error naming the host after
    exactly R connection attempts, and leaves the object as it was (no
    client). *)
Theorem connect_gives_up_after_budget
  (I : ext -> Prop) (fuel : nat) (w : World Client ext) :
  Conn.endpoint_refuses lib I -> I (env w) ->
  0 <= retry (self w) -> (Z.to_nat (retry (self w)) <= fuel)%nat ->
  exists w',
    connect lib fuel w
    = (Raise (WeaviateConnectionError
                (of_string "Unable to connect to Weaviate at "
                   ++ host (self w))), w')
    /\ self w' = self w
    /\ calls ApiConnect (trace w')
       = (calls ApiConnect (trace w) + Z.to_nat (retry (self w)))%nat.
Proof.
  intros HI Hw HR Hf. unfold connect, bind, get_self.
  destruct (@connect_rounds_refused I HI fuel (retry (self w)) w HR Hf Hw)
    as [w' [E [A [_ C]]]].
  exists w'. auto.
Qed.

Lemma connect_rounds_negative (I : ext -> Prop) :
  Conn.endpoint_refuses lib I ->
  forall (n : nat) (x : Z) (w : World Client ext),
    x < 0 -> I (env w) -> fst (connect_rounds lib n x w) = Diverge.
Proof.
  intros [Href Hsleep]. induction n as [|n IH]; intros x w Hx Hw.
  - simpl. destruct (Z.eqb_spec x 0); [lia|reflexivity].
  - cbn [connect_rounds]. destruct (Z.eqb_spec x 0) as [|_]; [lia|].
    unfold bind at 1, record at 1, call at 1. cbn [env self trace].
    destruct (Href (host (self w)) (port (self w)) (grpc_port (self w))
                (env w) Hw) as [msg [e' [E He']]].
    rewrite E. cbn [is_connection_error].
    unfold bind at 1, sleep at 1. cbn [env self trace].
    apply IH; [lia|]. cbn [env]. now apply Hsleep.
Qed.

(** X3: with a negative budget [connect] never gives up: while the
    endpoint refuses, the loop is still running after any number of
    rounds ([x] moves away from 0). *)
Theorem connect_negative_budget_never_ends
  (I : ext -> Prop) (w : World Client ext) :
  Conn.endpoint_refuses lib I -> I (env w) -> retry (self w) < 0 ->
  forall fuel, fst (connect lib fuel w) = Diverge.
Proof.
  intros HI Hw HR fuel. unfold connect, bind, get_self.
  now apply (@connect_rounds_negative I HI).
Qed.

End ConnectFacts.

Section ConnectExamples.

Lemma mem_offline_refuses : Conn.endpoint_refuses Mem.lib Conn.is_offline.
Proof.
  split.
  - intros h p g e He. simpl. unfold Conn.is_offline in He. rewrite He.
    exists (of_string "connection refused"), e. auto.
  - intros secs e He. exact He.
Qed.

Lemma connect_returns_true_witness :
  connect Mem.lib 1 Ex.fresh = (Ret true, Ex.connected)
  /\ true = true /\ client (self Ex.connected) <> None.
Proof.
  assert (H : connect Mem.lib 1 Ex.fresh = (Ret true, Ex.connected))
    by reflexivity.
  split; [exact H|].
  exact (@connect_returns_true_with_client_set Z unit pystr nat Mem.store
           Mem.lib 1%nat Ex.fresh Ex.connected true H).
Defined.

Lemma connect_gives_up_witness :
  exists w',
    connect Mem.lib 3 (Mem.world None 3 MAX_CHUNK_SIZE Conn.offline)
    = (Raise (WeaviateConnectionError
                (of_string "Unable to connect to Weaviate at "
                   ++ of_string "localhost")), w')
    /\ calls ApiConnect (trace w') = 3%nat.
Proof.
  destruct (@connect_gives_up_after_budget Z unit pystr nat Mem.store Mem.lib
              Conn.is_offline 3%nat
              (Mem.world None 3 MAX_CHUNK_SIZE Conn.offline)
              mem_offline_refuses eq_refl ltac:(simpl; lia) ltac:(simpl; lia))
    as [w' [E [_ C]]].
  exists w'. split; [exact E|exact C].
Defined.

Lemma connect_never_ends_witness :
  fst (connect Mem.lib 50 (Mem.world None (-1) MAX_CHUNK_SIZE Conn.offline))
  = Diverge.
Proof.
  exact (@connect_negative_budget_never_ends Z unit pystr nat Mem.store
           Mem.lib Conn.is_offline
           (Mem.world None (-1) MAX_CHUNK_SIZE Conn.offline)
           mem_offline_refuses eq_refl eq_refl 50%nat).
Defined.

End ConnectExamples.

(** * Further properties: the chunker *)

Section ChunkerMore.

(** X4: a text longer than the maximum comes back, chunks put together,
    with every line boundary (CR LF, CR, ...) replaced by one LF and an LF
    after the last line, whether or not the text ended with one. *)
Theorem break_up_content_rewrites_line_ends (text : pystr) (max_size : Z) :
  len text > max_size ->
  List.concat (break_up_content text max_size) = joined (splitlines text).
Proof.
  intros H. unfold break_up_content.
  assert (E : (len text >? max_size) = true).
  { rewrite Z.gtb_ltb. apply Z.ltb_lt. lia. }
  rewrite E.
  pose proof (@chunk_loop_concat max_size (splitlines text) ([], [])) as Hc.
  destruct (chunk_loop max_size (splitlines text) ([], [])) as [result cur].
  cbn [fst snd] in Hc. rewrite concat_app. simpl. rewrite app_nil_r.
  exact Hc.
Qed.

Lemma break_up_content_rewrites_witness :
  len Greedy.mixed > 3
  /\ List.concat (break_up_content Greedy.mixed 3)
     = of_string "ab" ++ [LF] ++ of_string "cd" ++ [LF] ++ of_string "ef"
         ++ [LF].
Proof.
  assert (H : len Greedy.mixed > 3) by reflexivity.
  split; [exact H|].
  exact (@break_up_content_rewrites_line_ends Greedy.mixed 3 H).
Defined.

Lemma chunk_loop_count (max_size : Z) (lines : list pystr) :
  forall st,
    (List.length (fst (chunk_loop max_size lines st))
     <= List.length (fst st) + List.length lines)%nat.
Proof.
  unfold chunk_loop.
  induction lines as [|line lines IH]; intros [result cur]; simpl; [lia|].
  destruct (len cur + len line >? max_size).
  - etransitivity; [apply IH|]. simpl. rewrite length_app. simpl. lia.
  - etransitivity; [apply IH|]. simpl. lia.
Qed.

(** X5: the chunker returns at least one chunk and at most one more than
    the text has lines. *)
Theorem break_up_content_count (text : pystr) (max_size : Z) :
  (1 <= List.length (break_up_content text max_size)
   <= List.length (splitlines text) + 1)%nat.
Proof.
  unfold break_up_content. destruct (len text >? max_size).
  - pose proof (@chunk_loop_count max_size (splitlines text) ([], [])) as Hc.
    destruct (chunk_loop max_size (splitlines text) ([], [])) as [result cur].
    cbn [fst] in Hc. rewrite length_app. simpl in *. lia.
  - simpl. lia.
Qed.

Lemma chained_snoc (A : Type) (P : A -> A -> Prop) (l : list A) (x : A) :
  Greedy.chained P l ->
  (forall init c, l = init ++ [c] -> P c x) ->
  Greedy.chained P (l ++ [x]).
Proof.
  induction l as [|a l IH]; intros Hl Hlast; [exact Logic.I|].
  destruct l as [|b l].
  - simpl. split; [|exact Logic.I]. apply (Hlast [] a). reflexivity.
  - destruct Hl as [Hab Hl]. cbn [app Greedy.chained]. split; [exact Hab|].
    apply IH; [exact Hl|].
    intros init c E. apply (Hlast (a :: init) c). simpl. now rewrite E.
Qed.

Lemma greedy_step (max_size : Z) st line :
  no_break line -> Greedy.greedy_inv max_size st ->
  Greedy.greedy_inv max_size (chunk_step max_size st line).
Proof.
  intros Hline [Hch Hlast]. destruct st as [result cur].
  cbn [fst snd] in *. unfold chunk_step.
  destruct (len cur + len line >? max_size) eqn:E.
  - split; cbn [fst snd].
    + apply chained_snoc; assumption.
    + intros init c Hc. apply app_inj_tail in Hc. destruct Hc as [_ <-].
      exists line, []. split; [reflexivity|]. split; [exact Hline|].
      rewrite Z.gtb_ltb, Z.ltb_lt in E. lia.
  - split; cbn [fst snd]; [exact Hch|].
    intros init c Hc. destruct (Hlast init c Hc) as [l [rest [Hd [Hl Hlen]]]].
    exists l, (rest ++ line ++ [LF]). split; [|split; assumption].
    rewrite Hd. rewrite <- app_assoc. reflexivity.
Qed.

Lemma greedy_loop (max_size : Z) (lines : list pystr) :
  forall st, Forall no_break lines -> Greedy.greedy_inv max_size st ->
    Greedy.greedy_inv max_size (chunk_loop max_size lines st).
Proof.
  unfold chunk_loop.
  induction lines as [|line lines IH]; intros st Hl Hinv; simpl; [exact Hinv|].
  inversion Hl; subst. apply IH; [assumption|]. now apply greedy_step.
Qed.

(** X6: the chunker is greedy.  Every chunk that is followed by another
    one was closed because the first line of its successor would have
    taken it over the maximum. *)
Theorem break_up_content_is_greedy (text : pystr) (max_size : Z) :
  Greedy.chained (Greedy.closed_because_full max_size)
    (break_up_content text max_size).
Proof.
  unfold break_up_content. destruct (len text >? max_size); [|exact Logic.I].
  destruct (@greedy_loop max_size (splitlines text) ([], [])
              (splitlines_no_break text)) as [Hch Hlast].
  { split; [exact Logic.I|]. intros init c H. destruct init; discriminate. }
  destruct (chunk_loop max_size (splitlines text) ([], [])) as [result cur].
  cbn [fst snd] in *. apply chained_snoc; assumption.
Qed.

End ChunkerMore.

(** * Further properties: the document operations *)

Section OperationFacts.

Variables timestamp Client Collection BatchReturn ext : Type.
Variable lib : Weaviate timestamp Client Collection BatchReturn ext.

(** Building the records changes neither the object nor the trace. *)
Lemma add_document_records_self title doc_type filename chunk content
  (w : World Client ext) r w' :
  add_document_records lib title doc_type filename chunk content w = (r, w') ->
  self w' = self w /\ trace w' = trace w.
Proof.
  destruct ((otruthy chunk || otruthy content) && truthy title
            && truthy doc_type && truthy filename) eqn:Hv.
  - destruct (add_document_records_passes lib title doc_type filename chunk
                content w Hv) as [dd [w1 [E [A B]]]].
    rewrite E. intros H. injection H as <- <-. auto.
  - unfold add_document_records.
    destruct (otruthy chunk) eqn:Ec; destruct (otruthy content) eqn:Eo;
      cbn [negb andb orb] in *; rewrite ?Ec, ?Eo; cbn [negb andb];
      try (intros H; injection H as <- <-; auto; fail);
      rewrite Hv; cbn [negb]; intros H; injection H as <- <-; auto.
Qed.

Lemma add_document_invalid
  (fuel : nat) (collection title doc_type filename : pystr)
  (chunk content : option pystr) (w : World Client ext) :
  (otruthy chunk || otruthy content) && truthy title && truthy doc_type
    && truthy filename = false ->
  add_document lib fuel collection title doc_type filename chunk content w
  = (Raise (ValueError
              (if otruthy chunk || otruthy content
               then of_string "Missing document properties"
               else of_string "Missing document content")), w).
Proof.
  intros Hv. unfold add_document, bind at 1, add_document_records.
  destruct (otruthy chunk) eqn:Ec; destruct (otruthy content) eqn:Eo;
    cbn [negb andb orb] in *; rewrite ?Ec, ?Eo; cbn [negb andb];
    try reflexivity; rewrite Hv; reflexivity.
Qed.

(** X7: [add_document] checks its arguments before anything else.  When
    chunk and content are both missing or empty, or title, type or file
    name is empty, it raises ValueError and the world is untouched: no
    clock read, no connection, no call. *)
Theorem add_document_rejects_invalid_arguments
  (fuel : nat) (collection title doc_type filename : pystr)
  (chunk content : option pystr) (w : World Client ext) :
  (otruthy chunk || otruthy content) && truthy title && truthy doc_type
    && truthy filename = false ->
  add_document lib fuel collection title doc_type filename chunk content w
  = (Raise (ValueError
              (if otruthy chunk || otruthy content
               then of_string "Missing document properties"
               else of_string "Missing document content")), w).
Proof. apply add_document_invalid. Qed.

(** X8: a fragment given by the caller is stored as it is.  Exactly one
    record is built, whatever the maximum chunk size and the length of the
    texts; its chunk is the fragment and its content is the content given,
    or the fragment when no content was given. *)
Theorem add_document_keeps_given_fragment
  (title doc_type filename fragment : pystr) (content : option pystr)
  (w : World Client ext) :
  fragment <> [] -> title <> [] -> doc_type <> [] -> filename <> [] ->
  exists t w',
    add_document_records lib title doc_type filename (Some fragment) content w
    = (Ret [mkDocRecord title (Some fragment) doc_type filename
              (if otruthy content
               then match content with Some c => c | None => [] end
               else fragment) t], w').
Proof.
  intros Hc Ht Hd Hf. unfold add_document_records. cbn [otruthy].
  rewrite (truthy_nonempty Hc), (truthy_nonempty Ht), (truthy_nonempty Hd),
    (truthy_nonempty Hf). cbn [negb andb].
  destruct (now_returns lib w) as [t [w1 [E _]]].
  exists t, w1.
  destruct content as [c|]; cbn [otruthy]; [destruct (truthy c) eqn:Etc|];
    cbn [negb andb otruthy]; rewrite ?Etc, ?(truthy_nonempty Hc);
    cbn [negb andb]; unfold bind at 1, get_self at 1;
    rewrite (bind_ret _ E); reflexivity.
Qed.

(** The first pass through the [try] block of an operation. *)
Lemma guarded_loop_first_ret (S A : Type) (who : method)
  (body : M (S * World Client ext) unit)
  (after : M (S * World Client ext) A) (init : S) (fuel : nat)
  (w w1 : World Client ext) u st1 :
  retry (self w) <> 0 ->
  ensure_connected lib (Datatypes.S fuel) w = (Ret tt, w1) ->
  body (init, mkWorld (self w1) (env w1) (EvTry who :: trace w1))
  = (Ret u, st1) ->
  with_locals init
    (d <- lift get_self ;;
     lift (ensure_connected lib (Datatypes.S fuel)) ;;;
     retry_loop lib who (Datatypes.S fuel) (retry d) body ;;;
     after) w
  = (fst (after st1), snd (snd (after st1))).
Proof.
  intros Hx Hens Hb.
  unfold with_locals, bind at 1, lift at 1, get_self. cbn [fst snd].
  rewrite (bind_ret _ (lift_run _ Hens)).
  unfold retry_loop. unfold bind at 1.
  rewrite retry_rounds_first by exact Hx.
  unfold bind at 1, lift at 1, record at 1. cbn [fst snd self env trace].
  rewrite Hb. destruct (after st1) as [r st]. reflexivity.
Qed.

Lemma guarded_loop_first_raise (S A : Type) (who : method)
  (body : M (S * World Client ext) unit)
  (after : M (S * World Client ext) A) (init : S) (fuel : nat)
  (w w1 : World Client ext) e st1 :
  retry (self w) <> 0 ->
  ensure_connected lib (Datatypes.S fuel) w = (Ret tt, w1) ->
  body (init, mkWorld (self w1) (env w1) (EvTry who :: trace w1))
  = (Raise e, st1) ->
  is_connection_error e = false ->
  with_locals init
    (d <- lift get_self ;;
     lift (ensure_connected lib (Datatypes.S fuel)) ;;;
     retry_loop lib who (Datatypes.S fuel) (retry d) body ;;;
     after) w
  = (Raise e, snd st1).
Proof.
  intros Hx Hens Hb He.
  unfold with_locals, bind at 1, lift at 1, get_self. cbn [fst snd].
  rewrite (bind_ret _ (lift_run _ Hens)).
  unfold retry_loop. unfold bind at 1.
  rewrite retry_rounds_first by exact Hx.
  unfold bind at 1, lift at 1, record at 1. cbn [fst snd self env trace].
  rewrite Hb, He. reflexivity.
Qed.

(** X9: an error of the store that is not a connectivity error is not
    retried.  When [insert_many] raises it, [add_document] raises it after
    this one attempt: no reconnect, no second call, whatever the budget
    left. *)
Theorem add_document_does_not_retry_other_errors
  (fuel : nat) (collection title doc_type filename : pystr)
  (chunk content : option pystr) (w w0 w1 : World Client ext)
  (dd : list (DocRecord timestamp)) cl c e1 e e2 :
  retry (self w) <> 0 ->
  add_document_records lib title doc_type filename chunk content w
  = (Ret dd, w0) ->
  ensure_connected lib (S fuel) w0 = (Ret tt, w1) ->
  client (self w1) = Some cl ->
  collections_get lib cl (ArgName collection) (env w1) = (inr c, e1) ->
  insert_many lib c dd e1 = (inl e, e2) ->
  is_connection_error e = false ->
  add_document lib (S fuel) collection title doc_type filename chunk content w
  = (Raise e,
     mkWorld (self w1) e2
       (EvCall ApiInsertMany :: EvCall ApiGet :: EvTry m_add_document
          :: trace w1)).
Proof.
  intros Hx Hrec Hens Hc Hget Hins He.
  unfold add_document. rewrite (bind_ret _ Hrec).
  destruct (add_document_records_self _ _ _ _ _ _ Hrec) as [Hs _].
  eapply eq_trans.
  { eapply guarded_loop_first_raise; [|exact Hens| |exact He].
    - rewrite Hs. exact Hx.
    - unfold bind at 1, lift at 1, the_client at 1. cbn [fst snd self].
      rewrite Hc.
      unfold bind at 1, lift at 1, call at 1. cbn [fst snd self env trace].
      rewrite Hget.
      unfold bind at 1, lift at 1, call at 1. cbn [fst snd self env trace].
      rewrite Hins. reflexivity. }
  reflexivity.
Qed.

(** X10: [get_document] returns the first object of the fetch result,
    whatever follows it, as a record under the id that was asked for. *)
Theorem get_document_returns_first_object
  (fuel : nat) (collection uuid : pystr) (w w1 : World Client ext)
  cl c e1 (o : Object timestamp) rest e2 :
  retry (self w) <> 0 ->
  ensure_connected lib (S fuel) w = (Ret tt, w1) ->
  client (self w1) = Some cl ->
  collections_get lib cl (ArgName collection) (env w1) = (inr c, e1) ->
  fetch_objects_by_id lib c uuid e1 = (inr (o :: rest), e2) ->
  get_document lib (S fuel) collection uuid w
  = (Ret (Some (mkDocument uuid (p_file (o_properties o))
                  (p_title (o_properties o)) (p_chunk (o_properties o))
                  (p_doc_type (o_properties o)) (p_content (o_properties o))
                  (p_creation_time (o_properties o)))),
     mkWorld (self w1) e2
       (EvCall ApiFetchObjects :: EvCall ApiGet :: EvTry m_get_document
          :: trace w1)).
Proof.
  intros Hx Hens Hc Hget Hfetch.
  unfold get_document.
  eapply eq_trans.
  { eapply guarded_loop_first_ret; [exact Hx|exact Hens|].
    unfold bind at 1, lift at 1, the_client at 1. cbn [fst snd self].
    rewrite Hc.
    unfold bind at 1, lift at 1, call at 1. cbn [fst snd self env trace].
    rewrite Hget.
    unfold bind at 1, lift at 1, call at 1. cbn [fst snd self env trace].
    rewrite Hfetch. reflexivity. }
  reflexivity.
Qed.

(** X11: [delete_document] without an id and without a file name raises
    ValueError, but only from inside its retry loop: the client is
    connected and the collection object fetched first.  Nothing is
    deleted. *)
Theorem delete_document_needs_id_or_filename
  (fuel : nat) (collection : pystr) (uuid filename : option pystr)
  (w w1 : World Client ext) cl c e1 :
  retry (self w) <> 0 ->
  ensure_connected lib (S fuel) w = (Ret tt, w1) ->
  client (self w1) = Some cl ->
  collections_get lib cl (ArgName collection) (env w1) = (inr c, e1) ->
  otruthy uuid = false -> otruthy filename = false ->
  delete_document lib (S fuel) collection uuid filename w
  = (Raise (ValueError (of_string "Missing document ID or filename")),
     mkWorld (self w1) e1 (EvCall ApiGet :: EvTry m_delete_document
                             :: trace w1)).
Proof.
  intros Hx Hens Hc Hget Hu Hf.
  unfold delete_document.
  eapply eq_trans.
  { eapply guarded_loop_first_raise; [exact Hx|exact Hens| |].
    - unfold bind at 1, lift at 1, the_client at 1. cbn [fst snd self].
      rewrite Hc.
      unfold bind at 1, lift at 1, call at 1. cbn [fst snd self env trace].
      rewrite Hget, Hu, Hf. reflexivity.
    - reflexivity. }
  reflexivity.
Qed.

(** X12: [get_documents] without id, query and file name does nothing on
    a connected client: it returns the empty list without any call,
    whatever the budget, 0 included. *)
Theorem get_documents_without_selector
  (fuel : nat) (collection : pystr) (uuid query filename : option pystr)
  (num_results : Z) (w : World Client ext) cl :
  client (self w) = Some cl ->
  otruthy uuid = false -> otruthy query = false -> otruthy filename = false ->
  get_documents lib fuel collection uuid query filename num_results w
  = (Ret [], w).
Proof.
  intros Hc Hu Hq Hf.
  unfold get_documents, with_locals, bind at 1, lift at 1, get_self.
  cbn [fst snd].
  rewrite (bind_ret _ (lift_run _ (ensure_connected_set lib fuel w Hc))).
  rewrite Hu, Hq, Hf. reflexivity.
Qed.

Lemma for_each_append (A : Type) (xs : list A) :
  forall (acc : list A) (w : World Client ext),
    for_each xs (fun i => c <- get_local ;; set_local (c ++ [i])) (acc, w)
    = (Ret tt, (acc ++ xs, w)).
Proof.
  induction xs as [|x xs IH]; intros acc w.
  - simpl. now rewrite app_nil_r.
  - cbn [for_each]. unfold bind at 1.
    unfold bind at 1, get_local at 1, set_local at 1. cbn [fst snd].
    rewrite IH, <- app_assoc. reflexivity.
Qed.

Lemma all_collections_once (fuel : nat) (w : World Client ext) cl names e1 :
  retry (self w) <> 0 -> client (self w) = Some cl ->
  collections_list_all lib cl (env w) = (inr names, e1) ->
  all_collections lib (S fuel) w
  = (Ret names,
     mkWorld (self w) e1
       (EvCall ApiListAll :: EvTry m_all_collections :: trace w)).
Proof.
  intros Hx Hc Hlist. unfold all_collections, with_locals.
  rewrite (bind_ret _ (lift_run _ (ensure_connected_set lib (S fuel) w Hc))).
  unfold bind at 1, lift at 1, get_self. cbn [fst snd].
  unfold retry_loop. unfold bind at 1.
  rewrite retry_rounds_first by exact Hx.
  unfold bind at 1, lift at 1, record at 1. cbn [fst snd self env trace].
  unfold bind at 1, set_local at 1. cbn [fst snd].
  unfold bind at 1, lift at 1, the_client at 1. cbn [fst snd self].
  rewrite Hc.
  unfold bind at 1, lift at 1, call at 1. cbn [fst snd self env trace].
  rewrite Hlist. rewrite for_each_append. reflexivity.
Qed.

Lemma existsb_eqb_in (x : pystr) (l : list pystr) :
  existsb (PyStr.eqb x) l = true <-> In x l.
Proof.
  rewrite existsb_exists. split.
  - intros [y [Hy E]]. apply pystr_eqb_eq in E. now subst.
  - intros H. exists x. split; [exact H|]. now apply pystr_eqb_eq.
Qed.

(** X13: [create] looks for the title-cased name among the collections
    listed.  When it is there, [create] returns False and makes no create
    call; when it is not, it creates the collection under the name as it
    was given and returns True. *)
Theorem create_checks_title_cased_name
  (fuel : nat) (collection : pystr) (w : World Client ext) cl names e1 :
  retry (self w) <> 0 -> client (self w) = Some cl ->
  collections_list_all lib cl (env w) = (inr names, e1) ->
  (In (str_title lib collection) names ->
   create lib (S fuel) collection w
   = (Ret false,
      mkWorld (self w) e1
        (EvCall ApiListAll :: EvTry m_all_collections :: trace w)))
  /\ (~ In (str_title lib collection) names ->
      forall e2,
        collections_create lib cl collection e1 = (inr tt, e2) ->
        create lib (S fuel) collection w
        = (Ret true,
           mkWorld (self w) e2
             (EvCall ApiCreate :: EvTry m_create :: EvCall ApiListAll
                :: EvTry m_all_collections :: trace w))).
Proof.
  intros Hx Hc Hlist.
  assert (Hstart : create lib (S fuel) collection w
    = (if existsb (PyStr.eqb (str_title lib collection)) names
       then ret false
       else
         with_locals tt
           (retry_loop lib m_create (S fuel) (retry (self w))
              (cl0 <- lift the_client ;;
               lift (call ApiCreate (collections_create lib cl0 collection)))) ;;;
         ret true)
        (mkWorld (self w) e1
           (EvCall ApiListAll :: EvTry m_all_collections :: trace w))).
  { unfold create, bind at 1, get_self.
    rewrite (bind_ret _ (ensure_connected_set lib (S fuel) w Hc)).
    rewrite (bind_ret _ (all_collections_once fuel w Hx Hc Hlist)).
    reflexivity. }
  split.
  - intros Hin. rewrite Hstart.
    apply existsb_eqb_in in Hin. rewrite Hin. reflexivity.
  - intros Hnin e2 Hcreate. rewrite Hstart.
    destruct (existsb (PyStr.eqb (str_title lib collection)) names) eqn:E.
    { apply existsb_eqb_in in E. contradiction. }
    unfold bind at 1, with_locals, retry_loop.
    rewrite retry_rounds_first by exact Hx.
    unfold bind at 1, lift at 1, record at 1. cbn [fst snd self env trace].
    unfold bind at 1, lift at 1, the_client at 1. cbn [fst snd self].
    rewrite Hc.
    unfold lift at 1, call at 1. cbn [fst snd self env trace].
    rewrite Hcreate. reflexivity.
Qed.

(** X14: [delete] of a collection looks for the title-cased name in the
    same way.  When it is not listed, [delete] returns False and makes no
    delete call; when it is, the collection is deleted under the name as
    given and True is returned. *)
Theorem delete_checks_title_cased_name
  (fuel : nat) (collection : pystr) (w : World Client ext) cl names e1 :
  retry (self w) <> 0 -> client (self w) = Some cl ->
  collections_list_all lib cl (env w) = (inr names, e1) ->
  (~ In (str_title lib collection) names ->
   delete lib (S fuel) collection w
   = (Ret false,
      mkWorld (self w) e1
        (EvCall ApiListAll :: EvTry m_all_collections :: trace w)))
  /\ (In (str_title lib collection) names ->
      forall e2,
        collections_delete lib cl collection e1 = (inr tt, e2) ->
        delete lib (S fuel) collection w
        = (Ret true,
           mkWorld (self w) e2
             (EvCall ApiDelete :: EvTry m_delete :: EvCall ApiListAll
                :: EvTry m_all_collections :: trace w))).
Proof.
  intros Hx Hc Hlist.
  assert (Hstart : delete lib (S fuel) collection w
    = (if negb (existsb (PyStr.eqb (str_title lib collection)) names)
       then ret false
       else
         with_locals tt
           (retry_loop lib m_delete (S fuel) (retry (self w))
              (cl0 <- lift the_client ;;
               lift (call ApiDelete (collections_delete lib cl0 collection)))) ;;;
         ret true)
        (mkWorld (self w) e1
           (EvCall ApiListAll :: EvTry m_all_collections :: trace w))).
  { unfold delete, bind at 1, get_self.
    rewrite (bind_ret _ (ensure_connected_set lib (S fuel) w Hc)).
    rewrite (bind_ret _ (all_collections_once fuel w Hx Hc Hlist)).
    reflexivity. }
  split.
  - intros Hnin. rewrite Hstart.
    destruct (existsb (PyStr.eqb (str_title lib collection)) names) eqn:E.
    { apply existsb_eqb_in in E. contradiction. }
    reflexivity.
  - intros Hin e2 Hdel. rewrite Hstart.
    apply existsb_eqb_in in Hin. rewrite Hin. cbn [negb].
    unfold bind at 1, with_locals, retry_loop.
    rewrite retry_rounds_first by exact Hx.
    unfold bind at 1, lift at 1, record at 1. cbn [fst snd self env trace].
    unfold bind at 1, lift at 1, the_client at 1. cbn [fst snd self].
    rewrite Hc.
    unfold lift at 1, call at 1. cbn [fst snd self env trace].
    rewrite Hdel. reflexivity.
Qed.

Lemma delete_document_by_id (fuel : nat) (collection u : pystr)
  (filename : option pystr) (w w1 : World Client ext) cl c e1 (b : bool) e2 :
  retry (self w) <> 0 ->
  ensure_connected lib (S fuel) w = (Ret tt, w1) ->
  client (self w1) = Some cl ->
  collections_get lib cl (ArgName collection) (env w1) = (inr c, e1) ->
  truthy u = true ->
  delete_by_id lib c u e1 = (inr b, e2) ->
  delete_document lib (S fuel) collection (Some u) filename w
  = (Ret (Some b),
     mkWorld (self w1) e2
       (EvCall ApiDeleteById :: EvCall ApiGet :: EvTry m_delete_document
          :: trace w1)).
Proof.
  intros Hx Hens Hc Hget Hu Hdel. unfold delete_document.
  eapply eq_trans.
  { eapply guarded_loop_first_ret; [exact Hx|exact Hens|].
    unfold bind at 1, lift at 1, the_client at 1. cbn [fst snd self].
    rewrite Hc.
    unfold bind at 1, lift at 1, call at 1. cbn [fst snd self env trace].
    rewrite Hget. cbn [otruthy]. rewrite Hu.
    unfold bind at 1, lift at 1, call at 1. cbn [fst snd self env trace].
    rewrite Hdel. reflexivity. }
  reflexivity.
Qed.

(** X15: with an id, [delete_document] makes one delete call for that id
    and returns the store's answer; a file name given as well is ignored
    (no listing is made). *)
Theorem delete_document_prefers_id
  (fuel : nat) (collection u : pystr) (filename : option pystr)
  (w w1 : World Client ext) cl c e1 (b : bool) e2 :
  retry (self w) <> 0 ->
  ensure_connected lib (S fuel) w = (Ret tt, w1) ->
  client (self w1) = Some cl ->
  collections_get lib cl (ArgName collection) (env w1) = (inr c, e1) ->
  truthy u = true ->
  delete_by_id lib c u e1 = (inr b, e2) ->
  delete_document lib (S fuel) collection (Some u) filename w
  = (Ret (Some b),
     mkWorld (self w1) e2
       (EvCall ApiDeleteById :: EvCall ApiGet :: EvTry m_delete_document
          :: trace w1)).
Proof. apply delete_document_by_id. Qed.

(** X16: [update_document] is delete-then-add without a way back.  When
    the new fields do not pass the validation of [add_document], the
    stored object has already been deleted when ValueError is raised, and
    nothing is inserted. *)
Theorem update_document_deletes_before_it_validates
  (fuel : nat) (collection uuid title doc_type filename : pystr)
  (chunk content : option pystr) (w : World Client ext) cl c e1 (b : bool) e2 :
  retry (self w) <> 0 -> client (self w) = Some cl ->
  truthy uuid = true ->
  collections_get lib cl (ArgName collection) (env w) = (inr c, e1) ->
  delete_by_id lib c uuid e1 = (inr b, e2) ->
  (otruthy chunk || otruthy content) && truthy title && truthy doc_type
    && truthy filename = false ->
  update_document lib (S fuel) collection uuid title doc_type filename chunk
    content w
  = (Raise (ValueError
              (if otruthy chunk || otruthy content
               then of_string "Missing document properties"
               else of_string "Missing document content")),
     mkWorld (self w) e2
       (EvCall ApiDeleteById :: EvCall ApiGet :: EvTry m_delete_document
          :: EvTry m_update_document :: trace w)).
Proof.
  intros Hx Hc Hu Hget Hdel Hv. unfold update_document.
  eapply eq_trans.
  { eapply guarded_loop_first_raise;
      [exact Hx|exact (ensure_connected_set lib (S fuel) w Hc)| |].
    - set (w0 := mkWorld (self w) (env w) (EvTry m_update_document :: trace w)).
      assert (Hd : delete_document lib (S fuel) collection (Some uuid) None w0
                   = (Ret (Some b),
                      mkWorld (self w0) e2
                        (EvCall ApiDeleteById :: EvCall ApiGet
                           :: EvTry m_delete_document :: trace w0))).
      { apply (@delete_document_by_id fuel collection uuid None w0 w0 cl c e1
                 b e2); auto.
        apply (ensure_connected_set lib (S fuel) w0 Hc). }
      rewrite (bind_ret _ (lift_run _ Hd)).
      rewrite (bind_raise _ (lift_run _ (add_document_invalid (S fuel)
                 collection title doc_type filename chunk content _ Hv))).
      reflexivity.
    - reflexivity. }
  reflexivity.
Qed.

(** X17: one lost connection is survived.  When the first fetch of
    [get_document] fails with a connectivity error, the reconnect succeeds
    and the second fetch answers, the record is returned; the object now
    holds the new client.  This needs a budget other than 0 and 1: with a
    budget of 1 the loop ends after the first failure. *)
Theorem get_document_recovers_after_reconnect
  (fuel : nat) (collection uuid : pystr) (w : World Client ext)
  cl c e1 msg e2 cl' e3 c' e5 (o : Object timestamp) rest e6 :
  retry (self w) <> 0 -> retry (self w) <> 1 ->
  client (self w) = Some cl ->
  collections_get lib cl (ArgName collection) (env w) = (inr c, e1) ->
  fetch_objects_by_id lib c uuid e1 = (inl (WeaviateConnectionError msg), e2) ->
  connect_to_local lib (host (self w)) (port (self w)) (grpc_port (self w)) e2
  = (inr cl', e3) ->
  collections_get lib cl' (ArgName collection) (time_sleep lib 1 e3)
  = (inr c', e5) ->
  fetch_objects_by_id lib c' uuid e5 = (inr (o :: rest), e6) ->
  exists w',
    get_document lib (S (S fuel)) collection uuid w
    = (Ret (Some (document_of uuid (o_properties o))), w')
    /\ env w' = e6 /\ client (self w') = Some cl'
    /\ tries m_get_document (trace w')
       = (2 + tries m_get_document (trace w))%nat
    /\ calls ApiConnect (trace w') = (1 + calls ApiConnect (trace w))%nat.
Proof.
  intros Hx0 Hx1 Hc Hget1 Hf1 Hconn Hget2 Hf2.
  unfold get_document, with_locals, bind at 1, lift at 1, get_self.
  cbn [fst snd].
  rewrite (bind_ret _ (lift_run _
             (ensure_connected_set lib (S (S fuel)) w Hc))).
  unfold retry_loop. unfold bind at 1.
  rewrite retry_rounds_first by exact Hx0.
  unfold bind at 1, lift at 1, record at 1. cbn [fst snd self env trace].
  unfold bind at 1, lift at 1, the_client at 1. cbn [fst snd self].
  rewrite Hc.
  unfold bind at 1, lift at 1, call at 1. cbn [fst snd self env trace].
  rewrite Hget1.
  unfold bind at 1, lift at 1, call at 1. cbn [fst snd self env trace].
  rewrite Hf1. cbn [is_connection_error].
  unfold bind at 1, lift at 1, connect at 1, bind at 1, get_self at 1.
  cbn [fst snd self].
  cbn [connect_rounds]. destruct (Z.eqb_spec (retry (self w)) 0) as [|_];
    [contradiction|].
  unfold bind at 1, record at 1, call at 1. cbn [fst snd self env trace].
  rewrite Hconn.
  unfold bind at 1, set_client at 1. cbn [fst snd self env trace].
  unfold ret at 1.
  unfold bind at 1, lift at 1, sleep at 1. cbn [fst snd self env trace].
  rewrite retry_rounds_first by lia.
  unfold bind at 1, lift at 1, record at 1. cbn [fst snd self env trace].
  unfold bind at 1, lift at 1, the_client at 1.
  cbn [fst snd self client].
  unfold bind at 1, lift at 1, call at 1. cbn [fst snd self env trace].
  rewrite Hget2.
  unfold bind at 1, lift at 1, call at 1. cbn [fst snd self env trace].
  rewrite Hf2.
  eexists. split; [reflexivity|]. cbn [snd env self client trace].
  repeat split.
Qed.

End OperationFacts.




(** * Further properties: listings and deletion by file name *)

Section DictFacts.

Variables K V : Type.
Variable keqb : K -> K -> bool.
Hypothesis keqb_spec : forall a b, keqb a b = true <-> a = b.

Lemma keqb_refl k : keqb k k = true.
Proof. now apply keqb_spec. Qed.

Lemma keqb_neq a b : a <> b -> keqb a b = false.
Proof.
  intros H. destruct (keqb a b) eqn:E; [|reflexivity].
  apply keqb_spec in E. contradiction.
Qed.

Lemma dict_get_set_same (d : dict K V) k v :
  dict_get keqb (dict_set keqb d k v) k = Some v.
Proof.
  induction d as [|[k' v'] d IH]; simpl.
  - now rewrite keqb_refl.
  - destruct (keqb k' k) eqn:E; simpl; rewrite E; [reflexivity|exact IH].
Qed.

Lemma dict_get_set_other (d : dict K V) k v k' :
  k <> k' -> dict_get keqb (dict_set keqb d k v) k' = dict_get keqb d k'.
Proof.
  intros Hne. induction d as [|[a va] d IH]; simpl.
  - now rewrite keqb_neq.
  - destruct (keqb a k) eqn:E; simpl.
    + apply keqb_spec in E. subst a. now rewrite keqb_neq.
    + destruct (keqb a k'); [reflexivity|exact IH].
Qed.

Lemma dict_keys_set (d : dict K V) k v k' :
  In k' (dict_keys (dict_set keqb d k v)) <-> k' = k \/ In k' (dict_keys d).
Proof.
  unfold dict_keys. induction d as [|[a va] d IH]; simpl.
  - intuition.
  - destruct (keqb a k) eqn:E; simpl.
    + apply keqb_spec in E. subst a. intuition.
    + rewrite IH. intuition.
Qed.

Lemma dict_keys_set_nodup (d : dict K V) k v :
  NoDup (dict_keys d) -> NoDup (dict_keys (dict_set keqb d k v)).
Proof.
  unfold dict_keys. induction d as [|[a va] d IH]; simpl; intros Hnd.
  - constructor; [intros []|constructor].
  - inversion Hnd as [|? ? Hnin Hnd']; subst.
    destruct (keqb a k) eqn:E; simpl.
    + constructor; assumption.
    + constructor; [|now apply IH].
      intros Hin. apply (dict_keys_set d k v a) in Hin.
      destruct Hin as [->|Hin]; [|contradiction].
      rewrite keqb_refl in E. discriminate.
Qed.

Lemma dict_get_in_keys (d : dict K V) k v :
  dict_get keqb d k = Some v -> In k (dict_keys d).
Proof.
  unfold dict_keys. induction d as [|[a va] d IH]; simpl; [discriminate|].
  destruct (keqb a k) eqn:E.
  - apply keqb_spec in E. now left.
  - intros H. right. now apply IH.
Qed.

End DictFacts.

Section ListingFacts.

Variables timestamp Client Collection BatchReturn ext : Type.
Variable lib : Weaviate timestamp Client Collection BatchReturn ext.

Lemma option_eq_dec_pystr (a b : option pystr) : {a = b} + {a <> b}.
Proof. decide equality. apply (list_eq_dec N.eq_dec). Qed.

Lemma oeqb_spec (a b : option pystr) : oeqb a b = true <-> a = b.
Proof.
  destruct a as [x|], b as [y|]; simpl; try (split; congruence).
  rewrite pystr_eqb_eq. split; congruence.
Qed.

Lemma add_listing_listed (docs : listing timestamp) (o : Object timestamp)
  f u :
  listed (add_listing docs o) f u
  <-> listed docs f u
      \/ (f = p_file (o_properties o) /\ u = o_uuid o).
Proof.
  unfold listed, add_listing.
  set (fo := p_file (o_properties o)). set (uo := o_uuid o).
  set (sm := mkSummary (p_title (o_properties o))
               (p_doc_type (o_properties o))
               (p_creation_time (o_properties o))).
  destruct (oeqb_spec fo f) as [_ Hff].
  destruct (option_eq_dec_pystr fo f) as [<-|Hne].
  - rewrite (@dict_get_set_same _ _ _ oeqb_spec _ _ _).
    destruct (dict_get oeqb docs fo) as [inner0|] eqn:Eg.
    + rewrite Eg. split.
      * intros [inner [E Hin]]. injection E as <-.
        apply (@dict_keys_set _ _ _ pystr_eqb_eq _ _ _ _) in Hin.
        destruct Hin as [->|Hin]; [right; auto|left; eauto].
      * intros [[inner [E Hin]]|[_ ->]].
        -- injection E as <-. eexists. split; [reflexivity|].
           apply (@dict_keys_set _ _ _ pystr_eqb_eq _ _ _ _). now right.
        -- eexists. split; [reflexivity|].
           apply (@dict_keys_set _ _ _ pystr_eqb_eq _ _ _ _). now left.
    + rewrite (@dict_get_set_same _ _ _ oeqb_spec _ _ _). split.
      * intros [inner [E Hin]]. injection E as <-.
        simpl in Hin. destruct Hin as [<-|[]]. right; auto.
      * intros [[inner [E Hin]]|[_ ->]]; [discriminate|].
        eexists. split; [reflexivity|]. simpl. now left.
  - rewrite (@dict_get_set_other _ _ _ oeqb_spec _ _ _ _) by exact Hne.
    assert (Hsame : dict_get oeqb
                      match dict_get oeqb docs fo with
                      | Some _ => docs
                      | None => dict_set oeqb docs fo []
                      end f = dict_get oeqb docs f).
    { destruct (dict_get oeqb docs fo); [reflexivity|].
      now apply (@dict_get_set_other _ _ _ oeqb_spec _ _ _ _). }
    split.
    + intros [inner [E Hin]]. left. exists inner. split; [|exact Hin].
      exact (eq_trans (eq_sym Hsame) E).
    + intros [[inner [E Hin]]|[E _]]; [|congruence].
      exists inner. split; [|exact Hin]. exact (eq_trans Hsame E).
Qed.

Lemma fold_listing_listed (objs : list (Object timestamp)) :
  forall (docs : listing timestamp) f u,
    listed (fold_left (@add_listing timestamp) objs docs) f u
    <-> listed docs f u
        \/ exists o, In o objs /\ p_file (o_properties o) = f /\ o_uuid o = u.
Proof.
  induction objs as [|o objs IH]; intros docs f u; simpl.
  - split; [auto|]. intros [H|[o [[] _]]]. exact H.
  - rewrite IH, add_listing_listed. split.
    + intros [[H|[-> ->]]|[o' [Hin H]]].
      * now left.
      * right. exists o. auto.
      * right. exists o'. auto.
    + intros [H|[o' [[<-|Hin] [Hf Hu]]]].
      * left. now left.
      * left. right. auto.
      * right. exists o'. auto.
Qed.

Lemma dict_set_values (K V : Type) (keqb : K -> K -> bool) (Pv : V -> Prop)
  (d : dict K V) (k : K) (v : V) :
  Forall (fun kv => Pv (snd kv)) d -> Pv v ->
  Forall (fun kv => Pv (snd kv)) (dict_set keqb d k v).
Proof.
  intros Hd Hv. induction Hd as [|[k' v'] d Hk' Hd IH]; simpl.
  - constructor; auto.
  - destruct (keqb k' k); constructor; auto.
Qed.

Lemma dict_get_value (K V : Type) (keqb : K -> K -> bool) (Pv : V -> Prop)
  (d : dict K V) (k : K) (v : V) :
  Forall (fun kv => Pv (snd kv)) d -> dict_get keqb d k = Some v -> Pv v.
Proof.
  intros Hd. induction Hd as [|[k' v'] d Hk' Hd IH]; simpl; [discriminate|].
  destruct (keqb k' k); [|exact IH]. intros H. injection H as <-. exact Hk'.
Qed.

(** A listing well formed: every file name once, every id once under its
    file name. *)
Lemma add_listing_nodup (docs : listing timestamp) (o : Object timestamp) :
  NoDup (dict_keys docs)
  /\ Forall (fun kv => NoDup (dict_keys (snd kv))) docs ->
  NoDup (dict_keys (add_listing docs o))
  /\ Forall (fun kv => NoDup (dict_keys (snd kv))) (add_listing docs o).
Proof.
  intros [Hk Hv]. unfold add_listing.
  set (fo := p_file (o_properties o)).
  assert (H1 : NoDup (dict_keys match dict_get oeqb docs fo with
                                 | Some _ => docs
                                 | None => dict_set oeqb docs fo []
                                 end)
               /\ Forall (fun kv => NoDup (dict_keys (snd kv)))
                    match dict_get oeqb docs fo with
                    | Some _ => docs
                    | None => dict_set oeqb docs fo []
                    end).
  { destruct (dict_get oeqb docs fo); [auto|]. split.
    - now apply (@dict_keys_set_nodup _ _ _ oeqb_spec).
    - apply (@dict_set_values _ _ oeqb (fun v => NoDup (dict_keys v)));
        [exact Hv|]. constructor. }
  destruct H1 as [Hk1 Hv1]. split.
  - now apply (@dict_keys_set_nodup _ _ _ oeqb_spec).
  - apply (@dict_set_values _ _ oeqb (fun v => NoDup (dict_keys v)));
      [exact Hv1|].
    apply (@dict_keys_set_nodup _ _ _ pystr_eqb_eq).
    match goal with
    | |- NoDup (dict_keys match ?g with Some i => i | None => [] end) =>
        destruct g as [inner|] eqn:Eg
    end.
    + exact (@dict_get_value _ _ oeqb (fun v => NoDup (dict_keys v)) _ _ _ Hv1 Eg).
    + constructor.
Qed.

Lemma fold_listing_nodup (objs : list (Object timestamp)) :
  forall docs : listing timestamp,
    NoDup (dict_keys docs)
    /\ Forall (fun kv => NoDup (dict_keys (snd kv))) docs ->
    NoDup (dict_keys (fold_left (@add_listing timestamp) objs docs))
    /\ Forall (fun kv => NoDup (dict_keys (snd kv)))
         (fold_left (@add_listing timestamp) objs docs).
Proof.
  induction objs as [|o objs IH]; intros docs H; simpl; [exact H|].
  apply IH. now apply add_listing_nodup.
Qed.

(** X18: [list_documents] groups the objects of the collection by file
    name.  Every file name is listed once and every id once under its
    file name; an id is listed under a file name exactly when the
    collection yields an object with that id and that file name. *)
Theorem list_documents_groups_by_file
  (fuel : nat) (name : pystr) (w : World Client ext) cl c e1
  (objs : list (Object timestamp)) e2 :
  retry (self w) <> 0 -> client (self w) = Some cl ->
  collections_get lib cl (ArgName name) (env w) = (inr c, e1) ->
  iterator lib c e1 = ((objs, None), e2) ->
  exists L w',
    list_documents lib (S fuel) (Some name) w = (Ret L, w')
    /\ NoDup (dict_keys L)
    /\ (forall f inner, dict_get oeqb L f = Some inner ->
          NoDup (dict_keys inner))
    /\ (forall f u,
          listed L f u
          <-> exists o, In o objs /\ p_file (o_properties o) = f
                        /\ o_uuid o = u).
Proof.
  intros Hx Hc Hget Hit.
  eexists. eexists. split.
  { apply (list_documents_once lib fuel name w Hx Hc Hget Hit). }
  destruct (@fold_listing_nodup objs []) as [Hk Hv].
  { split; constructor. }
  split; [exact Hk|]. split.
  - intros f inner E.
    exact (@dict_get_value _ _ oeqb (fun v => NoDup (dict_keys v)) _ _ _ Hv E).
  - intros f u. rewrite fold_listing_listed. split.
    + intros [[inner [E _]]|H]; [discriminate|exact H].
    + intros H. now right.
Qed.

Lemma uuids_under_cons (L : listing timestamp) k v f :
  uuids_under ((k, v) :: L) f
  = if oeqb k f then dict_keys v ++ uuids_under L f else uuids_under L f.
Proof. unfold uuids_under. simpl. now destruct (oeqb k f). Qed.

Lemma listed_cons (L : listing timestamp) k v f u :
  listed ((k, v) :: L) f u
  <-> if oeqb k f then In u (dict_keys v) else listed L f u.
Proof.
  unfold listed. simpl. destruct (oeqb k f); [|reflexivity]. split.
  - intros [inner [E Hin]]. injection E as <-. exact Hin.
  - intros Hin. exists v. auto.
Qed.

Lemma uuids_under_absent (L : listing timestamp) f :
  ~ In f (dict_keys L) -> uuids_under L f = [].
Proof.
  induction L as [|[k v] L IH]; intros Hnin; [reflexivity|].
  rewrite uuids_under_cons. destruct (oeqb k f) eqn:E.
  - apply oeqb_spec in E. subst k. exfalso. apply Hnin. now left.
  - apply IH. intros Hin. apply Hnin. now right.
Qed.

(** With every file name once in the listing, the loop visits the ids
    listed under the file name. *)
Lemma uuids_under_listed (L : listing timestamp) f u :
  NoDup (dict_keys L) -> In u (uuids_under L f) <-> listed L f u.
Proof.
  induction L as [|[k v] L IH]; intros Hnd.
  - split; [intros []|]. intros [inner [E _]]. discriminate.
  - inversion Hnd as [|? ? Hnin Hnd']; subst.
    rewrite uuids_under_cons, listed_cons. destruct (oeqb k f) eqn:E.
    + apply oeqb_spec in E. subst k.
      rewrite (@uuids_under_absent L f Hnin), app_nil_r. reflexivity.
    + now apply IH.
Qed.

Lemma uuids_under_nodup (L : listing timestamp) f :
  NoDup (dict_keys L) ->
  Forall (fun kv => NoDup (dict_keys (snd kv))) L ->
  NoDup (uuids_under L f).
Proof.
  induction L as [|[k v] L IH]; intros Hnd Hv.
  - constructor.
  - inversion Hnd as [|? ? Hnin Hnd']; subst.
    inversion Hv as [|? ? Hv1 Hv']; subst.
    rewrite uuids_under_cons. destruct (oeqb k f) eqn:E.
    + apply oeqb_spec in E. subst k.
      rewrite (@uuids_under_absent L f Hnin), app_nil_r. exact Hv1.
    + now apply IH.
Qed.

Lemma for_each_app (St A : Type) (body : A -> M St unit) (xs ys : list A) :
  forall st,
    for_each (xs ++ ys) body st
    = (for_each xs body ;;; for_each ys body) st.
Proof.
  induction xs as [|x xs IH]; intros st; [reflexivity|].
  cbn [for_each app]. unfold bind.
  destruct (body x st) as [[[]| |] st1]; [|reflexivity|reflexivity].
  rewrite IH. reflexivity.
Qed.

(** The two nested loops over a listing are one loop over the ids under
    the file name. *)
Lemma for_each_grouped (St : Type) (body : pystr -> M St unit)
  (filename : option pystr) (L : listing timestamp) :
  forall st,
    for_each L
      (fun f_docs =>
         if oeqb (fst f_docs) filename
         then for_each (dict_keys (snd f_docs)) body
         else ret tt) st
    = for_each (uuids_under L filename) body st.
Proof.
  induction L as [|[k v] L IH]; intros st; [reflexivity|].
  rewrite uuids_under_cons. cbn [for_each fst snd].
  destruct (oeqb k filename).
  - rewrite for_each_app. unfold bind.
    destruct (for_each (dict_keys v) body st) as [[[]| |] st1];
      [apply IH|reflexivity|reflexivity].
  - unfold bind at 1, ret at 1. apply IH.
Qed.

Lemma more_calls_shift (a : api) (n : nat) (tr : list event) :
  more_calls a n (EvCall a :: tr) = more_calls a (S n) tr.
Proof.
  unfold more_calls. induction n as [|n IH]; [reflexivity|].
  cbn [repeat app]. now rewrite IH.
Qed.

Lemma for_each_deletes (c : Collection) (us : list pystr) :
  forall (r0 : option bool) (w : World Client ext) r e4,
    delete_each lib c us r0 (env w) = Some (r, e4) ->
    for_each us
      (fun u =>
         r <- lift (call ApiDeleteById (delete_by_id lib c u)) ;;
         set_local (Some r)) (r0, w)
    = (Ret tt,
       (r, mkWorld (self w) e4
             (more_calls ApiDeleteById (List.length us) (trace w)))).
Proof.
  induction us as [|u us IH]; intros r0 w r e4 H.
  - simpl in H. injection H as <- <-. destruct w; reflexivity.
  - cbn [delete_each] in H.
    destruct (delete_by_id lib c u (env w)) as [[x|b] e'] eqn:E;
      [discriminate|].
    cbn [for_each]. unfold bind at 1. unfold bind at 1, lift at 1, call at 1.
    cbn [fst snd]. rewrite E. unfold set_local at 1. cbn [fst snd].
    rewrite (IH (Some b)
               (mkWorld (self w) e' (EvCall ApiDeleteById :: trace w))
               r e4 H).
    cbn [self trace List.length]. now rewrite more_calls_shift.
Qed.

(** X19: [delete_document] by file name, on a store that answers: after
    one listing of the collection it calls [delete_by_id] once for every
    id the listing holds under the file name, in the listing's order, on
    the collection handle it fetched itself, and returns the answer of
    the last of these calls.  These ids are the ids of the objects with
    that file name, each one once. *)
Theorem delete_document_by_filename_deletes_each_id
  (fuel : nat) (collection f : pystr) (uuid : option pystr)
  (w w1 : World Client ext) (cl : Client) (c c' : Collection)
  (e1 e2 e3 e4 : ext) (objs : list (Object timestamp)) (r : option bool) :
  retry (self w) <> 0 ->
  ensure_connected lib (S fuel) w = (Ret tt, w1) ->
  client (self w1) = Some cl ->
  collections_get lib cl (ArgName collection) (env w1) = (inr c, e1) ->
  otruthy uuid = false -> truthy f = true ->
  collections_get lib cl (ArgName collection) e1 = (inr c', e2) ->
  iterator lib c' e2 = ((objs, None), e3) ->
  delete_each lib c
    (uuids_under (fold_left (@add_listing timestamp) objs []) (Some f))
    None e3 = Some (r, e4) ->
  delete_document lib (S fuel) collection uuid (Some f) w
  = (Ret r,
     mkWorld (self w1) e4
       (more_calls ApiDeleteById
          (List.length (uuids_under (fold_left (@add_listing timestamp) objs [])
                     (Some f)))
          (EvCall ApiIterator :: EvCall ApiGet
             :: EvTry m_list_documents :: EvCall ApiGet
             :: EvTry m_delete_document :: trace w1)))
  /\ NoDup (uuids_under (fold_left (@add_listing timestamp) objs [])
              (Some f))
  /\ (forall u,
        In u (uuids_under (fold_left (@add_listing timestamp) objs [])
                (Some f))
        <-> exists o, In o objs /\ p_file (o_properties o) = Some f
                      /\ o_uuid o = u).
Proof.
  intros Hx Hens Hc Hget Hu Hf Hget' Hit Hdel.
  assert (Hx1 : retry (self w1) <> 0).
  { rewrite (@ensure_connected_self _ _ _ _ _ lib _ _ _ _ Hens). exact Hx. }
  destruct (@fold_listing_nodup objs []) as [Hk Hv].
  { split; constructor. }
  split; [|split].
  - unfold delete_document, with_locals, bind at 1, lift at 1, get_self.
    cbn [fst snd].
    rewrite (bind_ret _ (lift_run _ Hens)).
    unfold retry_loop. unfold bind at 1.
    rewrite retry_rounds_first by exact Hx.
    unfold bind at 1, lift at 1, record at 1. cbn [fst snd self env trace].
    unfold bind at 1, lift at 1, the_client at 1. cbn [fst snd self].
    rewrite Hc.
    unfold bind at 1, lift at 1, call at 1. cbn [fst snd self env trace].
    rewrite Hget. rewrite Hu. cbn [otruthy]. rewrite Hf.
    unfold bind at 1, lift at 1. cbn [fst snd].
    erewrite list_documents_once; eauto.
    rewrite for_each_grouped.
    erewrite for_each_deletes; [reflexivity|exact Hdel].
  - now apply uuids_under_nodup.
  - intros u. rewrite (@uuids_under_listed _ (Some f) u Hk), fold_listing_listed.
    split.
    + intros [[inner [E _]]|H]; [discriminate|exact H].
    + intros H. now right.
Qed.

End ListingFacts.

(** * Further properties: queries and [close] *)

Section QueryFacts.

Variables timestamp Client Collection BatchReturn ext : Type.
Variable lib : Weaviate timestamp Client Collection BatchReturn ext.

Lemma for_each_append_map (A B : Type) (f : A -> B) (xs : list A) :
  forall (acc : list B) (w : World Client ext),
    for_each xs (fun i => dd <- get_local ;; set_local (dd ++ [f i])) (acc, w)
    = (Ret tt, (acc ++ map f xs, w)).
Proof.
  induction xs as [|x xs IH]; intros acc w.
  - simpl. now rewrite app_nil_r.
  - cbn [for_each map]. unfold bind at 1.
    unfold bind at 1, get_local at 1, set_local at 1. cbn [fst snd].
    rewrite IH, <- app_assoc. reflexivity.
Qed.

(** X20: [get_documents] with a query and neither id nor file name, on
    a store that answers: one [near_text] call with the query and the
    limit as given, and one record per object of its answer, in the
    answer's order, each under its own id. *)
Theorem get_documents_by_query
  (fuel : nat) (collection q : pystr) (uuid filename : option pystr)
  (num_results : Z) (w : World Client ext) cl c e1
  (objs : list (Object timestamp)) e2 :
  retry (self w) <> 0 -> client (self w) = Some cl ->
  otruthy uuid = false -> truthy q = true -> otruthy filename = false ->
  collections_get lib cl (ArgName collection) (env w) = (inr c, e1) ->
  near_text lib c q num_results e1 = (inr objs, e2) ->
  get_documents lib (S fuel) collection uuid (Some q) filename num_results w
  = (Ret (map (fun i => Some (document_of (o_uuid i) (o_properties i))) objs),
     mkWorld (self w) e2
       (EvCall ApiNearText :: EvCall ApiGet :: EvTry m_get_documents
          :: trace w)).
Proof.
  intros Hx Hc Hu Hq Hf Hget Hnear.
  unfold get_documents, with_locals, bind at 1, lift at 1, get_self.
  cbn [fst snd].
  rewrite (bind_ret _ (lift_run _ (ensure_connected_set lib (S fuel) w Hc))).
  rewrite Hu, Hf. cbn [otruthy]. rewrite Hq.
  unfold bind at 1, ret at 1.
  unfold retry_loop. unfold bind at 1.
  rewrite retry_rounds_first by exact Hx.
  unfold bind at 1, lift at 1, record at 1. cbn [fst snd self env trace].
  unfold bind at 1, lift at 1, the_client at 1. cbn [fst snd self].
  rewrite Hc.
  unfold bind at 1, lift at 1, call at 1. cbn [fst snd self env trace].
  rewrite Hget.
  unfold bind at 1, lift at 1, call at 1. cbn [fst snd self env trace].
  rewrite Hnear.
  rewrite (for_each_append_map
             (fun i : Object timestamp =>
                Some (document_of (o_uuid i) (o_properties i)))).
  reflexivity.
Qed.

(** X21: [close] forgets the client only when the library's close
    returns.  Then the object is left without a client and a second
    [close] does nothing: it makes no call, so it cannot fail.  When the
    library's close raises, the exception goes to the caller and the
    object still holds the client. *)
Theorem close_forgets_client_on_success
  (w : World Client ext) (c : Client) :
  client (self w) = Some c ->
  (forall e',
     client_close lib c (env w) = (inr tt, e') ->
     exists w1,
       close lib w = (Ret tt, w1)
       /\ client (self w1) = None /\ env w1 = e' /\ trace w1 = trace w
       /\ close lib w1 = (Ret tt, w1))
  /\ (forall e e',
        client_close lib c (env w) = (inl e, e') ->
        exists w1,
          close lib w = (Raise e, w1)
          /\ client (self w1) = Some c /\ env w1 = e').
Proof.
  intros Hc. split.
  - intros e' Hclose. unfold close at 1. rewrite Hc, Hclose.
    eexists. split; [reflexivity|].
    cbn [set_client self client env trace fst snd]. repeat split.
  - intros e e' Hclose. unfold close. rewrite Hc, Hclose.
    eexists. split; [reflexivity|]. cbn [self env]. split; [exact Hc|].
    reflexivity.
Qed.

Lemma get_document_on_stable_store (fuel : nat) (collection u : pystr)
  (w : World Client ext) cl c e (o : Object timestamp) rest :
  retry (self w) <> 0 -> client (self w) = Some cl -> env w = e ->
  collections_get lib cl (ArgName collection) e = (inr c, e) ->
  fetch_objects_by_id lib c u e = (inr (o :: rest), e) ->
  get_document lib (S fuel) collection u w
  = (Ret (Some (document_of u (o_properties o))),
     mkWorld (self w) e
       (EvCall ApiFetchObjects :: EvCall ApiGet :: EvTry m_get_document
          :: trace w)).
Proof.
  intros Hx Hc He Hget Hfetch. subst e.
  unfold get_document.
  eapply eq_trans.
  { eapply (guarded_loop_first_ret lib);
      [exact Hx|exact (ensure_connected_set lib (S fuel) w Hc)|].
    unfold bind at 1, lift at 1, the_client at 1. cbn [fst snd self].
    rewrite Hc.
    unfold bind at 1, lift at 1, call at 1. cbn [fst snd self env trace].
    rewrite Hget.
    unfold bind at 1, lift at 1, call at 1. cbn [fst snd self env trace].
    rewrite Hfetch. reflexivity. }
  reflexivity.
Qed.

Lemma for_each_get_document (fuel : nat) (collection : pystr) cl c e
  (first : pystr -> Object timestamp) (us : list pystr) :
  collections_get lib cl (ArgName collection) e = (inr c, e) ->
  (forall u, In u us ->
     exists rest, fetch_objects_by_id lib c u e = (inr (first u :: rest), e)) ->
  forall (acc : list (option (Document timestamp))) (w : World Client ext),
    retry (self w) <> 0 -> client (self w) = Some cl -> env w = e ->
    exists w',
      for_each us
        (fun uuid =>
           doc <- lift (get_document lib (S fuel) collection uuid) ;;
           dd <- get_local ;;
           set_local (dd ++ [doc])) (acc, w)
      = (Ret tt,
         (acc ++ map (fun u => Some (document_of u (o_properties (first u))))
                   us, w'))
      /\ self w' = self w /\ env w' = e.
Proof.
  intros Hget. induction us as [|u us IH]; intros Hfetch acc w Hx Hc He.
  - exists w. cbn [for_each map]. rewrite app_nil_r. auto.
  - destruct (Hfetch u (or_introl eq_refl)) as [rest Hu].
    cbn [for_each map]. unfold bind at 1.
    rewrite (bind_ret _ (lift_run _
               (get_document_on_stable_store fuel collection u w
                  Hx Hc He Hget Hu))).
    unfold bind at 1, get_local at 1, set_local at 1. cbn [fst snd].
    destruct (IH (fun v Hv => Hfetch v (or_intror Hv))
                (acc ++ [Some (document_of u (o_properties (first u)))])
                (mkWorld (self w) e
                   (EvCall ApiFetchObjects :: EvCall ApiGet
                      :: EvTry m_get_document :: trace w))
                Hx Hc eq_refl)
      as [w' [E [Hs He']]].
    exists w'. rewrite E, <- app_assoc. auto.
Qed.

(** X27: [get_documents] by file name, on a store that answers and
    that reading does not change: after one listing of the collection it
    fetches every id listed under the file name and returns one record
    per id, in the listing's order, each the first object of its
    fetch. *)
Theorem get_documents_by_filename
  (fuel : nat) (collection f : pystr) (uuid query : option pystr)
  (num_results : Z) (w : World Client ext) cl c e1
  (objs : list (Object timestamp)) e2 c'
  (first : pystr -> Object timestamp) :
  retry (self w) <> 0 -> client (self w) = Some cl ->
  otruthy uuid = false -> otruthy query = false -> truthy f = true ->
  collections_get lib cl (ArgName collection) (env w) = (inr c, e1) ->
  iterator lib c e1 = ((objs, None), e2) ->
  collections_get lib cl (ArgName collection) e2 = (inr c', e2) ->
  (forall u,
     In u (uuids_under (fold_left (@add_listing timestamp) objs [])
             (Some f)) ->
     exists rest,
       fetch_objects_by_id lib c' u e2 = (inr (first u :: rest), e2)) ->
  exists w',
    get_documents lib (S fuel) collection uuid query (Some f) num_results w
    = (Ret (map (fun u => Some (document_of u (o_properties (first u))))
              (uuids_under (fold_left (@add_listing timestamp) objs [])
                 (Some f))), w')
    /\ self w' = self w /\ env w' = e2.
Proof.
  intros Hx Hc Hu Hq Hf Hget Hit Hget' Hfetch.
  unfold get_documents, with_locals, bind at 1, lift at 1, get_self.
  cbn [fst snd].
  rewrite (bind_ret _ (lift_run _ (ensure_connected_set lib (S fuel) w Hc))).
  rewrite Hu, Hq. cbn [otruthy]. rewrite Hf.
  unfold bind at 1, ret at 1. unfold bind at 1, ret at 1.
  unfold bind at 1.
  unfold bind at 1, lift at 1. cbn [fst snd].
  rewrite (list_documents_once lib fuel collection w Hx Hc Hget Hit).
  rewrite for_each_grouped.
  destruct (@for_each_get_document fuel collection cl c' e2 first
              (uuids_under (fold_left (@add_listing timestamp) objs [])
                 (Some f))
              Hget' Hfetch []
              (mkWorld (self w) e2
                 (EvCall ApiIterator :: EvCall ApiGet
                    :: EvTry m_list_documents :: trace w))
              Hx Hc eq_refl)
    as [w' [E [Hs He]]].
  rewrite E. exists w'. cbn [fst snd app]. auto.
Qed.

(** X28: a retry of [list_documents] cannot succeed.  The first pass
    rebinds [collection] to the collection object, so the second pass
    asks [collections.get] with the object instead of the name.  When
    the iteration of the first pass fails with a connectivity error, the
    reconnect succeeds and the library rejects the object with an error
    of its own, [list_documents] raises that error at its second pass,
    whatever budget is left and whether or not the store answers
    again. *)
Theorem list_documents_retries_with_the_collection_object
  (fuel : nat) (name : pystr) (w : World Client ext) cl c e1
  (objs : list (Object timestamp)) msg e2 cl' e3 err e4 :
  retry (self w) <> 0 -> retry (self w) <> 1 ->
  client (self w) = Some cl ->
  collections_get lib cl (ArgName name) (env w) = (inr c, e1) ->
  iterator lib c e1 = ((objs, Some (WeaviateConnectionError msg)), e2) ->
  connect_to_local lib (host (self w)) (port (self w)) (grpc_port (self w)) e2
  = (inr cl', e3) ->
  collections_get lib cl' (ArgCollection c) (time_sleep lib 1 e3)
  = (inl err, e4) ->
  is_connection_error err = false ->
  exists w',
    list_documents lib (S (S fuel)) (Some name) w = (Raise err, w')
    /\ env w' = e4
    /\ tries m_list_documents (trace w')
       = (2 + tries m_list_documents (trace w))%nat
    /\ calls ApiIterator (trace w') = (1 + calls ApiIterator (trace w))%nat.
Proof.
  intros Hx0 Hx1 Hc Hget Hit Hconn Hget2 Herr.
  unfold list_documents, with_locals, bind at 1, lift at 1, get_self.
  cbn [fst snd].
  rewrite (bind_ret _ (lift_run _
             (ensure_connected_set lib (S (S fuel)) w Hc))).
  unfold retry_loop. unfold bind at 1.
  rewrite retry_rounds_first by exact Hx0.
  unfold bind at 1, lift at 1, record at 1. cbn [fst snd self env trace].
  unfold bind at 1, lift at 1, the_client at 1. cbn [fst snd self].
  rewrite Hc.
  unfold bind at 1, get_local at 1. cbn [fst snd].
  unfold bind at 1, lift at 1, call at 1. cbn [fst snd self env trace].
  rewrite Hget.
  unfold bind at 1, set_local at 1. cbn [fst snd].
  unfold bind at 1, lift at 1, iterate at 1. cbn [fst snd self env trace].
  rewrite Hit.
  rewrite (bind_ret _ (for_each_listing objs _ _ _)).
  unfold raise at 1. cbn [is_connection_error].
  unfold bind at 1, lift at 1, connect at 1, bind at 1, get_self at 1.
  cbn [fst snd self].
  cbn [connect_rounds]. destruct (Z.eqb_spec (retry (self w)) 0) as [|_];
    [contradiction|].
  unfold bind at 1, record at 1, call at 1. cbn [fst snd self env trace].
  rewrite Hconn.
  unfold bind at 1, set_client at 1. cbn [fst snd self env trace].
  unfold ret at 1.
  unfold bind at 1, lift at 1, sleep at 1. cbn [fst snd self env trace].
  rewrite retry_rounds_first by lia.
  unfold bind at 1, lift at 1, record at 1. cbn [fst snd self env trace].
  unfold bind at 1, lift at 1, the_client at 1.
  cbn [fst snd self client].
  unfold bind at 1, get_local at 1. cbn [fst snd].
  unfold bind at 1, lift at 1, call at 1. cbn [fst snd self env trace].
  rewrite Hget2. rewrite Herr.
  eexists. split; [reflexivity|]. cbn [snd env trace].
  repeat split.
Qed.

End QueryFacts.

(** * Further properties: ingestion of files and URLs *)

Section IngestFacts.

Variables timestamp Client Collection BatchReturn ext Bytes : Type.
Variable lib : Weaviate timestamp Client Collection BatchReturn ext.
Variable plat : Platform ext Bytes.

Lemma platform_ret (A : Type) (f : ext -> (exn + A) * ext)
  (w : World Client ext) v e' :
  f (env w) = (inr v, e') ->
  platform f w = (Ret v, mkWorld (self w) e' (trace w)).
Proof. intros H. unfold platform. now rewrite H. Qed.

(** X22: a PDF without pages.  The loop of [add_pdf] never assigns [r],
    so [return r] raises UnboundLocalError; the file has been read and
    the store has not been called. *)
Theorem add_pdf_without_pages_is_unbound
  (fuel : nat) (collection title filename : pystr) (tmp_file : option pystr)
  (w : World Client ext) (b : Bytes) (e1 : ext) :
  read_bytes plat tmp_file (env w) = (inr b, e1) ->
  pdf_pages plat b = inr [] ->
  add_pdf lib plat fuel collection title filename tmp_file w
  = (Raise UnboundLocalError, mkWorld (self w) e1 (trace w)).
Proof.
  intros Hread Hpages. unfold add_pdf.
  rewrite (bind_ret _ (platform_ret _ _ Hread)).
  rewrite Hpages. reflexivity.
Qed.

Lemma extract_from_url_failed (url : pystr) (w : World Client ext)
  (resp : Response Bytes) e1 :
  session_get plat url (env w) = (inr resp, e1) ->
  status_code resp <> 200 ->
  extract_from_url plat url w
  = (Ret (of_string "Failed to fetch the webpage. Status code: "
            ++ Text.str_of_int (status_code resp)),
     mkWorld (self w) e1 (trace w)).
Proof.
  intros Hget Hs. unfold extract_from_url.
  rewrite (bind_ret _ (platform_ret _ _ Hget)).
  destruct (Z.eqb_spec (status_code resp) 200); [contradiction|reflexivity].
Qed.

Lemma extract_from_url_unsupported (url : pystr) (w : World Client ext)
  (resp : Response Bytes) e1 header :
  session_get plat url (env w) = (inr resp, e1) ->
  status_code resp = 200 ->
  content_type_header resp = Some header ->
  dict_get PyStr.eqb content_handlers
    (if Text.contains Text.semicolon header
     then Text.split_head Text.semicolon header
     else header) = None ->
  extract_from_url plat url w
  = (Ret (of_string "Unsupported content type"),
     mkWorld (self w) e1 (trace w)).
Proof.
  intros Hget Hs Hh Hnone. unfold extract_from_url.
  rewrite (bind_ret _ (platform_ret _ _ Hget)).
  rewrite Hs, Hh. cbn [Z.eqb Pos.eqb]. unfold bind at 1, ret at 1.
  rewrite Hnone. reflexivity.
Qed.

(** X23: [add_url] stores the diagnostics of [extract_from_url] as
    documents.  When the fetch ends with a status other than 200, the
    text "Failed to fetch the webpage. Status code: N" is handed to
    [add_document] as the content of the page; when the content type has
    no handler, the text "Unsupported content type" is.  [add_url] does
    not return None in either case. *)
Theorem add_url_ingests_the_diagnostics
  (fuel : nat) (collection title url : pystr) (w : World Client ext)
  (resp : Response Bytes) (e1 : ext) :
  session_get plat url (env w) = (inr resp, e1) ->
  (status_code resp <> 200 ->
   add_url lib plat fuel collection title url w
   = add_document lib fuel collection title (of_string "URL") url None
       (Some (of_string "Failed to fetch the webpage. Status code: "
                ++ Text.str_of_int (status_code resp)))
       (mkWorld (self w) e1 (trace w)))
  /\ (forall header,
        status_code resp = 200 ->
        content_type_header resp = Some header ->
        dict_get PyStr.eqb content_handlers
          (if Text.contains Text.semicolon header
           then Text.split_head Text.semicolon header
           else header) = None ->
        add_url lib plat fuel collection title url w
        = add_document lib fuel collection title (of_string "URL") url None
            (Some (of_string "Unsupported content type"))
            (mkWorld (self w) e1 (trace w))).
Proof.
  intros Hget. split.
  - intros Hs. unfold add_url.
    rewrite (bind_ret _ (extract_from_url_failed url w Hget Hs)).
    reflexivity.
  - intros header Hs Hh Hnone. unfold add_url.
    rewrite (bind_ret _ (extract_from_url_unsupported url w Hget Hs Hh Hnone)).
    reflexivity.
Qed.

Lemma contains_app (c : N) (s params : pystr) :
  Text.contains c (s ++ c :: params) = true.
Proof.
  unfold Text.contains. rewrite existsb_app. cbn [existsb].
  rewrite N.eqb_refl. now rewrite orb_true_r.
Qed.

Lemma split_head_app (c : N) (s params : pystr) :
  Text.contains c s = false -> Text.split_head c (s ++ c :: params) = s.
Proof.
  unfold Text.contains. induction s as [|a s IH]; cbn [existsb app].
  - intros _. cbn [Text.split_head]. now rewrite N.eqb_refl.
  - intros H. apply orb_false_elim in H. destruct H as [Ha Hs].
    cbn [Text.split_head]. rewrite N.eqb_sym, Ha. now rewrite IH.
Qed.

Lemma text_types_handled (ct : pystr) :
  In ct text_types ->
  Text.contains Text.semicolon ct = false
  /\ dict_get PyStr.eqb content_handlers ct = Some FromText.
Proof.
  intros H. repeat (destruct H as [<-|H]; [split; reflexivity|]).
  destruct H.
Qed.

(** X24: the parameters of a content type are ignored.  For a 200
    response whose Content-Type is text/plain, text/csv, text/xml,
    application/json or application/xml, alone or followed by ";" and
    anything, [extract_from_url] returns the body text as it is. *)
Theorem extract_from_url_ignores_parameters
  (url : pystr) (w : World Client ext) (resp : Response Bytes) (e1 : ext)
  (ct params : pystr) :
  session_get plat url (env w) = (inr resp, e1) ->
  status_code resp = 200 ->
  In ct text_types ->
  content_type_header resp = Some ct
  \/ content_type_header resp = Some (ct ++ Text.semicolon :: params) ->
  extract_from_url plat url w
  = (Ret (resp_text resp), mkWorld (self w) e1 (trace w)).
Proof.
  intros Hget Hs Hct Hh. unfold extract_from_url.
  rewrite (bind_ret _ (platform_ret _ _ Hget)).
  rewrite Hs. cbn [Z.eqb Pos.eqb].
  destruct (@text_types_handled ct Hct) as [Hno Hd].
  destruct Hh as [Hh|Hh]; rewrite Hh; unfold bind at 1, ret at 1.
  - rewrite Hno, Hd. reflexivity.
  - rewrite contains_app, (@split_head_app _ ct params Hno), Hd. reflexivity.
Qed.

(** X25: [add_html] takes the title from the page, not from its
    argument.  Without a title element it raises AttributeError; with a
    title element that has no single string it raises
    ValueError('Missing document properties'); in both cases the file has
    been read and the store has not been called.  Otherwise the page's
    title is the title of the document and the first line of its
    content. *)
Theorem add_html_takes_the_title_of_the_page
  (fuel : nat) (collection title filename : pystr) (tmp_file : option pystr)
  (w : World Client ext) (html : pystr) (e1 : ext) :
  read_text plat tmp_file (env w) = (inr html, e1) ->
  (soup_title (beautiful_soup plat html) = None ->
   add_html lib plat fuel collection title filename tmp_file w
   = (Raise (AttributeError (of_string "'NoneType' object has no attribute")),
      mkWorld (self w) e1 (trace w)))
  /\ (soup_title (beautiful_soup plat html) = Some None ->
      add_html lib plat fuel collection title filename tmp_file w
      = (Raise (ValueError (of_string "Missing document properties")),
         mkWorld (self w) e1 (trace w)))
  /\ (forall s,
        soup_title (beautiful_soup plat html) = Some (Some s) ->
        add_html lib plat fuel collection title filename tmp_file w
        = add_document lib fuel collection s (of_string "HTML") filename None
            (Some (of_string "Document Title: " ++ s ++ [LF]
                     ++ of_string "Document Content:" ++ [LF]
                     ++ Text.join [LF; LF]
                          (soup_find_all (beautiful_soup plat html))))
            (mkWorld (self w) e1 (trace w))).
Proof.
  intros Hread. unfold add_html.
  rewrite (bind_ret _ (platform_ret _ _ Hread)).
  split; [|split].
  - intros ->. reflexivity.
  - intros ->. unfold bind at 1, ret at 1.
    apply (add_document_invalid lib). reflexivity.
  - intros s ->. reflexivity.
Qed.

Lemma endswith_other_last (s sa sb : pystr) (a b : N) :
  a <> b ->
  Text.endswith s (sa ++ [a]) = true -> Text.endswith s (sb ++ [b]) = false.
Proof.
  intros Hab. unfold Text.endswith. rewrite !rev_app_distr. cbn [rev app].
  destruct (rev s) as [|c r]; cbn [Text.startswith]; [discriminate|].
  intros H. apply andb_prop in H. destruct H as [Hc _].
  apply N.eqb_eq in Hc. subst c.
  destruct (N.eqb_spec b a) as [E|_]; [|reflexivity].
  exfalso. apply Hab. now symmetry.
Qed.

(** X26: a local file whose lower-cased name ends in ".txt" is read as
    text and handed to [add_document] under the type "TXT", with the
    file name as given.  When the file is empty, this raises
    ValueError('Missing document content') and the store is not
    called. *)
Theorem add_file_reads_txt_files
  (fuel : nat) (collection title filename : pystr) (tmp_file : option pystr)
  (w : World Client ext) (content : pystr) (e1 : ext) :
  Text.startswith filename (of_string "http") = false ->
  Text.endswith (str_lower plat filename) (of_string ".txt") = true ->
  read_text plat tmp_file (env w) = (inr content, e1) ->
  add_file lib plat fuel collection title filename tmp_file w
  = add_document lib fuel collection title (of_string "TXT") filename None
      (Some content) (mkWorld (self w) e1 (trace w))
  /\ (content = [] ->
      add_file lib plat fuel collection title filename tmp_file w
      = (Raise (ValueError (of_string "Missing document content")),
         mkWorld (self w) e1 (trace w))).
Proof.
  intros Hhttp Htxt Hread.
  assert (E : add_file lib plat fuel collection title filename tmp_file w
              = add_document lib fuel collection title (of_string "TXT")
                  filename None (Some content)
                  (mkWorld (self w) e1 (trace w))).
  { assert (Hpdf : Text.endswith (str_lower plat filename) (of_string ".pdf")
                   = false).
    { exact (@endswith_other_last _ (of_string ".tx") (of_string ".pd")
               116%N 102%N ltac:(discriminate) Htxt). }
    assert (Hdocx : Text.endswith (str_lower plat filename)
                      (of_string ".docx") = false).
    { exact (@endswith_other_last _ (of_string ".tx") (of_string ".doc")
               116%N 120%N ltac:(discriminate) Htxt). }
    unfold add_file. rewrite Hhttp, Hpdf, Hdocx, Htxt. unfold add_txt.
    rewrite (bind_ret _ (platform_ret _ _ Hread)). reflexivity. }
  split; [exact E|].
  intros ->. rewrite E. apply (add_document_invalid lib). reflexivity.
Qed.

End IngestFacts.

(** * Further properties on concrete inputs *)

Section OperationExamples.

Lemma add_document_rejects_witness :
  add_document Mem.lib 1 Ex.coll Ex.title Ex.txt Ex.file None None Ex.fresh
  = (Raise (ValueError (of_string "Missing document content")), Ex.fresh).
Proof.
  exact (@add_document_rejects_invalid_arguments Z unit pystr nat Mem.store
           Mem.lib 1%nat Ex.coll Ex.title Ex.txt Ex.file None None Ex.fresh
           eq_refl).
Defined.

Lemma add_document_keeps_fragment_witness :
  exists t w',
    add_document_records Mem.lib Ex.title Ex.txt Ex.file (Some Ex.hello)
      (Some Ex.two_lines) Ex.connected
    = (Ret [mkDocRecord Ex.title (Some Ex.hello) Ex.txt Ex.file
              Ex.two_lines t], w').
Proof.
  apply (@add_document_keeps_given_fragment Z unit pystr nat Mem.store
           Mem.lib Ex.title Ex.txt Ex.file Ex.hello (Some Ex.two_lines)
           Ex.connected); discriminate.
Defined.

Lemma add_document_other_error_witness :
  add_document Strict.lib 1 Ex.nope Ex.title Ex.txt Ex.file None
    (Some Ex.hello) Ex.connected
  = (Raise Strict.rejected,
     mkWorld (self Ex.connected) (Mem.with_clock Mem.up 101)
       (EvCall ApiInsertMany :: EvCall ApiGet :: EvTry m_add_document
          :: trace Ex.connected)).
Proof.
  eapply (@add_document_does_not_retry_other_errors Z unit pystr nat
            Mem.store Strict.lib 0%nat Ex.nope Ex.title Ex.txt Ex.file None
            (Some Ex.hello) Ex.connected
            (mkWorld (self Ex.connected) (Mem.with_clock Mem.up 101)
               (trace Ex.connected))
            (mkWorld (self Ex.connected) (Mem.with_clock Mem.up 101)
               (trace Ex.connected))
            [mkDocRecord Ex.title (Some Ex.hello) Ex.txt Ex.file Ex.hello 100]
            tt Ex.nope (Mem.with_clock Mem.up 101));
    try reflexivity.
  discriminate.
Defined.

Lemma get_document_first_object_witness :
  fst (get_document Mem.lib 1 Ex.coll (of_string "id-0") Ex.fresh)
  = Ret (Some (mkDocument (of_string "id-0") (Some (of_string "a.txt"))
                 (Some (of_string "A")) (Some (of_string "alpha"))
                 (Some (of_string "TXT")) (Some (of_string "alpha"))
                 (Some 5))).
Proof.
  rewrite (@get_document_returns_first_object Z unit pystr nat Mem.store
             Mem.lib 0%nat Ex.coll (of_string "id-0") Ex.fresh Ex.connected
             tt Ex.coll Mem.up (snd (hd (Ex.coll, mkObject []
                                           (mkProperties None None None None
                                              None None)) Mem.stored))
             [] Mem.up ltac:(discriminate) eq_refl eq_refl eq_refl eq_refl).
  reflexivity.
Defined.

Lemma delete_document_needs_selector_witness :
  delete_document Mem.lib 1 Ex.coll None None Ex.fresh
  = (Raise (ValueError (of_string "Missing document ID or filename")),
     mkWorld (self Ex.connected) Mem.up
       (EvCall ApiGet :: EvTry m_delete_document :: trace Ex.connected)).
Proof.
  exact (@delete_document_needs_id_or_filename Z unit pystr nat Mem.store
           Mem.lib 0%nat Ex.coll None None Ex.fresh Ex.connected tt Ex.coll
           Mem.up ltac:(discriminate) eq_refl eq_refl eq_refl eq_refl
           eq_refl).
Defined.

Lemma get_documents_without_selector_witness :
  get_documents Mem.lib 0 Ex.coll None None None 10
    (Mem.world (Some tt) 0 MAX_CHUNK_SIZE Mem.up)
  = (Ret [], Mem.world (Some tt) 0 MAX_CHUNK_SIZE Mem.up).
Proof.
  exact (@get_documents_without_selector Z unit pystr nat Mem.store Mem.lib
           0%nat Ex.coll None None None 10
           (Mem.world (Some tt) 0 MAX_CHUNK_SIZE Mem.up) tt
           eq_refl eq_refl eq_refl eq_refl).
Defined.

Lemma create_checks_witness :
  fst (create Mem.lib 1 (of_string "test") Ex.connected) = Ret false
  /\ fst (create Mem.lib 1 Ex.nope Ex.connected) = Ret true.
Proof.
  destruct (@create_checks_title_cased_name Z unit pystr nat Mem.store
              Mem.lib 0%nat (of_string "test") Ex.connected tt
              [of_string "Test"] Mem.up ltac:(discriminate) eq_refl eq_refl)
    as [Hin _].
  destruct (@create_checks_title_cased_name Z unit pystr nat Mem.store
              Mem.lib 0%nat Ex.nope Ex.connected tt
              [of_string "Test"] Mem.up ltac:(discriminate) eq_refl eq_refl)
    as [_ Hout].
  split.
  - rewrite Hin; [reflexivity|]. left. reflexivity.
  - rewrite (Hout ltac:(intros [H|[]]; discriminate H)
               (Mem.with_names Mem.up [of_string "Test"; Ex.nope]) eq_refl).
    reflexivity.
Defined.

Lemma delete_checks_witness :
  fst (delete Mem.lib 1 Ex.nope Ex.connected) = Ret false
  /\ fst (delete Mem.lib 1 (of_string "test") Ex.connected) = Ret true.
Proof.
  destruct (@delete_checks_title_cased_name Z unit pystr nat Mem.store
              Mem.lib 0%nat Ex.nope Ex.connected tt
              [of_string "Test"] Mem.up ltac:(discriminate) eq_refl eq_refl)
    as [Hout _].
  destruct (@delete_checks_title_cased_name Z unit pystr nat Mem.store
              Mem.lib 0%nat (of_string "test") Ex.connected tt
              [of_string "Test"] Mem.up ltac:(discriminate) eq_refl eq_refl)
    as [_ Hin].
  split.
  - rewrite Hout; [reflexivity|]. intros [H|[]]. discriminate H.
  - rewrite (Hin ltac:(left; reflexivity)
               (Mem.with_names Mem.up [of_string "Test"]) eq_refl).
    reflexivity.
Defined.

Lemma delete_document_prefers_id_witness :
  fst (delete_document Mem.lib 1 Ex.coll (Some (of_string "id-0"))
         (Some Ex.nope_txt) Ex.fresh)
  = Ret (Some true)
  /\ calls ApiIterator
       (trace (snd (delete_document Mem.lib 1 Ex.coll
                      (Some (of_string "id-0")) (Some Ex.nope_txt)
                      Ex.fresh)))
     = 0%nat.
Proof.
  rewrite (@delete_document_prefers_id Z unit pystr nat Mem.store Mem.lib
             0%nat Ex.coll (of_string "id-0") (Some Ex.nope_txt) Ex.fresh
             Ex.connected tt Ex.coll Mem.up true
             (Mem.with_objects Mem.up [] 1)
             ltac:(discriminate) eq_refl eq_refl eq_refl eq_refl eq_refl).
  split; reflexivity.
Defined.

Lemma update_document_deletes_witness :
  fst (update_document Mem.lib 1 Ex.coll (of_string "id-0") [] Ex.txt
         Ex.file None (Some Ex.hello) Ex.connected)
  = Raise (ValueError (of_string "Missing document properties"))
  /\ Mem.objects
       (env (snd (update_document Mem.lib 1 Ex.coll (of_string "id-0") []
                    Ex.txt Ex.file None (Some Ex.hello) Ex.connected)))
     = [].
Proof.
  rewrite (@update_document_deletes_before_it_validates Z unit pystr nat
             Mem.store Mem.lib 0%nat Ex.coll (of_string "id-0") [] Ex.txt
             Ex.file None (Some Ex.hello) Ex.connected tt Ex.coll Mem.up
             true (Mem.with_objects Mem.up [] 1)
             ltac:(discriminate) eq_refl eq_refl eq_refl eq_refl eq_refl).
  split; reflexivity.
Defined.

Lemma get_document_recovers_witness :
  exists w',
    get_document Flaky.lib 2 Ex.coll (of_string "id-0") Flaky.lost
    = (Ret (Some (document_of (of_string "id-0")
                    (mkProperties (Some (of_string "a.txt"))
                       (Some (of_string "A")) (Some (of_string "alpha"))
                       (Some (of_string "TXT")) (Some (of_string "alpha"))
                       (Some 5)))), w')
    /\ tries m_get_document (trace w') = 2%nat
    /\ calls ApiConnect (trace w') = 1%nat.
Proof.
  destruct (@get_document_recovers_after_reconnect Z unit pystr nat
              Mem.store Flaky.lib 0%nat Ex.coll (of_string "id-0")
              Flaky.lost tt Ex.coll Mem.down
              (of_string "connection refused") Mem.down tt Mem.up Ex.coll
              (Mem.with_clock Mem.up 101)
              (mkObject (of_string "id-0")
                 (mkProperties (Some (of_string "a.txt"))
                    (Some (of_string "A")) (Some (of_string "alpha"))
                    (Some (of_string "TXT")) (Some (of_string "alpha"))
                    (Some 5)))
              [] (Mem.with_clock Mem.up 101)
              ltac:(discriminate) ltac:(discriminate)
              eq_refl eq_refl eq_refl eq_refl eq_refl eq_refl)
    as [w' [E [_ [_ [T C]]]]].
  exists w'. split; [exact E|]. split; [exact T|exact C].
Defined.

Lemma list_documents_groups_witness :
  exists L w',
    list_documents Mem.lib 1 (Some Ex.coll) Sections.connected = (Ret L, w')
    /\ NoDup (dict_keys L)
    /\ (forall u,
          listed L (Some Sections.a_txt) u
          <-> exists o, In o (map snd Sections.stored)
                        /\ p_file (o_properties o) = Some Sections.a_txt
                        /\ o_uuid o = u).
Proof.
  destruct (@list_documents_groups_by_file Z unit pystr nat Mem.store
              Mem.lib 0%nat Ex.coll Sections.connected tt Ex.coll
              Sections.store (map snd Sections.stored) Sections.store
              ltac:(discriminate) eq_refl eq_refl eq_refl)
    as [L [w' [E [Hk [_ Hl]]]]].
  exists L, w'. split; [exact E|]. split; [exact Hk|].
  intros u. apply Hl.
Defined.

Lemma delete_document_by_filename_witness :
  delete_document Mem.lib 1 Ex.coll None (Some Sections.a_txt)
    Sections.connected
  = (Ret (Some true),
     mkWorld (self Sections.connected) Sections.store_after
       (more_calls ApiDeleteById 2
          [EvCall ApiIterator; EvCall ApiGet; EvTry m_list_documents;
           EvCall ApiGet; EvTry m_delete_document]))
  /\ uuids_under
       (fold_left (@add_listing Z) (map snd Sections.stored) [])
       (Some Sections.a_txt)
     = [Sections.id0; Sections.id2].
Proof.
  destruct (@delete_document_by_filename_deletes_each_id Z unit pystr nat
              Mem.store Mem.lib 0%nat Ex.coll Sections.a_txt None
              Sections.connected Sections.connected tt Ex.coll Ex.coll
              Sections.store Sections.store Sections.store
              Sections.store_after (map snd Sections.stored) (Some true)
              ltac:(discriminate) eq_refl eq_refl eq_refl eq_refl eq_refl
              eq_refl eq_refl eq_refl)
    as [E _].
  split; [exact E|reflexivity].
Defined.

Lemma get_documents_by_query_witness :
  get_documents Mem.lib 1 Ex.coll None (Some (of_string "alpha")) None 10
    Ex.connected
  = (Ret [Some (mkDocument (of_string "id-0") (Some (of_string "a.txt"))
                  (Some (of_string "A")) (Some (of_string "alpha"))
                  (Some (of_string "TXT")) (Some (of_string "alpha"))
                  (Some 5))],
     mkWorld (self Ex.connected) Mem.up
       (EvCall ApiNearText :: EvCall ApiGet :: EvTry m_get_documents
          :: trace Ex.connected)).
Proof.
  exact (@get_documents_by_query Z unit pystr nat Mem.store Mem.lib 0%nat
           Ex.coll (of_string "alpha") None None 10 Ex.connected tt Ex.coll
           Mem.up (map snd Mem.stored) Mem.up
           ltac:(discriminate) eq_refl eq_refl eq_refl eq_refl eq_refl
           eq_refl).
Defined.

Lemma add_pdf_without_pages_witness :
  add_pdf Mem.lib Disk.plat 1 Ex.coll Ex.title (of_string "empty.pdf")
    (Some Disk.empty_pdf) Ex.connected
  = (Raise UnboundLocalError, Ex.connected).
Proof.
  exact (@add_pdf_without_pages_is_unbound Z unit pystr nat Mem.store pystr
           Mem.lib Disk.plat 1%nat Ex.coll Ex.title (of_string "empty.pdf")
           (Some Disk.empty_pdf) Ex.connected [] Mem.up eq_refl eq_refl).
Defined.

Lemma add_url_ingests_diagnostics_witness :
  add_url Mem.lib Disk.plat 1 Ex.coll Ex.title Disk.gone_url Ex.connected
  = add_document Mem.lib 1 Ex.coll Ex.title (of_string "URL") Disk.gone_url
      None
      (Some (of_string "Failed to fetch the webpage. Status code: 404"))
      Ex.connected
  /\ add_url Mem.lib Disk.plat 1 Ex.coll Ex.title Disk.zip_url Ex.connected
     = add_document Mem.lib 1 Ex.coll Ex.title (of_string "URL")
         Disk.zip_url None (Some (of_string "Unsupported content type"))
         Ex.connected.
Proof.
  destruct (@add_url_ingests_the_diagnostics Z unit pystr nat Mem.store
              pystr Mem.lib Disk.plat 1%nat Ex.coll Ex.title Disk.gone_url
              Ex.connected
              (mkResponse 404 (Some (of_string "text/html")) []
                 Disk.gone_url Disk.no_read)
              Mem.up eq_refl)
    as [Hgone _].
  destruct (@add_url_ingests_the_diagnostics Z unit pystr nat Mem.store
              pystr Mem.lib Disk.plat 1%nat Ex.coll Ex.title Disk.zip_url
              Ex.connected
              (mkResponse 200 (Some (of_string "application/zip")) []
                 Disk.zip_url Disk.no_read)
              Mem.up eq_refl)
    as [_ Hzip].
  split.
  - exact (Hgone ltac:(discriminate)).
  - exact (Hzip (of_string "application/zip") eq_refl eq_refl eq_refl).
Defined.

Lemma extract_from_url_parameters_witness :
  extract_from_url Disk.plat Disk.csv_url Ex.connected
  = (Ret Disk.csv_body, Ex.connected).
Proof.
  apply (@extract_from_url_ignores_parameters unit Mem.store pystr Disk.plat
           Disk.csv_url Ex.connected
           (mkResponse 200 (Some (of_string "text/csv; charset=utf-8"))
              Disk.csv_body Disk.csv_url Disk.no_read)
           Mem.up (of_string "text/csv") (of_string " charset=utf-8")).
  - reflexivity.
  - reflexivity.
  - right. left. reflexivity.
  - right. reflexivity.
Defined.

Lemma add_html_without_title_witness :
  add_html Mem.lib Disk.plat 1 Ex.coll Ex.title (of_string "bare.html")
    (Some Disk.bare_html) Ex.connected
  = (Raise (AttributeError (of_string "'NoneType' object has no attribute")),
     Ex.connected).
Proof.
  destruct (@add_html_takes_the_title_of_the_page Z unit pystr nat Mem.store
              pystr Mem.lib Disk.plat 1%nat Ex.coll Ex.title
              (of_string "bare.html") (Some Disk.bare_html) Ex.connected
              Disk.bare Mem.up eq_refl)
    as [Hnone _].
  exact (Hnone eq_refl).
Defined.

Lemma add_file_reads_txt_witness :
  add_file Mem.lib Disk.plat 1 Ex.coll Ex.title (of_string "Notes.TXT")
    (Some Disk.empty_txt) Ex.connected
  = (Raise (ValueError (of_string "Missing document content")),
     Ex.connected).
Proof.
  destruct (@add_file_reads_txt_files Z unit pystr nat Mem.store pystr
              Mem.lib Disk.plat 1%nat Ex.coll Ex.title
              (of_string "Notes.TXT") (Some Disk.empty_txt) Ex.connected
              [] Mem.up eq_refl eq_refl eq_refl)
    as [_ Hempty].
  exact (Hempty eq_refl).
Defined.

Lemma get_documents_by_filename_witness :
  exists w',
    get_documents Mem.lib 1 Ex.coll None None (Some Sections.a_txt) 10
      Sections.connected
    = (Ret (map (fun u => Some (document_of u
                                  (o_properties (Sections.first u))))
              [Sections.id0; Sections.id2]), w')
    /\ env w' = Sections.store.
Proof.
  assert (Hfetch : forall u,
    In u (uuids_under
            (fold_left (@add_listing Z) (map snd Sections.stored) [])
            (Some Sections.a_txt)) ->
    exists rest,
      fetch_objects_by_id Mem.lib Ex.coll u Sections.store
      = (inr (Sections.first u :: rest), Sections.store)).
  { intros u Hin.
    assert (Hl : uuids_under
                   (fold_left (@add_listing Z) (map snd Sections.stored) [])
                   (Some Sections.a_txt)
                 = [Sections.id0; Sections.id2]) by reflexivity.
    rewrite Hl in Hin.
    destruct Hin as [<-|[<-|[]]]; exists []; reflexivity. }
  destruct (@get_documents_by_filename Z unit pystr nat Mem.store Mem.lib
              0%nat Ex.coll Sections.a_txt None None 10 Sections.connected
              tt Ex.coll Sections.store (map snd Sections.stored)
              Sections.store Ex.coll Sections.first
              ltac:(discriminate) eq_refl eq_refl eq_refl eq_refl eq_refl
              eq_refl eq_refl Hfetch)
    as [w' [E [_ He]]].
  exists w'. split; [exact E|exact He].
Defined.

Lemma close_forgets_client_witness :
  (exists w1,
     close Mem.lib Ex.connected = (Ret tt, w1)
     /\ client (self w1) = None
     /\ close Mem.lib w1 = (Ret tt, w1))
  /\ (exists w1,
        close Stuck.lib Ex.connected = (Raise Stuck.closed, w1)
        /\ client (self w1) = Some tt).
Proof.
  destruct (@close_forgets_client_on_success Z unit pystr nat Mem.store
              Mem.lib Ex.connected tt eq_refl)
    as [Hok _].
  destruct (@close_forgets_client_on_success Z unit pystr nat Mem.store
              Stuck.lib Ex.connected tt eq_refl)
    as [_ Hfail].
  split.
  - destruct (Hok Mem.up eq_refl) as [w1 [E [Hc [_ [_ E2]]]]].
    exists w1. auto.
  - destruct (Hfail Stuck.closed Mem.up eq_refl) as [w1 [E [Hc _]]].
    exists w1. auto.
Defined.

Lemma list_documents_retry_witness :
  exists w',
    list_documents Flaky.lib 2 (Some Ex.coll) Flaky.lost
    = (Raise (LibraryError (of_string "WeaviateInvalidInputError")), w')
    /\ Mem.reachable (env w') = true
    /\ tries m_list_documents (trace w') = 2%nat.
Proof.
  destruct (@list_documents_retries_with_the_collection_object Z unit pystr
              nat Mem.store Flaky.lib 0%nat Ex.coll Flaky.lost tt Ex.coll
              Mem.down [] (of_string "connection refused") Mem.down tt
              Mem.up (LibraryError (of_string "WeaviateInvalidInputError"))
              (Mem.with_clock Mem.up 101)
              ltac:(discriminate) ltac:(discriminate)
              eq_refl eq_refl eq_refl eq_refl eq_refl eq_refl)
    as [w' [E [He [T _]]]].
  exists w'. split; [exact E|]. split; [now rewrite He|exact T].
Defined.

End OperationExamples.
